(** * Auto Archiver: a shallow embedding of [src/main.ts]

    The plugin classifies a note as "archived" from its frontmatter and tags
    and mirrors it under an archive root.  This development embeds the
    classifier, the path arithmetic, the collision resolver, the per-file
    orchestrator and the batch scan, and proves what the specification says
    about them.

    Conventions.
    - A JavaScript string is a [string]: a sequence of code units below 256
      (ISO 8859-1).  On that range Unicode normalisation (NFC) is the
      identity, [toLowerCase] stays inside the range, and the only white
      space besides the ASCII one is U+00A0.
    - A JavaScript number is a binary64 [float]; [===] on numbers is
      [PrimFloat.eqb].
    - Asynchronous code is sequential here: every [await] is a bind of the
      vault monad [M], an exception is the result [Throw]. *)

From Stdlib Require Import String Ascii List ZArith Bool Lia Floats.
From Stdlib Require Import DecimalString DecimalNat.
Import ListNotations.

Local Open Scope string_scope.
Local Open Scope Z_scope.

Set Warnings "-register-all".

(* ================================================================== *)
(** * JavaScript strings *)

Module JsString.

Definition slash : ascii := "/"%char.
Definition backslash : ascii := ascii_of_nat 92.
Definition nbsp : ascii := ascii_of_nat 160.
Definition space : ascii := " "%char.

Definition isSlash (c : ascii) : bool := Ascii.eqb c slash.

Definition nonEmpty (s : string) : bool :=
  match s with EmptyString => false | String _ _ => true end.

(** White space of [String.prototype.trim] and of the regexp class [\s],
    restricted to code units below 256. *)
Definition isWhiteSpace (c : ascii) : bool :=
  let n := nat_of_ascii c in
  (((9 <=? n) && (n <=? 13)) || (n =? 32) || (n =? 160))%nat.

(** [toLowerCase] on one code unit: A-Z and the upper-case letters of
    ISO 8859-1 (U+00C0..U+00DE without the multiplication sign). *)
Definition lowerChar (c : ascii) : ascii :=
  let n := nat_of_ascii c in
  if (((65 <=? n) && (n <=? 90))
      || ((192 <=? n) && (n <=? 222) && negb (n =? 215)))%nat
  then ascii_of_nat (n + 32) else c.

Fixpoint mapChars (f : ascii -> ascii) (s : string) : string :=
  match s with
  | EmptyString => EmptyString
  | String c s' => String (f c) (mapChars f s')
  end.

Definition toLowerCase : string -> string := mapChars lowerChar.

(** Drop the longest prefix, resp. suffix, whose characters satisfy [p]:
    the effect of [replace(/^p+/, "")] and of [replace(/p+$/, "")]. *)
Fixpoint dropWhile (p : ascii -> bool) (s : string) : string :=
  match s with
  | EmptyString => EmptyString
  | String c s' => if p c then dropWhile p s' else s
  end.

Fixpoint dropWhileEnd (p : ascii -> bool) (s : string) : string :=
  match s with
  | EmptyString => EmptyString
  | String c s' =>
      match dropWhileEnd p s' with
      | EmptyString => if p c then EmptyString else String c EmptyString
      | t => String c t
      end
  end.

Definition trim (s : string) : string :=
  dropWhileEnd isWhiteSpace (dropWhile isWhiteSpace s).

(** [s.replace(/^#/, "")] *)
Definition stripHash (s : string) : string :=
  match s with
  | String c s' => if Ascii.eqb c "#"%char then s' else s
  | EmptyString => EmptyString
  end.

(** [s.replace(/\/+$/, "")] *)
Definition stripTrailingSlashes : string -> string := dropWhileEnd isSlash.

Fixpoint startsWith (s p : string) {struct p} : bool :=
  match p, s with
  | EmptyString, _ => true
  | String a p', String b s' => Ascii.eqb a b && startsWith s' p'
  | String _ _, EmptyString => false
  end.

(** [s.endsWith(c)] for a one-character needle. *)
Fixpoint endsWithChar (s : string) (c : ascii) : bool :=
  match s with
  | EmptyString => false
  | String a EmptyString => Ascii.eqb a c
  | String _ s' => endsWithChar s' c
  end.

(** [s.includes(sub)] *)
Fixpoint includes (s sub : string) : bool :=
  startsWith s sub
  || match s with
     | EmptyString => false
     | String _ s' => includes s' sub
     end.

(** [s.lastIndexOf(c)] for a one-character needle; -1 when absent. *)
Fixpoint lastIndexOf (s : string) (c : ascii) : Z :=
  match s with
  | EmptyString => -1
  | String a s' =>
      let r := lastIndexOf s' c in
      if 0 <=? r then r + 1 else if Ascii.eqb a c then 0 else -1
  end.

Fixpoint takeS (n : nat) (s : string) : string :=
  match n, s with
  | S k, String c s' => String c (takeS k s')
  | _, _ => EmptyString
  end.

Fixpoint dropS (n : nat) (s : string) : string :=
  match n, s with
  | S k, String _ s' => dropS k s'
  | _, _ => s
  end.

(** Index clamping of [String.prototype.slice]: a negative index counts
    from the end, everything is clamped to [0, length]. *)
Definition clampIndex (len i : Z) : Z :=
  if i <? 0 then Z.max (len + i) 0 else Z.min i len.

(** [s.slice(a, b)] *)
Definition slice (s : string) (a b : Z) : string :=
  let len := Z.of_nat (String.length s) in
  let from := clampIndex len a in
  let to := clampIndex len b in
  takeS (Z.to_nat (to - from)) (dropS (Z.to_nat from) s).

(** [s.slice(a)] *)
Definition sliceFrom (s : string) (a : Z) : string :=
  slice s a (Z.of_nat (String.length s)).

(** [s.split(d)] for a delimiter class [d] matching one character: the
    fields between delimiters, empty ones included. *)
Fixpoint splitOn (d : ascii -> bool) (s : string) : list string :=
  match s with
  | EmptyString => [EmptyString]
  | String c s' =>
      if d c then EmptyString :: splitOn d s'
      else match splitOn d s' with
           | [] => [String c EmptyString]
           | h :: t => String c h :: t
           end
  end.

(** [s.split(d).filter(Boolean)]; also [s.split(/d+/).filter(Boolean)],
    since a run of delimiters only contributes empty fields. *)
Definition fields (d : ascii -> bool) (s : string) : list string :=
  filter nonEmpty (splitOn d s).

(** [`${n}`] for a non-negative integer. *)
Definition showNat (n : nat) : string :=
  NilEmpty.string_of_uint (Nat.to_uint n).

(** [xs.includes(x)] on an array of strings. *)
Definition arrayIncludes (xs : list string) (x : string) : bool :=
  existsb (String.eqb x) xs.

End JsString.
Import JsString.


(* ================================================================== *)
(** * The host's path normalisation *)

Definition isSep (c : ascii) : bool :=
  Ascii.eqb c slash || Ascii.eqb c backslash.

(** [s.replace(/([\\/])+/g, "/")]: every run of slashes and backslashes
    becomes one slash (emitted at the last separator of the run). *)
Fixpoint collapseSeps (s : string) : string :=
  match s with
  | EmptyString => EmptyString
  | String c s' =>
      if isSep c then
        match s' with
        | EmptyString => String slash EmptyString
        | String c' _ =>
            if isSep c' then collapseSeps s'
            else String slash (collapseSeps s')
        end
      else String c (collapseSeps s')
  end.

Definition unNbsp (c : ascii) : ascii :=
  if Ascii.eqb c nbsp then space else c.

(** Modelled from the spec: [normalizePath] is imported from the host
    library ("obsidian") and is not part of the sources.  The spec's
    [normalize] "canonicalizes separators, collapses trailing separators"
    and never fails.  The model is the host's function, which its
    documentation describes as: forward and backward slashes are cleaned up
    into single forward slashes, leading and trailing slashes are removed,
    no-break spaces become regular spaces, and the result is normalised
    with [String.prototype.normalize] (the identity on this range of code
    units).  A path of which nothing is left is the vault root, whose path
    is ["/"]. *)
Definition normalizePath (p : string) : string :=
  let t := dropWhileEnd isSlash (dropWhile isSlash (collapseSeps p)) in
  let t := match t with EmptyString => String slash EmptyString | _ => t end in
  mapChars unNbsp t.

(* ================================================================== *)
(** * Values, settings, files *)

(** A frontmatter value, as the YAML parser of the host hands it out. *)
Inductive JsValue : Type :=
| JUndefined
| JNull
| JBool (b : bool)
| JNum (x : float)
| JStr (s : string)
| JArr (items : list JsValue)
| JObj (props : list (string * JsValue)).

(** [o[k]]: the first binding of [k], [undefined] when there is none. *)
Fixpoint getProp (o : list (string * JsValue)) (k : string) : JsValue :=
  match o with
  | [] => JUndefined
  | (k', v) :: o' => if String.eqb k k' then v else getProp o' k
  end.

(** [x ?? d] *)
Definition nullish (x d : JsValue) : JsValue :=
  match x with JUndefined | JNull => d | _ => x end.

Record AutoArchiverSettings : Type := mkSettings {
  propertyNames : list string;
  extraTruthyValues : list string;
  tags : list string;
  archiveRoot : string;
  excludedRoots : list string;
  dryRun : bool;
  showNotice : bool;
  unarchiveOnMissingAll : bool
}.

Definition DEFAULT_SETTINGS : AutoArchiverSettings :=
  {| propertyNames := ["Archived"];
     extraTruthyValues := ["yes"; "y"; "archived"; "done"];
     tags := ["archived"];
     archiveRoot := "Archive";
     excludedRoots := [];
     dryRun := false;
     showNotice := true;
     unarchiveOnMissingAll := true |}.

(** What [metadataCache.getFileCache] knows of a file: the frontmatter
    object and the inline tags (each entry is an object with a [tag]
    property); either may be missing. *)
Record CachedMetadata : Type := mkCache {
  frontmatter : option (list (string * JsValue));
  tagCache : option (list JsValue)
}.

(** A [TFile] object.  The host mutates [path] when the file is renamed;
    the metadata stays with the file. *)
Record TFile : Type := mkTFile {
  path : string;
  extension : string;
  cache : option CachedMetadata
}.

(** A computed destination: [{ dir, full }]. *)
Record Target : Type := mkTarget { dir : string; full : string }.

(* ================================================================== *)
(** * The vault and its monad *)

Inductive NoticeText : Type :=
| DryWouldArchive (p : string)
| DryWouldUnarchive (p : string)
| ArchivedTo (dest : string)
| UnarchivedTo (dest : string)
| ScanSummary (dry : bool) (archived unarchived : nat)
| ErrorSeeConsole.

(** Everything the plugin does to the outside, in order. *)
Inductive Effect : Type :=
| ConsoleDebugArchive (from to : string)
| ConsoleDebugUnarchive (from to : string)
| ConsoleError (e : string)
| Notice (text : NoticeText) (ms : Z)
| CreateFolder (p : string)
| RenameFile (from to : string).

Record Vault : Type := mkVault {
  files : list TFile;      (* the [TFile] objects, a reference is an index *)
  entries : list string;   (* the paths for which [adapter.exists] holds *)
  trace : list Effect
}.

(** The outcome of an asynchronous call: a value, a rejection with
    [String(e)], or no outcome when the collision loop runs out of fuel. *)
Inductive Result (A : Type) : Type :=
| Ok (a : A) (v : Vault)
| Throw (e : string) (v : Vault)
| Diverge.

Arguments Ok {A} a v.
Arguments Throw {A} e v.
Arguments Diverge {A}.

Definition M (A : Type) : Type := Vault -> Result A.

Definition ret {A : Type} (a : A) : M A := fun v => Ok a v.

Definition bind {A B : Type} (m : M A) (k : A -> M B) : M B :=
  fun v =>
    match m v with
    | Ok a v' => k a v'
    | Throw e v' => Throw e v'
    | Diverge => Diverge
    end.

Notation "x <- m ;; k" := (bind m (fun x => k))
  (at level 61, m at next level, right associativity).
Notation "m ;;; k" := (bind m (fun _ => k))
  (at level 61, right associativity).

(** [promise.catch(handler)] *)
Definition catch {A : Type} (m : M A) (handler : string -> M A) : M A :=
  fun v =>
    match m v with
    | Throw e v' => handler e v'
    | r => r
    end.

Definition when (b : bool) (m : M unit) : M unit := if b then m else ret tt.

Definition emit (e : Effect) : M unit :=
  fun v => Ok tt {| files := files v; entries := entries v;
                    trace := trace v ++ [e] |}.

(** The host may reject a folder creation or a move; which ones is the
    host's business.  [Some e] is the rejection, with [e = String(error)]. *)
Record Host : Type := mkHost {
  createFolderError : Vault -> string -> option string;
  renameFileError : Vault -> TFile -> string -> option string
}.

Fixpoint updateNth {A : Type} (n : nat) (x : A) (l : list A) : list A :=
  match n, l with
  | O, _ :: t => x :: t
  | S k, h :: t => h :: updateNth k x t
  | _, [] => []
  end.

Fixpoint removeString (x : string) (l : list string) : list string :=
  match l with
  | [] => []
  | y :: t => if String.eqb x y then removeString x t else y :: removeString x t
  end.

Fixpoint mdIndices (i : nat) (l : list TFile) : list nat :=
  match l with
  | [] => []
  | f :: t =>
      if String.eqb (extension f) "md" then i :: mdIndices (S i) t
      else mdIndices (S i) t
  end.

Section HostCalls.

Variable host : Host.

(** Dereference a [TFile]; a dangling reference cannot occur in the
    source, the model rejects. *)
Definition readFile (fid : nat) : M TFile :=
  fun v =>
    match nth_error (files v) fid with
    | Some f => Ok f v
    | None => Throw "TypeError" v
    end.

(** [vault.adapter.exists(p)] *)
Definition adapterExists (p : string) : M bool :=
  fun v => Ok (arrayIncludes (entries v) p) v.

(** [vault.createFolder(p)] *)
Definition createFolder (p : string) : M unit :=
  fun v =>
    match createFolderError host v p with
    | Some e => Throw e v
    | None => Ok tt {| files := files v; entries := p :: entries v;
                       trace := trace v ++ [CreateFolder p] |}
    end.

(** [fileManager.renameFile(file, dest)]: the file object gets its new
    path, the old path stops existing, the new one starts. *)
Definition renameFile (fid : nat) (dest : string) : M unit :=
  fun v =>
    match nth_error (files v) fid with
    | None => Throw "TypeError" v
    | Some f =>
        match renameFileError host v f dest with
        | Some e => Throw e v
        | None =>
            Ok tt {| files := updateNth fid
                                {| path := dest; extension := extension f;
                                   cache := cache f |} (files v);
                     entries := dest :: removeString (path f) (entries v);
                     trace := trace v ++ [RenameFile (path f) dest] |}
        end
    end.

(** [vault.getMarkdownFiles()] *)
Definition getMarkdownFiles : M (list nat) :=
  fun v => Ok (mdIndices 0 (files v)) v.

End HostCalls.

(* ================================================================== *)
(** * The plugin: [class AutoArchiverPlugin] *)

(** A [Set<string>] in insertion order. *)
Definition setAdd (x : string) (s : list string) : list string :=
  if arrayIncludes s x then s else s ++ [x].

(** Delimiters of a frontmatter tag string: [/[,\s]+/]. *)
Definition isTagDelim (c : ascii) : bool :=
  Ascii.eqb c ","%char || isWhiteSpace c.

(** [`${base} (${i})${ext}`]; the counter is a natural number, which is
    what the source's number is below 2^53. *)
Definition candidate (base ext : string) (i : nat) : string :=
  base ++ " (" ++ showNat i ++ ")" ++ ext.

Section Plugin.

Variable host : Host.
Variable fuel : nat.                        (* probes the collision loop may make *)
Variable settings : AutoArchiverSettings.   (* [this.settings] *)

Definition reportError (e : string) : M unit :=
  emit (ConsoleError e) ;;;
  emit (Notice ErrorSeeConsole 4000).

Definition norm (s : string) : string := toLowerCase (trim s).

(** [normalizePath(this.settings.archiveRoot).replace(/\/+$/, "")] *)
Definition archiveRootPath : string :=
  stripTrailingSlashes (normalizePath (archiveRoot settings)).

Definition isInArchive (path : string) : bool :=
  let p := normalizePath path in
  let root := archiveRootPath in
  String.eqb p root || startsWith p (root ++ "/").

Definition isExcluded (path : string) : bool :=
  if (List.length (excludedRoots settings) =? 0)%nat then false else
  let p := normalizePath path in
  existsb (fun prefix =>
             let root := stripTrailingSlashes (normalizePath prefix) in
             String.eqb p root || startsWith p (root ++ "/"))
          (excludedRoots settings).

(** The loop of [ensureFolderExists]: [acc] is the path built so far. *)
Fixpoint ensureParts (parts : list string) (acc : string) : M unit :=
  match parts with
  | [] => ret tt
  | part :: rest =>
      let acc := if nonEmpty acc then acc ++ "/" ++ part else part in
      let accNorm := normalizePath acc in
      ex <- adapterExists accNorm ;;
      when (negb ex)
        (catch (createFolder host accNorm)
               (fun e => if includes e "Folder already exists"
                         then ret tt else Throw e)) ;;;
      ensureParts rest acc
  end.

Definition ensureFolderExists (folderPath : string) : M unit :=
  let folderPath := normalizePath folderPath in
  ex <- adapterExists folderPath ;;
  if ex then ret tt
  else ensureParts (fields isSlash folderPath) "".

Definition isTruthy (v : JsValue) : bool :=
  match v with
  | JBool b => b
  | JNum x => PrimFloat.eqb x 1%float
  | JStr v =>
      let s := norm v in
      if String.eqb s "true" || String.eqb s "1" then true
      else if arrayIncludes (map norm (extraTruthyValues settings)) s then true
      else false
  | _ => false
  end.

(** The tags a file carries: frontmatter [tags] (a delimited string or an
    array), then the inline tags; each one normalised. *)
Definition tagSetOf (fm : option (list (string * JsValue)))
    (inline : list JsValue) : list string :=
  let fmtags := match fm with Some o => getProp o "tags" | None => JUndefined end in
  let fromFm :=
    match fmtags with
    | JStr s =>
        fold_left (fun acc t => setAdd (norm (stripHash t)) acc)
                  (fields isTagDelim s) []
    | JArr items =>
        fold_left (fun acc t =>
                     match t with
                     | JStr t => setAdd (norm (stripHash t)) acc
                     | _ => acc
                     end) items []
    | _ => []
    end in
  fold_left (fun acc t =>
               let raw := nullish (match t with
                                   | JObj o => getProp o "tag"
                                   | _ => JUndefined
                                   end) (JStr "") in
               match raw with
               | JStr raw => setAdd (norm (stripHash raw)) acc
               | _ => acc
               end) inline fromFm.

(** Return true if any configured property/tag indicates archive *)
Definition shouldArchive (file : TFile) : bool :=
  let fm := match cache file with Some c => frontmatter c | None => None end in
  let propNames := map norm (propertyNames settings) in
  let byProperty :=
    match fm with
    | Some o =>
        negb (List.length propNames =? 0)%nat
        && existsb (fun k => arrayIncludes propNames (norm k)
                             && isTruthy (getProp o k)) (map fst o)
    | None => false
    end in
  if byProperty then true else
  let inline := match cache file with
                | Some c => match tagCache c with Some l => l | None => [] end
                | None => []
                end in
  let tagSet := tagSetOf fm inline in
  if negb (List.length (tags settings) =? 0)%nat then
    let targets := fold_left (fun acc x => setAdd (norm (stripHash x)) acc)
                             (tags settings) [] in
    existsb (fun tg => arrayIncludes targets tg) tagSet
  else false.

Definition buildArchiveTarget (file : TFile) : Target :=
  let archiveRoot := archiveRootPath in
  let currentPath := normalizePath (path file) in
  let i := lastIndexOf currentPath slash in
  let curDir := if i =? -1 then "" else slice currentPath 0 i in
  let fname := if i =? -1 then currentPath else sliceFrom currentPath (i + 1) in
  let targetDir := if nonEmpty curDir then archiveRoot ++ "/" ++ curDir
                   else archiveRoot in
  {| dir := normalizePath targetDir;
     full := normalizePath (targetDir ++ "/" ++ fname) |}.

Definition buildUnarchiveTarget (file : TFile) : option Target :=
  let root := archiveRootPath in
  let filePath := normalizePath (path file) in
  if negb (isInArchive filePath) then None else
  if String.eqb filePath root then None else
  let withoutRoot :=
    sliceFrom filePath (Z.of_nat (String.length root) + 1) in
  let i := lastIndexOf withoutRoot slash in
  let curDir := if i =? -1 then "" else slice withoutRoot 0 i in
  let fname := if i =? -1 then withoutRoot else sliceFrom withoutRoot (i + 1) in
  let dirSafe := if nonEmpty curDir then normalizePath curDir else "" in
  let fullSafe := if nonEmpty dirSafe then normalizePath (dirSafe ++ "/" ++ fname)
                  else normalizePath fname in
  Some {| dir := dirSafe; full := fullSafe |}.

(** Where [resolveCollision] cuts an existing path: [(base, ext)]. *)
Definition splitExt (targetPath : string) : string * string :=
  let dot := lastIndexOf targetPath "."%char in
  let hasExt := negb (dot =? -1) && negb (endsWithChar targetPath slash) in
  (if hasExt then slice targetPath 0 dot else targetPath,
   if hasExt then sliceFrom targetPath dot else "").

(** [while (await exists(candidate i)) i++; return candidate i] *)
Fixpoint probe (n : nat) (base ext : string) (i : nat) : M string :=
  match n with
  | O => fun _ => Diverge
  | S n' =>
      taken <- adapterExists (normalizePath (candidate base ext i)) ;;
      if taken then probe n' base ext (S i)
      else ret (normalizePath (candidate base ext i))
  end.

Definition resolveCollision (targetPath : string) : M string :=
  let targetPath := normalizePath targetPath in
  taken <- adapterExists targetPath ;;
  if negb taken then ret targetPath else
  let (base, ext) := splitExt targetPath in
  probe fuel base ext 1.

Definition processFile (fid : nat) : M unit :=
  file <- readFile fid ;;
  if negb (String.eqb (extension file) "md") then ret tt else
  if isExcluded (path file) then ret tt else
  let wantArchive := shouldArchive file in
  let inArchive := isInArchive (path file) in
  if wantArchive && negb inArchive then
    (* ARCHIVE *)
    let t := buildArchiveTarget file in
    if dryRun settings then
      emit (ConsoleDebugArchive (path file) (full t)) ;;;
      when (showNotice settings)
           (emit (Notice (DryWouldArchive (path file)) 2500))
    else
      ensureFolderExists (dir t) ;;;
      dest <- resolveCollision (full t) ;;
      renameFile host fid dest ;;;
      when (showNotice settings) (emit (Notice (ArchivedTo dest) 2500))
  else if negb wantArchive && inArchive && unarchiveOnMissingAll settings then
    (* UNARCHIVE *)
    match buildUnarchiveTarget file with
    | None => ret tt
    | Some t =>
        if dryRun settings then
          emit (ConsoleDebugUnarchive (path file) (full t)) ;;;
          when (showNotice settings)
               (emit (Notice (DryWouldUnarchive (path file)) 2500))
        else
          when (nonEmpty (dir t)) (ensureFolderExists (dir t)) ;;;
          dest <- resolveCollision (full t) ;;
          renameFile host fid dest ;;;
          when (showNotice settings) (emit (Notice (UnarchivedTo dest) 2500))
    end
  else ret tt.

(** The loop of [scanAll] over the remaining files. *)
Fixpoint scanLoop (fs : list nat) (archived unarchived : nat)
  : M (nat * nat) :=
  match fs with
  | [] => ret (archived, unarchived)
  | f :: rest =>
      before <- readFile f ;;
      let wasInArchive := isInArchive (path before) in
      processFile f ;;;
      (* After rename, Obsidian updates TFile.path; re-check: *)
      after <- readFile f ;;
      let nowInArchive := isInArchive (path after) in
      scanLoop rest
        (if negb wasInArchive && nowInArchive then S archived else archived)
        (if wasInArchive && negb nowInArchive then S unarchived
         else unarchived)
  end.

Definition scanAll : M unit :=
  fs <- getMarkdownFiles ;;
  counts <- scanLoop fs 0%nat 0%nat ;;
  when (showNotice settings)
       (emit (Notice (ScanSummary (dryRun settings) (fst counts) (snd counts))
                     4000)).

(** The command "scan-and-archive": [this.scanAll().catch(this.reportError)] *)
Definition scanCommand : M unit := catch scanAll reportError.

(** The command "process-current-file" and the two event handlers:
    [this.processFile(file).catch(this.reportError)] *)
Definition processCommand (fid : nat) : M unit :=
  catch (processFile fid) reportError.

End Plugin.

(* ================================================================== *)
(** * Shapes of paths *)

(** [pathShape endFree nbspFree afterSlash s]: [s] has no backslash and no
    slash right after a slash ([afterSlash] says that a slash, or the start
    of a path that must not begin with one, precedes [s]).  Unless
    [endFree], [s] does not end in a slash and is not empty at the start;
    unless [nbspFree], [s] has no no-break space. *)
Fixpoint pathShape (endFree nbspFree afterSlash : bool) (s : string) : bool :=
  match s with
  | EmptyString => endFree || negb afterSlash
  | String c s' =>
      if isSlash c then
        negb afterSlash && pathShape endFree nbspFree true s'
      else
        negb (Ascii.eqb c backslash)
        && (nbspFree || negb (Ascii.eqb c nbsp))
        && pathShape endFree nbspFree false s'
  end.

(** The normal forms of [normalizePath] other than the vault root ["/"]:
    non-empty segments joined by single slashes. *)
Definition isNormalized (s : string) : bool := pathShape false false true s.

(* ================================================================== *)
(** * Vocabulary of the specification *)

(** [p] is [root] itself or lies below it: containment by whole segments. *)
Definition underRoot (p root : string) : Prop :=
  p = root \/ exists rest, p = root ++ "/" ++ rest.

(** The three ways a file can carry the raw tag [t]: an item of the
    frontmatter [tags] array, the frontmatter [tags] string itself, or an
    inline tag. *)
Definition carriesTag (file : TFile) (t : string) : Prop :=
  exists c, cache file = Some c
    /\ ((exists fm items, frontmatter c = Some fm
                          /\ getProp fm "tags" = JArr items
                          /\ In (JStr t) items)
        \/ (exists fm, frontmatter c = Some fm /\ getProp fm "tags" = JStr t)
        \/ (exists inline o, tagCache c = Some inline
                             /\ In (JObj o) inline
                             /\ getProp o "tag" = JStr t)).

(** The default settings with another archive root. *)
Definition settingsWithRoot (root : string) : AutoArchiverSettings :=
  {| propertyNames := propertyNames DEFAULT_SETTINGS;
     extraTruthyValues := extraTruthyValues DEFAULT_SETTINGS;
     tags := tags DEFAULT_SETTINGS;
     archiveRoot := root;
     excludedRoots := excludedRoots DEFAULT_SETTINGS;
     dryRun := dryRun DEFAULT_SETTINGS;
     showNotice := showNotice DEFAULT_SETTINGS;
     unarchiveOnMissingAll := unarchiveOnMissingAll DEFAULT_SETTINGS |}.

(** A note without metadata, and a note with frontmatter [Archived: true]. *)
Definition plainNote (p : string) : TFile :=
  {| path := p; extension := "md"; cache := None |}.

Definition archivedNote (p : string) : TFile :=
  {| path := p; extension := "md";
     cache := Some {| frontmatter := Some [("Archived", JBool true)];
                      tagCache := None |} |}.

(** The effects that change the store. *)
Definition isMutation (e : Effect) : bool :=
  match e with
  | CreateFolder _ | RenameFile _ _ => true
  | _ => false
  end.

(** A host that accepts everything, and one that refuses to move the file
    at [p]. *)
Definition agreeableHost : Host :=
  {| createFolderError := fun _ _ => None;
     renameFileError := fun _ _ _ => None |}.

Definition hostRefusing (p : string) : Host :=
  {| createFolderError := fun _ _ => None;
     renameFileError := fun _ f _ =>
       if String.eqb (path f) p then Some "EBUSY" else None |}.

(** A vault holding the given notes and nothing else. *)
Definition vaultOf (notes : list TFile) : Vault :=
  {| files := notes; entries := map path notes; trace := [] |}.

(** The cut the specification describes: base and extension meet at the
    last dot of the last path segment; a path with no such dot, or ending
    in a slash, has no extension. *)
Definition specSplitExt (p : string) : string * string :=
  let i := lastIndexOf p slash in
  let dot := lastIndexOf (sliceFrom p (i + 1)) "."%char in
  if (dot =? -1) || endsWithChar p slash then (p, "")
  else (slice p 0 (i + 1 + dot), sliceFrom p (i + 1 + dot)).

(** Characters that [normalizePath] neither moves nor rewrites. *)
Definition inertChar (c : ascii) : bool :=
  negb (isSlash c) && negb (Ascii.eqb c backslash) && negb (Ascii.eqb c nbsp).

Fixpoint inert (s : string) : bool :=
  match s with
  | EmptyString => true
  | String c s' => inertChar c && inert s'
  end.

(** Two notes marked [Archived: true], side by side at the vault root. *)
Definition twoMarkedNotes : Vault :=
  vaultOf [archivedNote "a.md"; archivedNote "b.md"].

(** An unmarked note two levels below the archive root, in a folder that
    is itself called [Archive]. *)
Definition nestedArchiveVault : Vault :=
  {| files := [plainNote "Archive/Archive/x.md"];
     entries := ["Archive"; "Archive/Archive"; "Archive/Archive/x.md"];
     trace := [] |}.

(* ================================================================== *)
(** * The settings tab: [AutoArchiverSettingTab.display] *)

Definition isComma (c : ascii) : bool := Ascii.eqb c ","%char.

(** [xs.join(sep)] *)
Fixpoint joinWith (sep : string) (xs : list string) : string :=
  match xs with
  | [] => ""
  | [x] => x
  | x :: rest => x ++ sep ++ joinWith sep rest
  end.

(** [v.split(",").map((s) => s.trim()).filter(Boolean)]: the [onChange] of
    "Frontmatter properties" and of "Extra truthy values". *)
Definition parseCommaList (v : string) : list string :=
  filter nonEmpty (map trim (splitOn isComma v)).

(** [v.split(",").map((s) => s.replace(/^#/, "").trim()).filter(Boolean)]:
    the [onChange] of "Tags that trigger archiving". *)
Definition parseTagList (v : string) : list string :=
  filter nonEmpty (map (fun s => trim (stripHash s)) (splitOn isComma v)).

(** [normalizePath(v.trim() || "Archive")]: the [onChange] of
    "Archive root". *)
Definition parseArchiveRoot (v : string) : string :=
  normalizePath (if nonEmpty (trim v) then trim v else "Archive").

(** [v.split(",").map((s) => normalizePath(s.trim())).filter(Boolean)]: the
    [onChange] of "Excluded roots". *)
Definition parseExcludedRoots (v : string) : list string :=
  filter nonEmpty (map (fun s => normalizePath (trim s)) (splitOn isComma v)).

(** The settings after the [onChange] of "Archive root", resp. of
    "Excluded roots", has run on the text [v]. *)
Definition withArchiveRoot (settings : AutoArchiverSettings) (v : string)
  : AutoArchiverSettings :=
  {| propertyNames := propertyNames settings;
     extraTruthyValues := extraTruthyValues settings;
     tags := tags settings;
     archiveRoot := parseArchiveRoot v;
     excludedRoots := excludedRoots settings;
     dryRun := dryRun settings;
     showNotice := showNotice settings;
     unarchiveOnMissingAll := unarchiveOnMissingAll settings |}.

Definition withExcludedRoots (settings : AutoArchiverSettings) (v : string)
  : AutoArchiverSettings :=
  {| propertyNames := propertyNames settings;
     extraTruthyValues := extraTruthyValues settings;
     tags := tags settings;
     archiveRoot := archiveRoot settings;
     excludedRoots := parseExcludedRoots v;
     dryRun := dryRun settings;
     showNotice := showNotice settings;
     unarchiveOnMissingAll := unarchiveOnMissingAll settings |}.

(** ** Vocabulary for the further properties *)

Fixpoint allChars (p : ascii -> bool) (s : string) : bool :=
  match s with
  | EmptyString => true
  | String c s' => p c && allChars p s'
  end.

Definition isDigit (c : ascii) : bool :=
  let n := nat_of_ascii c in ((48 <=? n) && (n <=? 57))%nat.

(** Whether the file object [i] of a vault sits inside the archive root. *)
Definition archivedIn (settings : AutoArchiverSettings) (v : Vault) (i : nat)
  : bool :=
  match nth_error (files v) i with
  | Some f => isInArchive settings (path f)
  | None => false
  end.

(** [s] is empty or begins with a character that [p] rejects. *)
Definition headKept (p : ascii -> bool) (s : string) : bool :=
  match s with
  | EmptyString => true
  | String c _ => negb (p c)
  end.

(** A host whose "Folder already exists" is true to the store. *)
Definition honestHost (host : Host) : Prop :=
  forall v p e,
    createFolderError host v p = Some e ->
    includes e "Folder already exists" = true ->
    arrayIncludes (entries v) p = true.

(** The tags [shouldArchive] collects from a file. *)
Definition fileTagSet (file : TFile) : list string :=
  tagSetOf
    match cache file with Some c => frontmatter c | None => None end
    match cache file with
    | Some c => match tagCache c with Some l => l | None => [] end
    | None => []
    end.

(** A file object as the host keeps it: the extension is the end of the
    name, after a dot. *)
Definition nameCarriesExtension (f : TFile) : Prop :=
  exists stem, path f = stem ++ "." ++ extension f.

(** [tok] is one of the pieces that [s.split(d+).filter(Boolean)] gives
    for a class [d] of delimiters: a run of characters that is not empty,
    holds no delimiter, begins at the start of [s] or right after a
    delimiter and ends at the end of [s] or right before a delimiter. *)
Definition isToken (d : ascii -> bool) (s tok : string) : Prop :=
  nonEmpty tok = true
  /\ allChars (fun c => negb (d c)) tok = true
  /\ exists pre post,
       s = pre ++ tok ++ post
       /\ (pre = "" \/ exists p c, pre = p ++ String c "" /\ d c = true)
       /\ (post = "" \/ exists c q, post = String c q /\ d c = true).

(** The raw tag an entry of the cache's inline tags stands for: its [tag]
    when that is a string; the empty string when the entry has no [tag]
    (it is [undefined] or [null], or the entry is no object).  An entry
    whose [tag] is anything else stands for no tag. *)
Definition inlineRaw (t : JsValue) (raw : string) : Prop :=
  (exists o, t = JObj o /\ getProp o "tag" = JStr raw)
  \/ (raw = ""
      /\ forall o, t = JObj o ->
                   getProp o "tag" = JUndefined \/ getProp o "tag" = JNull).

(** The raw tags of a file, read off its metadata: the pieces of a
    frontmatter [tags] string between commas and white space, the strings
    among the items of a frontmatter [tags] array, and what the inline
    entries stand for. *)
Definition hasRawTag (file : TFile) (raw : string) : Prop :=
  exists c, cache file = Some c
    /\ ((exists fm s, frontmatter c = Some fm
                      /\ getProp fm "tags" = JStr s
                      /\ isToken (fun c => isComma c || isWhiteSpace c)
                                 s raw)
        \/ (exists fm items, frontmatter c = Some fm
                             /\ getProp fm "tags" = JArr items
                             /\ In (JStr raw) items)
        \/ (exists inline t, tagCache c = Some inline
                             /\ In t inline
                             /\ inlineRaw t raw)).

(* ================================================================== *)
(** * Facts about strings *)

Section StringFacts.

Lemma append_empty_r (s : string) : s ++ "" = s.
Proof. induction s as [|c s IH]; simpl; [reflexivity | now rewrite IH]. Qed.

Lemma append_assoc (a b c : string) : (a ++ b) ++ c = a ++ (b ++ c).
Proof. induction a as [|x a IH]; simpl; [reflexivity | now rewrite IH]. Qed.

Lemma length_app (a b : string) :
  String.length (a ++ b) = (String.length a + String.length b)%nat.
Proof. induction a as [|x a IH]; simpl; [reflexivity | now rewrite IH]. Qed.

Lemma takeS_app (a b : string) : takeS (String.length a) (a ++ b) = a.
Proof. induction a as [|x a IH]; simpl; [now destruct b | now rewrite IH]. Qed.

Lemma takeS_all (a : string) : takeS (String.length a) a = a.
Proof. induction a as [|x a IH]; simpl; [reflexivity | now rewrite IH]. Qed.

Lemma dropS_app (a b : string) : dropS (String.length a) (a ++ b) = b.
Proof. induction a as [|x a IH]; simpl; [now destruct b | exact IH]. Qed.

Lemma length_dropS (n : nat) (s : string) :
  String.length (dropS n s) = (String.length s - n)%nat.
Proof.
  revert s; induction n as [|n IH]; intros [|c s]; simpl; auto.
Qed.

Lemma slice_prefix (a b : string) :
  slice (a ++ b) 0 (Z.of_nat (String.length a)) = a.
Proof.
  unfold slice, clampIndex. rewrite length_app.
  replace (0 <? 0) with false by reflexivity.
  destruct (Z.ltb_spec (Z.of_nat (String.length a)) 0) as [H|_]; [lia|].
  rewrite Z.min_l, Z.min_l by lia.
  rewrite Z.sub_0_r, Nat2Z.id. simpl. apply takeS_app.
Qed.

Lemma sliceFrom_suffix (a b : string) :
  sliceFrom (a ++ b) (Z.of_nat (String.length a)) = b.
Proof.
  unfold sliceFrom, slice, clampIndex. rewrite length_app.
  destruct (Z.ltb_spec (Z.of_nat (String.length a)) 0) as [H|_]; [lia|].
  destruct (Z.ltb_spec (Z.of_nat (String.length a + String.length b)) 0)
    as [H|_]; [lia|].
  rewrite Z.min_l, Z.min_l by lia.
  rewrite Nat2Z.id.
  replace (Z.to_nat (Z.of_nat (String.length a + String.length b)
                     - Z.of_nat (String.length a)))
    with (String.length b) by lia.
  rewrite dropS_app. apply takeS_all.
Qed.

Lemma sliceFrom_after (a b : string) (c : ascii) :
  sliceFrom (a ++ String c b) (Z.of_nat (String.length a) + 1) = b.
Proof.
  replace (a ++ String c b) with ((a ++ String c "") ++ b)
    by (rewrite append_assoc; reflexivity).
  replace (Z.of_nat (String.length a) + 1)
    with (Z.of_nat (String.length (a ++ String c "")))
    by (rewrite length_app; simpl; lia).
  apply sliceFrom_suffix.
Qed.

Lemma sliceFrom_after_slash (a b : string) :
  sliceFrom (a ++ "/" ++ b) (Z.of_nat (String.length a) + 1) = b.
Proof. exact (sliceFrom_after a b slash). Qed.

Lemma startsWith_app (a b : string) : startsWith (a ++ b) a = true.
Proof.
  induction a as [|x a IH]; simpl; [reflexivity|].
  now rewrite Ascii.eqb_refl, IH.
Qed.

Lemma startsWith_inv (s p : string) :
  startsWith s p = true -> exists rest, s = p ++ rest.
Proof.
  revert s; induction p as [|x p IH]; intros s H.
  - now exists s.
  - destruct s as [|y s]; simpl in H; [discriminate|].
    apply andb_true_iff in H as [Hxy Hp].
    apply Ascii.eqb_eq in Hxy; subst y.
    destruct (IH _ Hp) as [rest ->]. now exists rest.
Qed.

Lemma startsWith_iff (s p : string) :
  startsWith s p = true <-> exists rest, s = p ++ rest.
Proof.
  split; [apply startsWith_inv|].
  intros [rest ->]. apply startsWith_app.
Qed.

(** A raw prefix is not enough: the character after it decides. *)
Lemma startsWith_boundary (r rest : string) (c : ascii) :
  startsWith (r ++ String c rest) (r ++ "/") = Ascii.eqb slash c.
Proof.
  induction r as [|x r IH]; simpl.
  - now rewrite andb_true_r.
  - now rewrite Ascii.eqb_refl, IH.
Qed.

Lemma app_neq_self (r rest : string) (c : ascii) : r ++ String c rest <> r.
Proof.
  intros H. apply (f_equal String.length) in H.
  rewrite length_app in H. simpl in H. lia.
Qed.

Lemma lastIndexOf_range (s : string) (c : ascii) :
  -1 <= lastIndexOf s c < Z.of_nat (String.length s).
Proof.
  induction s as [|x s IH]; simpl String.length; cbn [lastIndexOf]; [lia|].
  destruct (Z.leb_spec 0 (lastIndexOf s c)); [lia|].
  destruct (Ascii.eqb x c); lia.
Qed.

(** Either the character is absent, or the string splits at its last
    occurrence. *)
Lemma lastIndexOf_split (s : string) (c : ascii) :
  lastIndexOf s c = -1
  \/ exists a b, s = a ++ String c b
                 /\ lastIndexOf s c = Z.of_nat (String.length a)
                 /\ lastIndexOf b c = -1.
Proof.
  induction s as [|x s IH]; [now left|].
  cbn [lastIndexOf].
  destruct IH as [Hnone | (a & b & Hs & Hi & Hb)].
  - rewrite Hnone. simpl.
    destruct (Ascii.eqb_spec x c) as [->|Hxc]; [right | now left].
    exists "", s. repeat split; assumption.
  - right. exists (String x a), b. rewrite Hi.
    destruct (Z.leb_spec 0 (Z.of_nat (String.length a))); [|lia].
    subst s. repeat split; [|assumption]. simpl String.length. lia.
Qed.

End StringFacts.

(* ================================================================== *)
(** * Normal forms of [normalizePath] *)

Section NormalForms.

Lemma isSep_false (c : ascii) :
  isSep c = false -> isSlash c = false /\ Ascii.eqb c backslash = false.
Proof. unfold isSep, isSlash. intros H. now apply orb_false_iff in H. Qed.

Lemma isSlash_true (c : ascii) : isSlash c = true -> c = slash.
Proof. unfold isSlash. apply Ascii.eqb_eq. Qed.

Lemma pathShape_weaken (e n b : bool) (s : string) :
  pathShape e n b s = true -> pathShape true true b s = true.
Proof.
  revert b; induction s as [|c s IH]; intros b H; [reflexivity|].
  cbn [pathShape] in *. destruct (isSlash c).
  - apply andb_true_iff in H as [-> H]. now rewrite (IH _ H).
  - apply andb_true_iff in H as [H1 H].
    apply andb_true_iff in H1 as [-> _]. now rewrite (IH _ H).
Qed.

(** ** Every result of [normalizePath] is ["/"] or a normal form *)

Lemma collapseSeps_shape (s : string) :
  pathShape true true false (collapseSeps s) = true.
Proof.
  induction s as [|c s IH]; [reflexivity|].
  cbn [collapseSeps]. destruct (isSep c) eqn:Hc.
  - destruct s as [|c' s']; [reflexivity|].
    destruct (isSep c') eqn:Hc'; [exact IH|].
    cbn [collapseSeps] in IH |- *. rewrite Hc' in IH |- *.
    destruct (isSep_false _ Hc') as [Hs Hb].
    cbn [pathShape] in IH |- *. rewrite Hs, Hb in IH |- *.
    exact IH.
  - destruct (isSep_false _ Hc) as [Hs Hb].
    cbn [pathShape]. rewrite Hs, Hb. exact IH.
Qed.

Lemma dropWhile_shape (b : bool) (s : string) :
  pathShape true true b s = true ->
  pathShape true true true (dropWhile isSlash s) = true.
Proof.
  revert b; induction s as [|c s IH]; intros b H; [reflexivity|].
  cbn [dropWhile]. destruct (isSlash c) eqn:Hc.
  - cbn [pathShape] in H. rewrite Hc in H.
    apply andb_true_iff in H as [_ H]. exact (IH _ H).
  - cbn [pathShape] in H |- *. rewrite Hc in H |- *. exact H.
Qed.

Lemma dropWhileEnd_shape (b : bool) (s : string) :
  pathShape true true b s = true ->
  dropWhileEnd isSlash s = ""
  \/ pathShape false true b (dropWhileEnd isSlash s) = true.
Proof.
  revert b; induction s as [|c s IH]; intros b H; [now left|].
  cbn [pathShape] in H. cbn [dropWhileEnd].
  destruct (isSlash c) eqn:Hc.
  - apply andb_true_iff in H as [Hb H].
    destruct (IH _ H) as [-> | IH']; [now left|].
    destruct (dropWhileEnd isSlash s) as [|x t] eqn:Et; [discriminate|].
    right. cbn [pathShape]. rewrite Hc, Hb. exact IH'.
  - apply andb_true_iff in H as [Hbs H].
    right. destruct (IH _ H) as [-> | IH'].
    + cbn [pathShape]. now rewrite Hc, Hbs.
    + destruct (dropWhileEnd isSlash s) as [|x t] eqn:Et.
      * cbn [pathShape]. now rewrite Hc, Hbs.
      * cbn [pathShape]. rewrite Hc, Hbs. exact IH'.
Qed.

Lemma unNbsp_facts (c : ascii) :
  isSlash (unNbsp c) = isSlash c
  /\ Ascii.eqb (unNbsp c) backslash = Ascii.eqb c backslash
  /\ Ascii.eqb (unNbsp c) nbsp = false.
Proof.
  unfold unNbsp. destruct (Ascii.eqb_spec c nbsp) as [->|Hn].
  - repeat split.
  - repeat split. now apply Ascii.eqb_neq.
Qed.

Lemma unNbsp_shape (b : bool) (s : string) :
  pathShape false true b s = true ->
  pathShape false false b (mapChars unNbsp s) = true.
Proof.
  revert b; induction s as [|c s IH]; intros b H; [exact H|].
  cbn [mapChars pathShape] in *.
  destruct (unNbsp_facts c) as (-> & -> & ->).
  destruct (isSlash c).
  - apply andb_true_iff in H as [-> H]. exact (IH _ H).
  - apply andb_true_iff in H as [H1 H].
    apply andb_true_iff in H1 as [-> _]. exact (IH _ H).
Qed.

Lemma normalizePath_shape (p : string) :
  normalizePath p = "/" \/ isNormalized (normalizePath p) = true.
Proof.
  unfold normalizePath, isNormalized.
  pose proof (dropWhile_shape _ _ (collapseSeps_shape p)) as H.
  apply dropWhileEnd_shape in H.
  destruct H as [-> | H]; [now left|].
  right.
  destruct (dropWhileEnd isSlash (dropWhile isSlash (collapseSeps p)))
    as [|c t]; [discriminate|].
  now apply unNbsp_shape.
Qed.

(** ** [normalizePath] fixes the normal forms *)

Lemma collapseSeps_id (b : bool) (s : string) :
  pathShape true true b s = true -> collapseSeps s = s.
Proof.
  revert b; induction s as [|c s IH]; intros b H; [reflexivity|].
  cbn [pathShape] in H. cbn [collapseSeps]. unfold isSep.
  destruct (isSlash c) eqn:Hc.
  - apply isSlash_true in Hc as ->. rewrite Ascii.eqb_refl. simpl orb.
    apply andb_true_iff in H as [_ H].
    destruct s as [|c' s']; [reflexivity|].
    pose proof (IH _ H) as IH'.
    cbn [pathShape] in H.
    destruct (isSlash c') eqn:Hc'; [discriminate|].
    apply andb_true_iff in H as [H1 _].
    apply andb_true_iff in H1 as [H1 _].
    unfold isSlash in Hc'. unfold isSep. rewrite Hc'.
    apply negb_true_iff in H1. rewrite H1. simpl orb.
    now rewrite IH'.
  - apply andb_true_iff in H as [H1 H].
    apply andb_true_iff in H1 as [H1 _].
    unfold isSlash in Hc. rewrite Hc.
    apply negb_true_iff in H1. rewrite H1. simpl orb.
    now rewrite (IH _ H).
Qed.

Lemma dropWhile_id (e n : bool) (s : string) :
  pathShape e n true s = true -> dropWhile isSlash s = s.
Proof.
  destruct s as [|c s]; [reflexivity|].
  cbn [pathShape dropWhile]. destruct (isSlash c); [discriminate | reflexivity].
Qed.

Lemma dropWhileEnd_id (n b : bool) (s : string) :
  pathShape false n b s = true -> dropWhileEnd isSlash s = s.
Proof.
  revert b; induction s as [|c s IH]; intros b H; [reflexivity|].
  cbn [pathShape] in H. cbn [dropWhileEnd].
  destruct (isSlash c) eqn:Hc.
  - apply andb_true_iff in H as [_ H]. rewrite (IH _ H).
    destruct s; [discriminate | reflexivity].
  - apply andb_true_iff in H as [_ H]. rewrite (IH _ H).
    destruct s; reflexivity.
Qed.

Lemma unNbsp_id (e b : bool) (s : string) :
  pathShape e false b s = true -> mapChars unNbsp s = s.
Proof.
  revert b; induction s as [|c s IH]; intros b H; [reflexivity|].
  cbn [pathShape] in H. cbn [mapChars].
  destruct (isSlash c) eqn:Hc.
  - apply andb_true_iff in H as [_ H]. rewrite (IH _ H).
    apply isSlash_true in Hc as ->. reflexivity.
  - apply andb_true_iff in H as [H1 H].
    apply andb_true_iff in H1 as [_ H1]. simpl in H1.
    apply negb_true_iff in H1. unfold unNbsp at 1. rewrite H1.
    now rewrite (IH _ H).
Qed.

Lemma normalizePath_id (s : string) :
  isNormalized s = true -> normalizePath s = s.
Proof.
  unfold isNormalized, normalizePath. intros H.
  rewrite (collapseSeps_id _ _ (pathShape_weaken _ _ _ _ H)).
  rewrite (dropWhile_id _ _ _ H), (dropWhileEnd_id _ _ _ H).
  destruct s as [|c s]; [discriminate|].
  exact (unNbsp_id _ _ _ H).
Qed.

Lemma normalizePath_idempotent (p : string) :
  normalizePath (normalizePath p) = normalizePath p.
Proof.
  destruct (normalizePath_shape p) as [-> | H]; [reflexivity|].
  now apply normalizePath_id.
Qed.

(** ** Joining and cutting normal forms at a slash *)

Lemma pathShape_join (g : bool) (a b : string) :
  pathShape false false g (a ++ String slash b)
  = pathShape false false g a && pathShape false false true b.
Proof.
  revert g; induction a as [|c a IH]; intros g.
  - cbn [append pathShape]. unfold isSlash. rewrite Ascii.eqb_refl.
    reflexivity.
  - cbn [append pathShape]. destruct (isSlash c).
    + rewrite IH. now rewrite andb_assoc.
    + rewrite IH. now rewrite !andb_assoc.
Qed.

Lemma isNormalized_join (a b : string) :
  isNormalized (a ++ "/" ++ b) = isNormalized a && isNormalized b.
Proof. apply pathShape_join. Qed.

Lemma stripTrailingSlashes_id (s : string) :
  isNormalized s = true -> stripTrailingSlashes s = s.
Proof. apply dropWhileEnd_id. Qed.

Lemma isNormalized_nonEmpty (s : string) :
  isNormalized s = true -> nonEmpty s = true.
Proof. destruct s; [discriminate | reflexivity]. Qed.

End NormalForms.

(* ================================================================== *)
(** * The target resolver on normal forms *)

Section Targets.

Variable settings : AutoArchiverSettings.

Lemma archiveRootPath_shape :
  archiveRootPath settings = ""
  \/ isNormalized (archiveRootPath settings) = true.
Proof.
  unfold archiveRootPath.
  destruct (normalizePath_shape (archiveRoot settings)) as [-> | H].
  - now left.
  - right. now rewrite (stripTrailingSlashes_id _ H).
Qed.

Lemma archiveRootPath_normal :
  archiveRootPath settings <> "" ->
  isNormalized (archiveRootPath settings) = true.
Proof. destruct archiveRootPath_shape; [contradiction | auto]. Qed.

(** How both builders cut a normal form into directory and file name. *)
Lemma split_normal (p : string) :
  isNormalized p = true ->
  lastIndexOf p slash = -1
  \/ exists a b,
       p = a ++ "/" ++ b
       /\ (lastIndexOf p slash =? -1) = false
       /\ slice p 0 (lastIndexOf p slash) = a
       /\ sliceFrom p (lastIndexOf p slash + 1) = b
       /\ isNormalized a = true /\ isNormalized b = true.
Proof.
  intros Hp.
  destruct (lastIndexOf_split p slash) as [H | (a & b & -> & Hi & _)];
    [now left | right].
  change (String slash b) with ("/" ++ b) in *.
  exists a, b. rewrite Hi.
  rewrite isNormalized_join in Hp. apply andb_true_iff in Hp as [Ha Hb].
  repeat split; auto.
  - apply Z.eqb_neq. lia.
  - apply slice_prefix.
  - apply sliceFrom_after.
Qed.

Lemma buildArchiveTarget_normal (file : TFile) :
  archiveRootPath settings <> "" ->
  isNormalized (normalizePath (path file)) = true ->
  full (buildArchiveTarget settings file)
  = archiveRootPath settings ++ "/" ++ normalizePath (path file).
Proof.
  intros Hroot Hp. apply archiveRootPath_normal in Hroot.
  unfold buildArchiveTarget. cbn [full].
  assert (Hjoin : normalizePath
                    (archiveRootPath settings ++ "/" ++ normalizePath (path file))
                  = archiveRootPath settings ++ "/" ++ normalizePath (path file)).
  { apply normalizePath_id. rewrite isNormalized_join. now rewrite Hroot, Hp. }
  destruct (split_normal _ Hp) as [Hi | (a & b & Hab & Hi & Ha & Hb & Na & Nb)].
  - rewrite Hi. cbn [Z.eqb nonEmpty Pos.eqb]. exact Hjoin.
  - rewrite Hi, Ha, Hb. rewrite (isNormalized_nonEmpty _ Na).
    rewrite Hab in Hjoin |- *.
    rewrite !append_assoc. exact Hjoin.
Qed.

Lemma isInArchive_under (rest : string) :
  archiveRootPath settings <> "" ->
  isNormalized rest = true ->
  isInArchive settings (archiveRootPath settings ++ "/" ++ rest) = true.
Proof.
  intros Hroot Hrest. apply archiveRootPath_normal in Hroot.
  unfold isInArchive. rewrite normalizePath_id.
  - replace (archiveRootPath settings ++ "/" ++ rest)
      with ((archiveRootPath settings ++ "/") ++ rest)
      by (rewrite append_assoc; reflexivity).
    rewrite startsWith_app. apply orb_true_r.
  - rewrite isNormalized_join. now rewrite Hroot, Hrest.
Qed.

Lemma buildArchiveTarget_dir (file : TFile) :
  archiveRootPath settings <> "" ->
  isNormalized (normalizePath (path file)) = true ->
  (String.length (normalizePath (dir (buildArchiveTarget settings file)))
   < String.length (full (buildArchiveTarget settings file)))%nat.
Proof.
  intros Hroot Hp.
  rewrite (buildArchiveTarget_normal file Hroot Hp).
  apply archiveRootPath_normal in Hroot.
  unfold buildArchiveTarget. cbn [dir]. rewrite normalizePath_idempotent.
  destruct (split_normal _ Hp) as [Hi | (a & b & Hab & Hi & Ha & Hb & Na & Nb)].
  - rewrite Hi. cbn [Z.eqb nonEmpty Pos.eqb].
    rewrite (normalizePath_id _ Hroot), !length_app.
    cbn [String.length]. lia.
  - rewrite Hi, Ha, (isNormalized_nonEmpty _ Na), Hab.
    rewrite normalizePath_id
      by (rewrite isNormalized_join; now rewrite Hroot, Na).
    rewrite !length_app. cbn [String.length]. lia.
Qed.

Lemma buildUnarchiveTarget_under (file : TFile) (rest : string) :
  archiveRootPath settings <> "" ->
  isNormalized rest = true ->
  normalizePath (path file) = archiveRootPath settings ++ "/" ++ rest ->
  exists d,
    buildUnarchiveTarget settings file = Some {| dir := d; full := rest |}
    /\ (d = ""
        \/ (normalizePath d = d
            /\ (String.length d < String.length rest)%nat)).
Proof.
  intros Hroot Hrest Hpath.
  pose proof (archiveRootPath_normal Hroot) as Nroot.
  unfold buildUnarchiveTarget. rewrite Hpath.
  rewrite (isInArchive_under _ Hroot Hrest). cbn [negb].
  destruct (String.eqb_spec (archiveRootPath settings ++ "/" ++ rest)
                            (archiveRootPath settings)) as [E|_].
  { exfalso. exact (app_neq_self _ _ _ E). }
  rewrite sliceFrom_after_slash.
  destruct (split_normal _ Hrest) as [Hi | (a & b & Hab & Hi & Ha & Hb & Na & Nb)].
  - rewrite Hi. cbn [Z.eqb nonEmpty Pos.eqb].
    rewrite (normalizePath_id _ Hrest). eauto.
  - rewrite Hi, Ha, Hb. rewrite (isNormalized_nonEmpty _ Na).
    rewrite (normalizePath_id _ Na), (isNormalized_nonEmpty _ Na).
    rewrite <- Hab, (normalizePath_id _ Hrest).
    exists a. split; [reflexivity | right].
    split; [now apply normalizePath_id|].
    rewrite Hab, !length_app. cbn [String.length]. lia.
Qed.

(** Every unarchive target comes from a path below the root. *)
Lemma buildUnarchiveTarget_inv (file : TFile) (t : Target) :
  archiveRootPath settings <> "" ->
  buildUnarchiveTarget settings file = Some t ->
  exists rest,
    isNormalized rest = true
    /\ normalizePath (path file) = archiveRootPath settings ++ "/" ++ rest.
Proof.
  intros Hroot Ht.
  pose proof (archiveRootPath_normal Hroot) as Nroot.
  unfold buildUnarchiveTarget in Ht.
  destruct (isInArchive settings (normalizePath (path file))) eqn:Hin;
    [|discriminate].
  cbn [negb] in Ht.
  destruct (String.eqb_spec (normalizePath (path file))
                            (archiveRootPath settings)) as [E|N];
    [discriminate|].
  unfold isInArchive in Hin. rewrite normalizePath_idempotent in Hin.
  apply orb_true_iff in Hin as [Hin | Hin].
  { apply String.eqb_eq in Hin. contradiction. }
  apply startsWith_inv in Hin as [rest Hrest].
  rewrite append_assoc in Hrest.
  exists rest. split; [|exact Hrest].
  destruct (normalizePath_shape (path file)) as [Hslash | Hnorm].
  - exfalso. rewrite Hslash in Hrest.
    apply (f_equal String.length) in Hrest.
    rewrite length_app in Hrest. cbn [String.length append] in Hrest.
    destruct (archiveRootPath settings); [discriminate Nroot|].
    cbn [String.length] in Hrest. lia.
  - rewrite Hrest, isNormalized_join in Hnorm.
    now apply andb_true_iff in Hnorm.
Qed.

End Targets.

(* ================================================================== *)
(** * Path symmetry and the root exclusion *)

Section Symmetry.

Variable settings : AutoArchiverSettings.





End Symmetry.

(** C3 (amended).  Path symmetry: for every archive root that is not empty
    after normalisation and every path whose normal form is not the vault
    root ["/"], the unarchive target of the archive target is the normal
    form of the path, hence the path itself when it is already normalised. *)
Theorem path_symmetry_roundtrip (settings : AutoArchiverSettings)
    (file moved : TFile) :
  archiveRootPath settings <> "" ->
  normalizePath (path file) <> "/" ->
  path moved = full (buildArchiveTarget settings file) ->
  option_map full (buildUnarchiveTarget settings moved)
  = Some (normalizePath (path file))
  /\ (normalizePath (path file) = path file ->
      option_map full (buildUnarchiveTarget settings moved)
      = Some (path file)).
Proof.
  intros Hroot Hp Hmoved.
  assert (Np : isNormalized (normalizePath (path file)) = true).
  { destruct (normalizePath_shape (path file)); [contradiction | assumption]. }
  rewrite (buildArchiveTarget_normal settings file Hroot Np) in Hmoved.
  assert (Nmoved : normalizePath (path moved) = path moved).
  { rewrite Hmoved. apply normalizePath_id. rewrite isNormalized_join.
    now rewrite (archiveRootPath_normal settings Hroot), Np. }
  rewrite <- Nmoved in Hmoved.
  destruct (buildUnarchiveTarget_under settings moved _ Hroot Np Hmoved)
    as (d & Hd & _).
  rewrite Hd. cbn [option_map full].
  split; [reflexivity | now intros ->].
Qed.

Lemma path_symmetry_roundtrip_witness :
  option_map full
    (buildUnarchiveTarget DEFAULT_SETTINGS
       (plainNote "Archive/Task/TASK-1234.md"))
  = Some "Task/TASK-1234.md".
Proof.
  apply (path_symmetry_roundtrip DEFAULT_SETTINGS
           (plainNote "Task/TASK-1234.md")
           (plainNote "Archive/Task/TASK-1234.md")).
  - vm_compute. discriminate.
  - vm_compute. discriminate.
  - reflexivity.
  - reflexivity.
Defined.

(** C3, as stated, fails when the archive root is the vault root: the
    archive target of [Task/a.md] is [Task/a.md] again, which is not
    under the (empty) root, so there is nothing to unarchive. *)
Lemma path_symmetry_fails_for_vault_root :
  full (buildArchiveTarget (settingsWithRoot "/") (plainNote "Task/a.md"))
  = "Task/a.md"
  /\ option_map full
       (buildUnarchiveTarget (settingsWithRoot "/")
          (plainNote
             (full (buildArchiveTarget (settingsWithRoot "/")
                      (plainNote "Task/a.md")))))
     <> Some "Task/a.md".
Proof. split; [reflexivity | vm_compute; discriminate]. Qed.

(* ================================================================== *)
(** * Containment by whole segments *)

Section Containment.

Variable settings : AutoArchiverSettings.

Lemma underRoot_test (p root : string) :
  String.eqb p root || startsWith p (root ++ "/") = true <-> underRoot p root.
Proof.
  unfold underRoot. rewrite orb_true_iff, String.eqb_eq, startsWith_iff.
  split; (intros [H | [rest H]]; [now left | right; exists rest]);
    rewrite H; [| symmetry]; apply append_assoc.
Qed.

Lemma isInArchive_iff (p : string) :
  isInArchive settings p = true
  <-> underRoot (normalizePath p) (archiveRootPath settings).
Proof. unfold isInArchive. apply underRoot_test. Qed.

Lemma isExcluded_iff (p : string) :
  isExcluded settings p = true
  <-> exists prefix,
        In prefix (excludedRoots settings)
        /\ underRoot (normalizePath p)
                     (stripTrailingSlashes (normalizePath prefix)).
Proof.
  unfold isExcluded.
  destruct (excludedRoots settings) as [|r rs] eqn:E.
  - cbn. split; [discriminate | now intros (x & [] & _)].
  - cbn [List.length Nat.eqb]. rewrite existsb_exists.
    split; intros (x & Hin & H); exists x; (split; [exact Hin|]);
      now apply underRoot_test.
Qed.

(** A path that continues the root with anything but a slash is neither
    the root nor below it. *)
Lemma underRoot_boundary (r rest : string) (c : ascii) :
  c <> slash -> ~ underRoot (r ++ String c rest) r.
Proof.
  intros Hc [H | [rest' H]].
  - exact (app_neq_self _ _ _ H).
  - assert (S : startsWith (r ++ String c rest) (r ++ "/") = true).
    { rewrite H. rewrite <- append_assoc. apply startsWith_app. }
    rewrite startsWith_boundary in S. apply Ascii.eqb_eq in S. now subst c.
Qed.

End Containment.

(** C10.  Containment in the archive root and in an excluded root goes by
    whole segments: after normalisation a path matches a root [r] (itself
    normalised and stripped of trailing slashes) iff it is [r] or starts
    with [r] followed by a slash; a raw string prefix is not enough.  So
    [Templates2/note.md] is not excluded by the root [Templates] and
    [Archives/x.md] is not inside the archive root [Archive]. *)
Theorem containment_is_segment_aware (settings : AutoArchiverSettings)
    (p : string) :
  (isInArchive settings p = true
   <-> underRoot (normalizePath p) (archiveRootPath settings))
  /\ (isExcluded settings p = true
      <-> exists prefix,
            In prefix (excludedRoots settings)
            /\ underRoot (normalizePath p)
                         (stripTrailingSlashes (normalizePath prefix)))
  /\ (forall (r rest : string) (c : ascii),
        c <> slash -> ~ underRoot (r ++ String c rest) r)
  /\ (excludedRoots settings = ["Templates"] ->
      isExcluded settings "Templates2/note.md" = false)
  /\ (archiveRoot settings = "Archive" ->
      isInArchive settings "Archives/x.md" = false).
Proof.
  split; [apply isInArchive_iff|].
  split; [apply isExcluded_iff|].
  split; [apply underRoot_boundary|].
  split.
  - intros E. unfold isExcluded. rewrite E. reflexivity.
  - intros E. unfold isInArchive, archiveRootPath. rewrite E. reflexivity.
Qed.

Lemma containment_is_segment_aware_witness :
  isExcluded
    {| propertyNames := []; extraTruthyValues := []; tags := [];
       archiveRoot := "Archive"; excludedRoots := ["Templates"];
       dryRun := false; showNotice := false;
       unarchiveOnMissingAll := true |} "Templates2/note.md" = false
  /\ isInArchive DEFAULT_SETTINGS "Archives/x.md" = false
  /\ ~ underRoot "Templates2/note.md" "Templates".
Proof.
  split; [|split].
  - apply (containment_is_segment_aware
             {| propertyNames := []; extraTruthyValues := []; tags := [];
                archiveRoot := "Archive"; excludedRoots := ["Templates"];
                dryRun := false; showNotice := false;
                unarchiveOnMissingAll := true |} ""). reflexivity.
  - apply (containment_is_segment_aware DEFAULT_SETTINGS ""). reflexivity.
  - apply (proj1 (proj2 (proj2
             (containment_is_segment_aware DEFAULT_SETTINGS "")))
             "Templates" "/note.md" "2"%char).
    discriminate.
Defined.

(* ================================================================== *)
(** * The classifier *)

Section NumbersAndSets.

(** [x === 1] holds for the number 1 only. *)
Lemma SFcompare_finite_eq (f : spec_float) (s : bool) (m : positive) (e : Z) :
  SFcompare f (S754_finite s m e) = Some Eq -> f = S754_finite s m e.
Proof.
  destruct f as [s'|s'| |s' m' e']; cbn [SFcompare].
  - destruct s; discriminate.
  - destruct s', s; discriminate.
  - discriminate.
  - destruct s', s; try discriminate;
      (destruct (Z.compare e' e) eqn:Ez; try discriminate;
       apply Z.compare_eq in Ez; subst e';
       rewrite ?Pos.compare_cont_spec; cbn [CompOpp];
       destruct (Pos.compare m' m) eqn:Em; try discriminate;
       apply Pos.compare_eq in Em; now subst m').
Qed.

Lemma number_is_one (x : float) :
  PrimFloat.eqb x 1%float = true <-> x = 1%float.
Proof.
  split; [|now intros ->].
  rewrite eqb_spec. unfold SFeqb. intros H.
  destruct (SFcompare (Prim2SF x) (Prim2SF 1)) as [[]|] eqn:E;
    try discriminate.
  assert (P1 : Prim2SF 1 = S754_finite false 4503599627370496 (-52))
    by (vm_compute; reflexivity).
  rewrite P1 in E. apply SFcompare_finite_eq in E.
  apply Prim2SF_inj. now rewrite P1.
Qed.

Lemma arrayIncludes_In (xs : list string) (x : string) :
  arrayIncludes xs x = true <-> In x xs.
Proof.
  unfold arrayIncludes. rewrite existsb_exists. split.
  - intros (y & Hin & E). apply String.eqb_eq in E. now subst y.
  - intros Hin. exists x. split; [exact Hin | apply String.eqb_refl].
Qed.

Lemma setAdd_In (x y : string) (s : list string) :
  In x (setAdd y s) <-> x = y \/ In x s.
Proof.
  unfold setAdd. destruct (arrayIncludes s y) eqn:E.
  - apply arrayIncludes_In in E. split; [now right|].
    intros [-> | H]; assumption.
  - rewrite in_app_iff. cbn [In]. intuition congruence.
Qed.

(** A loop that only ever adds to its accumulator keeps what is there... *)
Lemma fold_left_keeps {A : Type} (step : list string -> A -> list string) :
  (forall acc a x, In x acc -> In x (step acc a)) ->
  forall l acc x, In x acc -> In x (fold_left step l acc).
Proof.
  intros Hstep l. induction l as [|a l IH]; intros acc x H; [exact H|].
  cbn [fold_left]. apply IH, Hstep, H.
Qed.

(** ... and contains what one of its iterations adds. *)
Lemma fold_left_adds {A : Type} (step : list string -> A -> list string) :
  (forall acc a x, In x acc -> In x (step acc a)) ->
  forall l acc a x,
    In a l -> (forall acc', In x (step acc' a)) ->
    In x (fold_left step l acc).
Proof.
  intros Hstep l. induction l as [|b l IH]; intros acc a x Hin Hadd;
    [contradiction|].
  cbn [fold_left]. destruct Hin as [-> | Hin].
  - apply fold_left_keeps; [exact Hstep | apply Hadd].
  - now apply IH with (a := a).
Qed.

End NumbersAndSets.

Section Classifier.

Variable settings : AutoArchiverSettings.

Lemma isTruthy_string (s : string) :
  isTruthy settings (JStr s) = true
  <-> norm s = "true" \/ norm s = "1"
      \/ In (norm s) (map norm (extraTruthyValues settings)).
Proof.
  cbn [isTruthy].
  destruct (String.eqb_spec (norm s) "true") as [E1|N1]; [tauto|].
  destruct (String.eqb_spec (norm s) "1") as [E2|N2]; [tauto|].
  cbn [orb].
  destruct (arrayIncludes (map norm (extraTruthyValues settings)) (norm s))
    eqn:E.
  - apply arrayIncludes_In in E. tauto.
  - split; [discriminate|]. intros [H | [H | H]]; try contradiction.
    apply arrayIncludes_In in H. congruence.
Qed.

Lemma isTruthy_iff (v : JsValue) :
  isTruthy settings v = true
  <-> v = JBool true \/ v = JNum 1
      \/ exists s, v = JStr s
                   /\ (norm s = "true" \/ norm s = "1"
                       \/ In (norm s) (map norm (extraTruthyValues settings))).
Proof.
  destruct v as [| |b|x|s|items|props].
  1, 2, 6, 7:
    (split; [discriminate | intros [H | [H | (s & H & _)]]; discriminate]).
  - cbn [isTruthy]. split.
    + intros ->. now left.
    + intros [H | [H | (s & H & _)]]; try discriminate. now injection H.
  - cbn [isTruthy]. rewrite number_is_one. split.
    + intros ->. right. now left.
    + intros [H | [H | (s & H & _)]]; try discriminate. now injection H.
  - rewrite isTruthy_string. split.
    + intros H. right. right. now exists s.
    + intros [H | [H | (s' & H & H')]]; try discriminate.
      injection H as ->. exact H'.
Qed.

(** The tag loops only add to the set. *)
Lemma tagSetOf_inline (fm : option (list (string * JsValue)))
    (inline : list JsValue) (o : list (string * JsValue)) (t : string) :
  In (JObj o) inline -> getProp o "tag" = JStr t ->
  In (norm (stripHash t)) (tagSetOf fm inline).
Proof.
  intros Hin Htag. unfold tagSetOf.
  apply fold_left_adds with (a := JObj o); [| exact Hin |].
  - intros acc a x Hx.
    destruct (nullish match a with JObj o' => getProp o' "tag"
                              | _ => JUndefined end (JStr ""));
      try exact Hx.
    apply setAdd_In. now right.
  - intros acc'. rewrite Htag. cbn [nullish]. apply setAdd_In. now left.
Qed.

Lemma tagSetOf_keeps_frontmatter (fm : option (list (string * JsValue)))
    (inline : list JsValue) (x : string) :
  In x (tagSetOf fm []) -> In x (tagSetOf fm inline).
Proof.
  unfold tagSetOf. cbn [fold_left]. apply fold_left_keeps.
  intros acc a y Hy.
  destruct (nullish match a with JObj o' => getProp o' "tag"
                            | _ => JUndefined end (JStr ""));
    try exact Hy.
  apply setAdd_In. now right.
Qed.

Lemma tagSetOf_array (fm : list (string * JsValue)) (inline items : list JsValue)
    (t : string) :
  getProp fm "tags" = JArr items -> In (JStr t) items ->
  In (norm (stripHash t)) (tagSetOf (Some fm) inline).
Proof.
  intros Hfm Hin. apply tagSetOf_keeps_frontmatter.
  unfold tagSetOf. rewrite Hfm. cbn [fold_left].
  apply fold_left_adds with (a := JStr t); [| exact Hin |].
  - intros acc a x Hx. destruct a; try exact Hx.
    apply setAdd_In. now right.
  - intros acc'. apply setAdd_In. now left.
Qed.

Lemma tagSetOf_string (fm : list (string * JsValue)) (inline : list JsValue)
    (s tok : string) :
  getProp fm "tags" = JStr s -> In tok (fields isTagDelim s) ->
  In (norm (stripHash tok)) (tagSetOf (Some fm) inline).
Proof.
  intros Hfm Hin. apply tagSetOf_keeps_frontmatter.
  unfold tagSetOf. rewrite Hfm. cbn [fold_left].
  apply fold_left_adds with (a := tok); [| exact Hin |].
  - intros acc a x Hx. apply setAdd_In. now right.
  - intros acc'. apply setAdd_In. now left.
Qed.

(** One tag of the file among the configured ones is enough. *)
Lemma shouldArchive_by_tag (file : TFile) (x trigger : string) :
  In trigger (tags settings) ->
  norm (stripHash trigger) = x ->
  In x (tagSetOf
          match cache file with Some c => frontmatter c | None => None end
          match cache file with
          | Some c => match tagCache c with Some l => l | None => [] end
          | None => []
          end) ->
  shouldArchive settings file = true.
Proof.
  intros Htrig Hnorm Hx. unfold shouldArchive.
  match goal with |- (if ?b then _ else _) = _ => destruct b end;
    [reflexivity|].
  destruct (tags settings) as [|t0 ts] eqn:Et; [contradiction|].
  cbn [List.length Nat.eqb negb]. rewrite <- Et in Htrig |- *.
  apply existsb_exists. exists x. split; [exact Hx|].
  apply arrayIncludes_In. subst x.
  apply fold_left_adds with (a := trigger); [| exact Htrig |].
  - intros acc a y Hy. apply setAdd_In. now right.
  - intros acc'. apply setAdd_In. now left.
Qed.

End Classifier.

(** C6 (amended).  [isTruthy] is true exactly for the boolean [true], the
    number 1, and the strings whose trimmed and lower-cased form is
    ["true"], ["1"] or the trimmed and lower-cased form of a configured
    extra value; everything else (absent, null, object, array, [false],
    other numbers) is false.  The examples of the spec follow. *)
Theorem isTruthy_exact (settings : AutoArchiverSettings) (v : JsValue) :
  (isTruthy settings v = true
   <-> v = JBool true \/ v = JNum 1
       \/ exists s, v = JStr s
                    /\ (norm s = "true" \/ norm s = "1"
                        \/ In (norm s)
                              (map norm (extraTruthyValues settings))))
  /\ isTruthy settings (JBool true) = true
  /\ isTruthy settings (JNum 1) = true
  /\ isTruthy settings (JNum 2) = false
  /\ isTruthy settings (JStr "TRUE") = true
  /\ (isTruthy settings (JStr "yes") = true
      <-> In "yes" (map norm (extraTruthyValues settings)))
  /\ (~ In "no" (map norm (extraTruthyValues settings)) ->
      isTruthy settings (JStr "no") = false).
Proof.
  split; [apply isTruthy_iff|].
  repeat split; try reflexivity.
  - intros H. apply isTruthy_string in H.
    destruct H as [H | [H | H]]; [discriminate H | discriminate H | exact H].
  - intros H. apply isTruthy_string. right. right. exact H.
  - intros H. destruct (isTruthy settings (JStr "no")) eqn:E; [|reflexivity].
    apply isTruthy_string in E.
    destruct E as [E | [E | E]]; [discriminate E | discriminate E |].
    now contradiction H.
Qed.

Lemma isTruthy_exact_witness :
  isTruthy DEFAULT_SETTINGS (JStr "no") = false
  /\ isTruthy DEFAULT_SETTINGS (JStr "yes") = true.
Proof.
  split.
  - apply (isTruthy_exact DEFAULT_SETTINGS JNull).
    vm_compute. intuition discriminate.
  - apply (isTruthy_exact DEFAULT_SETTINGS JNull).
    vm_compute. tauto.
Defined.

(** C6, as stated, fails on a padded string: [" true "] is truthy although
    its case-folded form is none of the listed strings; the source trims
    before it folds. *)
Lemma isTruthy_trims_padded_string :
  isTruthy DEFAULT_SETTINGS (JStr " true ") = true
  /\ toLowerCase " true " <> "true"
  /\ toLowerCase " true " <> "1"
  /\ ~ In (toLowerCase " true ")
          (map toLowerCase (extraTruthyValues DEFAULT_SETTINGS)).
Proof.
  repeat split; try discriminate.
  vm_compute. intuition discriminate.
Qed.

(** C9.  The tags ["#Archived"], ["archived"] and [" Archived "] normalise
    (leading [#] stripped, trimmed, lower-cased) to the same token
    ["archived"], and a file carrying any one of them, in the frontmatter
    or inline, is classified as to be archived whenever the configured
    tags contain ["archived"]. *)
Theorem tag_normalization_triggers (settings : AutoArchiverSettings)
    (file : TFile) (t : string) :
  In t ["#Archived"; "archived"; " Archived "] ->
  In "archived" (tags settings) ->
  carriesTag file t ->
  norm (stripHash t) = "archived" /\ shouldArchive settings file = true.
Proof.
  intros Ht Hcfg (c & Hc & Hcarry).
  assert (Hn : norm (stripHash t) = "archived").
  { destruct Ht as [<- | [<- | [<- | []]]]; reflexivity. }
  split; [exact Hn|].
  apply shouldArchive_by_tag with (x := "archived") (trigger := "archived");
    [exact Hcfg | reflexivity |].
  rewrite Hc, <- Hn.
  destruct Hcarry as [(fm & items & Hfm & Htags & Hin)
                     | [(fm & Hfm & Htags) | (inline & o & Hi & Hin & Htag)]].
  - rewrite Hfm. now apply tagSetOf_array with (items := items).
  - rewrite Hfm. rewrite Hn.
    assert (Htok : exists tok, In tok (fields isTagDelim t)
                               /\ norm (stripHash tok) = "archived").
    { destruct Ht as [<- | [<- | [<- | []]]].
      - exists "#Archived". split; [now left | reflexivity].
      - exists "archived". split; [now left | reflexivity].
      - exists "Archived". split; [now left | reflexivity]. }
    destruct Htok as (tok & Htok & <-).
    now apply tagSetOf_string with (s := t).
  - rewrite Hi. now apply tagSetOf_inline with (o := o).
Qed.

Lemma tag_normalization_triggers_witness :
  shouldArchive DEFAULT_SETTINGS
    {| path := "Task/a.md"; extension := "md";
       cache := Some {| frontmatter := None;
                        tagCache := Some [JObj [("tag", JStr "#Archived")]] |} |}
  = true.
Proof.
  apply (tag_normalization_triggers DEFAULT_SETTINGS
           {| path := "Task/a.md"; extension := "md";
              cache := Some {| frontmatter := None;
                               tagCache :=
                                 Some [JObj [("tag", JStr "#Archived")]] |} |}
           "#Archived").
  - simpl. tauto.
  - simpl. tauto.
  - eexists. split; [reflexivity|]. right. right.
    exists [JObj [("tag", JStr "#Archived")]], [("tag", JStr "#Archived")].
    repeat split. simpl. tauto.
Defined.

(* ================================================================== *)
(** * The orchestrator *)

Section Orchestrator.

Variable host : Host.
Variable fuel : nat.
Variable settings : AutoArchiverSettings.

Lemma bind_Ok_inv {A B : Type} (m : M A) (k : A -> M B) (v v2 : Vault) (b : B) :
  bind m k v = Ok b v2 -> exists a v1, m v = Ok a v1 /\ k a v1 = Ok b v2.
Proof.
  unfold bind. destruct (m v) as [a v1| |]; try discriminate.
  intros H. now exists a, v1.
Qed.

Lemma bind_Throw {A B : Type} (m : M A) (k : A -> M B) (v v1 : Vault)
    (e : string) :
  m v = Throw e v1 -> bind m k v = Throw e v1.
Proof. unfold bind. now intros ->. Qed.

Lemma bind_Ok {A B : Type} (m : M A) (k : A -> M B) (v v1 : Vault) (a : A) :
  m v = Ok a v1 -> bind m k v = k a v1.
Proof. unfold bind. now intros ->. Qed.

(** The classification reads the metadata only, not the path. *)
Lemma shouldArchive_cache (f g : TFile) :
  cache f = cache g -> shouldArchive settings f = shouldArchive settings g.
Proof. unfold shouldArchive. now intros ->. Qed.

(** The first two guards of [processFile]. *)
Lemma processFile_skips (fid : nat) (file : TFile) (v : Vault) :
  nth_error (files v) fid = Some file ->
  extension file <> "md" \/ isExcluded settings (path file) = true ->
  processFile host fuel settings fid v = Ok tt v.
Proof.
  intros Hf Hskip. unfold processFile.
  rewrite (bind_Ok (readFile fid) _ v v file);
    [| unfold readFile; now rewrite Hf].
  destruct (String.eqb_spec (extension file) "md") as [E|N]; [|reflexivity].
  destruct Hskip as [N | ->]; [contradiction | reflexivity].
Qed.

(** A file whose classification agrees with its side of the archive root
    is left alone. *)
Lemma processFile_settled (fid : nat) (file : TFile) (v : Vault) :
  nth_error (files v) fid = Some file ->
  shouldArchive settings file = isInArchive settings (path file) ->
  processFile host fuel settings fid v = Ok tt v.
Proof.
  intros Hf Hsame. unfold processFile.
  rewrite (bind_Ok (readFile fid) _ v v file);
    [| unfold readFile; now rewrite Hf].
  destruct (negb (extension file =? "md")%string); [reflexivity|].
  destruct (isExcluded settings (path file)); [reflexivity|].
  rewrite Hsame.
  now destruct (isInArchive settings (path file)).
Qed.


End Orchestrator.

(** C5.  A document that is not markdown, or whose path lies under one of
    the excluded roots, is never touched by [processFile], whatever its
    metadata and tags say: no move, no folder, no notice. *)
Theorem excluded_or_foreign_left_alone (host : Host) (fuel : nat)
    (settings : AutoArchiverSettings) (fid : nat) (file : TFile) (v : Vault) :
  nth_error (files v) fid = Some file ->
  (extension file <> "md"
   \/ exists prefix,
        In prefix (excludedRoots settings)
        /\ underRoot (normalizePath (path file))
                     (stripTrailingSlashes (normalizePath prefix))) ->
  processFile host fuel settings fid v = Ok tt v.
Proof.
  intros Hf [Hext | Hex].
  - apply processFile_skips with (file := file); auto.
  - apply processFile_skips with (file := file); [exact Hf | right].
    now apply isExcluded_iff.
Qed.

Lemma excluded_or_foreign_left_alone_witness :
  processFile agreeableHost 0
    {| propertyNames := ["Archived"]; extraTruthyValues := []; tags := [];
       archiveRoot := "Archive"; excludedRoots := ["Templates"];
       dryRun := false; showNotice := true; unarchiveOnMissingAll := true |}
    0 (vaultOf [archivedNote "Templates/weekly.md"])
  = Ok tt (vaultOf [archivedNote "Templates/weekly.md"]).
Proof.
  apply (excluded_or_foreign_left_alone agreeableHost 0 _ 0
           (archivedNote "Templates/weekly.md")).
  - reflexivity.
  - right. exists "Templates". split; [simpl; tauto|].
    right. exists "weekly.md". reflexivity.
Defined.




(* ================================================================== *)
(** * Dry run *)

(** In a dry run the store is out of reach. *)
Lemma processFile_dry_run_frame (host : Host) (fuel : nat)
    (settings : AutoArchiverSettings) (fid : nat) (file : TFile) (v : Vault) :
  nth_error (files v) fid = Some file ->
  dryRun settings = true ->
  exists v',
    processFile host fuel settings fid v = Ok tt v'
    /\ files v' = files v
    /\ entries v' = entries v
    /\ filter isMutation (trace v') = filter isMutation (trace v).
Proof.
  intros Hf Hdry. unfold processFile.
  rewrite (bind_Ok (readFile fid) _ v v file);
    [| unfold readFile; now rewrite Hf].
  rewrite Hdry.
  destruct (negb (extension file =? "md")%string);
    [exists v; repeat split|].
  destruct (isExcluded settings (path file)); [exists v; repeat split|].
  destruct (shouldArchive settings file);
    destruct (isInArchive settings (path file)); cbn [negb andb];
    try (exists v; repeat split; fail).
  - unfold bind, emit, when, ret.
    destruct (showNotice settings); eexists; (split; [reflexivity|]);
      cbn [files entries trace]; repeat split;
      rewrite !filter_app; cbn; now rewrite ?app_nil_r.
  - destruct (unarchiveOnMissingAll settings); [|exists v; repeat split].
    destruct (buildUnarchiveTarget settings file); [|exists v; repeat split].
    unfold bind, emit, when, ret.
    destruct (showNotice settings); eexists; (split; [reflexivity|]);
      cbn [files entries trace]; repeat split;
      rewrite !filter_app; cbn; now rewrite ?app_nil_r.
Qed.

(** C8.  With the dry-run flag set, [processFile] only reports: the files,
    the existing paths and the store-changing effects are as before, so
    every existence check sees the same store.  When a transition is
    warranted the report is the debug line with the computed target (and a
    notice if notices are on), and nothing else. *)
Theorem dry_run_mutates_nothing (host : Host) (fuel : nat)
    (settings : AutoArchiverSettings) (fid : nat) (file : TFile) (v : Vault) :
  nth_error (files v) fid = Some file ->
  dryRun settings = true ->
  exists v',
    processFile host fuel settings fid v = Ok tt v'
    /\ files v' = files v
    /\ entries v' = entries v
    /\ filter isMutation (trace v') = filter isMutation (trace v)
    /\ (extension file = "md" ->
        isExcluded settings (path file) = false ->
        shouldArchive settings file = true ->
        isInArchive settings (path file) = false ->
        trace v'
        = (trace v
           ++ ConsoleDebugArchive (path file)
                (full (buildArchiveTarget settings file))
           :: (if showNotice settings
               then [Notice (DryWouldArchive (path file)) 2500] else []))%list)
    /\ (forall t,
          extension file = "md" ->
          isExcluded settings (path file) = false ->
          shouldArchive settings file = false ->
          isInArchive settings (path file) = true ->
          unarchiveOnMissingAll settings = true ->
          buildUnarchiveTarget settings file = Some t ->
          trace v'
          = (trace v
             ++ ConsoleDebugUnarchive (path file) (full t)
             :: (if showNotice settings
                 then [Notice (DryWouldUnarchive (path file)) 2500]
                 else []))%list).
Proof.
  intros Hf Hdry. unfold processFile.
  rewrite (bind_Ok (readFile fid) _ v v file);
    [| unfold readFile; now rewrite Hf].
  rewrite Hdry.
  destruct (String.eqb_spec (extension file) "md") as [Emd|Nmd]; cbn [negb].
  2: { exists v. repeat split; intros; congruence. }
  destruct (isExcluded settings (path file)) eqn:Eex.
  { exists v. repeat split; intros; congruence. }
  destruct (shouldArchive settings file) eqn:Ewant;
    destruct (isInArchive settings (path file)) eqn:Ein; cbn [negb andb].
  - exists v. repeat split; intros; congruence.
  - destruct (showNotice settings);
      (eexists; split; [reflexivity|]; cbn [files entries trace];
       repeat split; try (intros; congruence);
       try (rewrite !filter_app; cbn; now rewrite ?app_nil_r);
       intros; now rewrite <- ?app_assoc).
  - destruct (unarchiveOnMissingAll settings) eqn:Eun.
    2: { exists v. repeat split; intros; congruence. }
    destruct (buildUnarchiveTarget settings file) as [t0|] eqn:Et.
    2: { exists v. repeat split; intros; congruence. }
    destruct (showNotice settings);
      (eexists; split; [reflexivity|]; cbn [files entries trace];
       repeat split; try (intros; congruence);
       try (rewrite !filter_app; cbn; now rewrite ?app_nil_r);
       intros t _ _ _ _ _ Ht; injection Ht as <-;
       now rewrite <- ?app_assoc).
  - exists v. repeat split; intros; congruence.
Qed.


Lemma dry_run_mutates_nothing_witness :
  processFile agreeableHost 0
    {| propertyNames := ["Archived"]; extraTruthyValues := []; tags := [];
       archiveRoot := "Archive"; excludedRoots := [];
       dryRun := true; showNotice := false; unarchiveOnMissingAll := true |}
    0 (vaultOf [archivedNote "Task/TASK-1234.md"])
  = Ok tt
      {| files := [archivedNote "Task/TASK-1234.md"];
         entries := ["Task/TASK-1234.md"];
         trace := [ConsoleDebugArchive "Task/TASK-1234.md"
                     "Archive/Task/TASK-1234.md"] |}.
Proof.
  destruct (dry_run_mutates_nothing agreeableHost 0
              {| propertyNames := ["Archived"]; extraTruthyValues := [];
                 tags := []; archiveRoot := "Archive"; excludedRoots := [];
                 dryRun := true; showNotice := false;
                 unarchiveOnMissingAll := true |}
              0 (archivedNote "Task/TASK-1234.md")
              (vaultOf [archivedNote "Task/TASK-1234.md"])
              eq_refl eq_refl)
    as (v' & Hrun & Hfiles & Hentries & _ & Htrace & _).
  rewrite Hrun. destruct v' as [fs es tr]. cbn [files entries trace] in *.
  rewrite Hfiles, Hentries, (Htrace eq_refl eq_refl eq_refl eq_refl).
  reflexivity.
Defined.

(* ================================================================== *)
(** * The collision resolver *)

Section Collisions.

Lemma pathShape_flag (e n g : bool) (s : string) :
  pathShape e n g s = true -> pathShape e n false s = true.
Proof.
  destruct g; [|auto]. destruct s as [|c s]; cbn [pathShape].
  - now rewrite orb_true_r.
  - destruct (isSlash c); [discriminate | auto].
Qed.

Lemma pathShape_inert_prefix (m b : string) :
  inert m = true ->
  pathShape false false false b = true ->
  pathShape false false false (m ++ b) = true.
Proof.
  induction m as [|c m IH]; intros Hm Hb; [exact Hb|].
  cbn [inert] in Hm. apply andb_true_iff in Hm as [Hc Hm].
  unfold inertChar in Hc. apply andb_true_iff in Hc as [Hc Hn].
  apply andb_true_iff in Hc as [Hs Hbs].
  cbn [append pathShape]. apply negb_true_iff in Hs. rewrite Hs, Hbs, Hn.
  now apply IH.
Qed.

(** Inserting inert text into a normal form leaves a normal form. *)
Lemma pathShape_insert (g : bool) (a m b : string) :
  inert m = true -> nonEmpty m = true ->
  pathShape false false g (a ++ b) = true ->
  pathShape false false g (a ++ m ++ b) = true.
Proof.
  intros Hm Hne. revert g. induction a as [|x a IH]; intros g H.
  - cbn [append] in *. destruct m as [|c m]; [discriminate|].
    cbn [inert] in Hm. apply andb_true_iff in Hm as [Hc Hm].
    unfold inertChar in Hc. apply andb_true_iff in Hc as [Hc Hn].
    apply andb_true_iff in Hc as [Hs Hbs].
    cbn [append pathShape]. apply negb_true_iff in Hs. rewrite Hs, Hbs, Hn.
    apply pathShape_inert_prefix; [exact Hm|].
    now apply pathShape_flag with (g := g).
  - cbn [append pathShape] in *. destruct (isSlash x).
    + apply andb_true_iff in H as [-> H]. now apply IH.
    + apply andb_true_iff in H as [-> H]. now apply IH.
Qed.

Lemma inert_app (a b : string) : inert (a ++ b) = inert a && inert b.
Proof.
  induction a as [|c a IH]; [reflexivity|].
  cbn [append inert]. now rewrite IH, andb_assoc.
Qed.

Lemma inert_digits (d : Decimal.uint) :
  inert (NilEmpty.string_of_uint d) = true.
Proof. induction d; cbn [NilEmpty.string_of_uint inert]; auto. Qed.

Lemma inert_suffix (i : nat) : inert (" (" ++ showNat i ++ ")") = true.
Proof.
  cbn [append inert]. rewrite inert_app. unfold showNat.
  now rewrite inert_digits.
Qed.

Lemma candidate_normal (a b : string) (i : nat) :
  isNormalized (a ++ b) = true ->
  normalizePath (candidate a b i) = candidate a b i.
Proof.
  intros H. apply normalizePath_id. unfold candidate, isNormalized.
  replace (a ++ " (" ++ showNat i ++ ")" ++ b)
    with (a ++ (" (" ++ showNat i ++ ")") ++ b).
  - apply pathShape_insert; [apply inert_suffix | reflexivity | exact H].
  - cbn [append]. now rewrite append_assoc.
Qed.

(** [splitExt] cuts at the last dot of the whole path. *)
Lemma splitExt_cut (t : string) :
  (lastIndexOf t "."%char = -1 \/ endsWithChar t slash = true ->
   splitExt t = (t, ""))
  /\ (lastIndexOf t "."%char <> -1 -> endsWithChar t slash = false ->
      exists stem rest,
        t = stem ++ "." ++ rest
        /\ lastIndexOf rest "."%char = -1
        /\ splitExt t = (stem, "." ++ rest)).
Proof.
  unfold splitExt. split.
  - intros [-> | ->]; [reflexivity|].
    now rewrite andb_false_r.
  - intros Hdot Hend. rewrite Hend.
    destruct (lastIndexOf_split t "."%char) as [H | (a & b & -> & Hi & Hb)];
      [contradiction|].
    exists a, b. repeat split; [exact Hb|].
    rewrite Hi.
    destruct (Z.eqb_spec (Z.of_nat (String.length a)) (-1)) as [E|_]; [lia|].
    cbn [negb andb]. now rewrite slice_prefix, sliceFrom_suffix.
Qed.

Lemma splitExt_parts (t : string) :
  fst (splitExt t) ++ snd (splitExt t) = t.
Proof.
  destruct (splitExt_cut t) as [Hnone Hsome].
  destruct (Z.eq_dec (lastIndexOf t "."%char) (-1)) as [E|N].
  { rewrite Hnone by now left. apply append_empty_r. }
  destruct (endsWithChar t slash) eqn:Hend.
  { rewrite Hnone by now right. apply append_empty_r. }
  destruct (Hsome N eq_refl) as (a & b & Ht & _ & ->).
  now rewrite Ht.
Qed.

Variable v : Vault.
Variables base ext : string.

(** The loop returns the first free candidate, if the fuel reaches it. *)
Lemma probe_first_free (n fuel i : nat) :
  (i <= n)%nat -> (n - i < fuel)%nat ->
  (forall k, (i <= k < n)%nat ->
     arrayIncludes (entries v) (normalizePath (candidate base ext k)) = true) ->
  arrayIncludes (entries v) (normalizePath (candidate base ext n)) = false ->
  probe fuel base ext i v = Ok (normalizePath (candidate base ext n)) v.
Proof.
  revert i. induction fuel as [|fuel IH]; intros i Hle Hfuel Htaken Hfree;
    [lia|].
  cbn [probe]. unfold bind, adapterExists.
  destruct (Nat.eq_dec i n) as [->|Hne].
  - now rewrite Hfree.
  - rewrite Htaken by lia. apply IH; try lia; [|exact Hfree].
    intros k Hk. apply Htaken. lia.
Qed.

End Collisions.

Lemma normal_form_end (n g : bool) (s : string) :
  pathShape false n g s = true -> endsWithChar s slash = false.
Proof.
  revert g; induction s as [|c s IH]; intros g H; [reflexivity|].
  cbn [pathShape] in H. cbn [endsWithChar].
  destruct (isSlash c) eqn:Hc.
  - apply andb_true_iff in H as [_ H].
    destruct s; [discriminate | exact (IH _ H)].
  - apply andb_true_iff in H as [_ H].
    destruct s; [exact Hc | exact (IH _ H)].
Qed.


(* ================================================================== *)
(** * The batch scan *)

Section Scan.

Variable host : Host.
Variable fuel : nat.
Variable settings : AutoArchiverSettings.

Lemma scanLoop_app (l1 l2 : list nat) (a u : nat) (v : Vault) :
  scanLoop host fuel settings (l1 ++ l2) a u v
  = match scanLoop host fuel settings l1 a u v with
    | Ok c v1 => scanLoop host fuel settings l2 (fst c) (snd c) v1
    | Throw e v1 => Throw e v1
    | Diverge => Diverge
    end.
Proof.
  revert a u v. induction l1 as [|f l1 IH]; intros a u v; [reflexivity|].
  cbn [scanLoop app]. unfold bind.
  destruct (readFile f v) as [before v0| |]; try reflexivity.
  destruct (processFile host fuel settings f v0) as [[] v1| |];
    try reflexivity.
  destruct (readFile f v1) as [after v2| |]; try reflexivity.
  apply IH.
Qed.

(** A rejection inside [processFile] leaves the loop at once. *)
Lemma scanLoop_Throw (f : nat) (rest : list nat) (a u : nat) (v v' : Vault)
    (e : string) :
  processFile host fuel settings f v = Throw e v' ->
  scanLoop host fuel settings (f :: rest) a u v = Throw e v'.
Proof.
  intros H. cbn [scanLoop]. unfold bind at 1.
  destruct (readFile f v) as [before v0|e0 v0|] eqn:Hread.
  - unfold readFile in Hread.
    destruct (nth_error (files v) f); [|discriminate].
    injection Hread as <- <-. now apply bind_Throw.
  - unfold processFile in H. rewrite (bind_Throw _ _ _ _ _ Hread) in H.
    now injection H as -> ->.
  - unfold readFile in Hread.
    destruct (nth_error (files v) f); discriminate.
Qed.

Lemma scanAll_unfold (v : Vault) :
  scanAll host fuel settings v
  = match scanLoop host fuel settings (mdIndices 0 (files v)) 0 0 v with
    | Ok c v1 =>
        when (showNotice settings)
          (emit (Notice (ScanSummary (dryRun settings) (fst c) (snd c)) 4000))
          v1
    | Throw e v1 => Throw e v1
    | Diverge => Diverge
    end.
Proof. reflexivity. Qed.

End Scan.

(** ** What a rejected [processFile] leaves behind *)

Section Rejections.

Variable host : Host.
Variable fuel : nat.
Variable settings : AutoArchiverSettings.

(** The file objects an outcome carries, if it carries a vault. *)
Lemma ensureParts_files (parts : list string) (acc : string) (v : Vault) :
  match ensureParts host parts acc v with
  | Ok _ v' | Throw _ v' => files v' = files v
  | Diverge => True
  end.
Proof.
  revert acc v. induction parts as [|part rest IH]; intros acc v;
    [reflexivity|].
  cbn [ensureParts]. unfold bind at 1. unfold adapterExists at 1.
  unfold bind at 1.
  set (acc' := if nonEmpty acc then acc ++ "/" ++ part else part).
  assert (Hstep :
    match when (negb (arrayIncludes (entries v) (normalizePath acc')))
               (catch (createFolder host (normalizePath acc'))
                  (fun e => if includes e "Folder already exists"
                            then ret tt else Throw e)) v with
    | Ok _ v' | Throw _ v' => files v' = files v
    | Diverge => True
    end).
  { unfold when.
    destruct (negb (arrayIncludes (entries v) (normalizePath acc')));
      [|reflexivity].
    unfold catch, createFolder.
    destruct (createFolderError host v (normalizePath acc')) as [e|];
      [|reflexivity].
    destruct (includes e "Folder already exists"); reflexivity. }
  destruct (when _ _ v) as [[] v1|e v1|]; [| exact Hstep | exact I].
  specialize (IH acc' v1).
  destruct (ensureParts host rest acc' v1); [congruence | congruence | exact I].
Qed.

Lemma ensureFolderExists_files (d : string) (v : Vault) :
  match ensureFolderExists host d v with
  | Ok _ v' | Throw _ v' => files v' = files v
  | Diverge => True
  end.
Proof.
  unfold ensureFolderExists, bind, adapterExists.
  destruct (arrayIncludes (entries v) (normalizePath d)); [reflexivity|].
  apply ensureParts_files.
Qed.

Lemma probe_vault (n : nat) (base ext : string) (i : nat) (v : Vault) :
  match probe n base ext i v with
  | Ok _ v' | Throw _ v' => v' = v
  | Diverge => True
  end.
Proof.
  revert i. induction n as [|n IH]; intros i; [exact I|].
  cbn [probe]. unfold bind, adapterExists.
  destruct (arrayIncludes (entries v) (normalizePath (candidate base ext i)));
    [apply IH | reflexivity].
Qed.

Lemma resolveCollision_vault (p : string) (v : Vault) :
  match resolveCollision fuel p v with
  | Ok _ v' | Throw _ v' => v' = v
  | Diverge => True
  end.
Proof.
  unfold resolveCollision, bind, adapterExists.
  destruct (negb (arrayIncludes (entries v) (normalizePath p)));
    [reflexivity|].
  destruct (splitExt (normalizePath p)) as [base ext]. apply probe_vault.
Qed.

(** Resolve, move, tell: a rejection comes before the move. *)
Lemma move_Throw_files (mk : string -> NoticeText) (fid : nat)
    (target : string) (v v' : Vault) (e : string) :
  (dest <- resolveCollision fuel target ;;
   renameFile host fid dest ;;;
   when (showNotice settings) (emit (Notice (mk dest) 2500))) v
  = Throw e v' ->
  files v' = files v.
Proof.
  unfold bind at 1. pose proof (resolveCollision_vault target v) as Hres.
  destruct (resolveCollision fuel target v) as [dest v0|e0 v0|];
    [subst v0 | intros H; injection H as <- <-; now subst | discriminate].
  unfold bind, renameFile.
  destruct (nth_error (files v) fid) as [f|];
    [| intros H; now injection H as <- <-].
  destruct (renameFileError host v f dest);
    [intros H; now injection H as <- <- |].
  unfold when, emit, ret. destruct (showNotice settings); discriminate.
Qed.

Lemma processFile_Throw_files (fid : nat) (v v' : Vault) (e : string) :
  processFile host fuel settings fid v = Throw e v' ->
  files v' = files v.
Proof.
  unfold processFile. unfold bind at 1, readFile.
  destruct (nth_error (files v) fid) as [file|];
    [| intros H; now injection H as <- <-].
  destruct (negb (extension file =? "md")%string); [discriminate|].
  destruct (isExcluded settings (path file)); [discriminate|].
  destruct (shouldArchive settings file && negb (isInArchive settings (path file))).
  - destruct (dryRun settings).
    + unfold bind, emit, when, ret. destruct (showNotice settings);
        discriminate.
    + unfold bind at 1.
      pose proof (ensureFolderExists_files
                    (dir (buildArchiveTarget settings file)) v) as Hdir.
      destruct (ensureFolderExists host _ v) as [[] v0|e0 v0|];
        [| intros H; injection H as <- <-; exact Hdir | discriminate].
      intros H. apply move_Throw_files in H. congruence.
  - destruct (negb (shouldArchive settings file)
              && isInArchive settings (path file)
              && unarchiveOnMissingAll settings); [|discriminate].
    destruct (buildUnarchiveTarget settings file) as [t|]; [|discriminate].
    destruct (dryRun settings).
    + unfold bind, emit, when, ret. destruct (showNotice settings);
        discriminate.
    + unfold bind at 1.
      assert (Hdir :
        match when (nonEmpty (dir t)) (ensureFolderExists host (dir t)) v with
        | Ok _ v0 | Throw _ v0 => files v0 = files v
        | Diverge => True
        end).
      { unfold when. destruct (nonEmpty (dir t)); [|reflexivity].
        apply ensureFolderExists_files. }
      destruct (when _ _ v) as [[] v0|e0 v0|];
        [| intros H; injection H as <- <-; exact Hdir | discriminate].
      intros H. apply move_Throw_files in H. congruence.
Qed.

End Rejections.

(** C1 (amended).  [scanAll] does not catch per document: when
    [processFile] rejects on a document, the rejection leaves the loop and
    [scanAll] with the vault as it is at that moment.  The documents
    before it stay processed, every file object is as they left it (the
    rejected document and the ones after it are not moved), and no summary
    and no counts are produced; the command reports the rejection once
    through [reportError]. *)
Theorem scanAll_failure_propagates (host : Host) (fuel : nat)
    (settings : AutoArchiverSettings) (v v1 v2 : Vault)
    (before after : list nat) (fid : nat) (counts : nat * nat) (e : string) :
  mdIndices 0 (files v) = (before ++ fid :: after)%list ->
  scanLoop host fuel settings before 0 0 v = Ok counts v1 ->
  processFile host fuel settings fid v1 = Throw e v2 ->
  scanAll host fuel settings v = Throw e v2
  /\ files v2 = files v1
  /\ scanCommand host fuel settings v
     = Ok tt {| files := files v2; entries := entries v2;
                trace := trace v2 ++ [ConsoleError e;
                                      Notice ErrorSeeConsole 4000] |}
  /\ (forall c v3,
        scanLoop host fuel settings (mdIndices 0 (files v)) 0 0 v = Ok c v3 ->
        False).
Proof.
  intros Hfiles Hbefore Hfail.
  pose proof (processFile_Throw_files host fuel settings fid v1 v2 e Hfail)
    as Hkept.
  assert (Hloop : scanLoop host fuel settings (mdIndices 0 (files v)) 0 0 v
                  = Throw e v2).
  { rewrite Hfiles, scanLoop_app, Hbefore. now apply scanLoop_Throw. }
  assert (Hscan : scanAll host fuel settings v = Throw e v2).
  { now rewrite scanAll_unfold, Hloop. }
  split; [exact Hscan|]. split; [exact Hkept|]. split.
  - unfold scanCommand, catch. rewrite Hscan.
    unfold reportError, bind, emit. cbn [files entries trace].
    now rewrite <- app_assoc.
  - intros c v3 H. rewrite Hloop in H. discriminate.
Qed.

Lemma scanAll_failure_propagates_witness :
  scanAll (hostRefusing "a.md") 5 DEFAULT_SETTINGS twoMarkedNotes
  = Throw "EBUSY"
      {| files := files twoMarkedNotes;
         entries := "Archive" :: entries twoMarkedNotes;
         trace := [CreateFolder "Archive"] |}.
Proof.
  apply (scanAll_failure_propagates (hostRefusing "a.md") 5 DEFAULT_SETTINGS
           twoMarkedNotes twoMarkedNotes
           {| files := files twoMarkedNotes;
              entries := "Archive" :: entries twoMarkedNotes;
              trace := [CreateFolder "Archive"] |}
           [] [1%nat] 0 (0%nat, 0%nat) "EBUSY").
  - reflexivity.
  - reflexivity.
  - reflexivity.
Defined.

(** C1, as stated, fails: the host refuses to move [a.md]; the scan stops
    there with the rejection, [b.md] stays where it is although processing
    it on its own archives it, and the command shows the error notice
    instead of a summary. *)
Lemma scanAll_aborts_at_first_failure :
  scanAll (hostRefusing "a.md") 5 DEFAULT_SETTINGS twoMarkedNotes
  = Throw "EBUSY"
      {| files := [archivedNote "a.md"; archivedNote "b.md"];
         entries := ["Archive"; "a.md"; "b.md"];
         trace := [CreateFolder "Archive"] |}
  /\ processFile (hostRefusing "a.md") 5 DEFAULT_SETTINGS 1 twoMarkedNotes
     = Ok tt
         {| files := [archivedNote "a.md"; archivedNote "Archive/b.md"];
            entries := ["Archive/b.md"; "Archive"; "a.md"];
            trace := [CreateFolder "Archive";
                      RenameFile "b.md" "Archive/b.md";
                      Notice (ArchivedTo "Archive/b.md") 2500] |}
  /\ scanCommand (hostRefusing "a.md") 5 DEFAULT_SETTINGS twoMarkedNotes
     = Ok tt
         {| files := [archivedNote "a.md"; archivedNote "b.md"];
            entries := ["Archive"; "a.md"; "b.md"];
            trace := [CreateFolder "Archive"; ConsoleError "EBUSY";
                      Notice ErrorSeeConsole 4000] |}.
Proof. repeat split. Qed.

(* ================================================================== *)
(** * Idempotence *)

Lemma nth_error_updateNth {A : Type} (l : list A) (n : nat) (x y : A) :
  nth_error l n = Some x -> nth_error (updateNth n y l) n = Some y.
Proof.
  revert n; induction l as [|h l IH]; intros [|n] H; try discriminate.
  - reflexivity.
  - cbn [updateNth nth_error] in *. now apply IH.
Qed.

(** C4, as stated, fails below a folder that is named like the archive
    root: the unmarked note [Archive/Archive/x.md] is restored to
    [Archive/x.md], which is still inside the archive root, so the second
    call moves it again, to [x.md].  No destination was taken and the
    metadata did not change. *)
Lemma processFile_moves_twice_below_nested_root :
  processFile agreeableHost 5 DEFAULT_SETTINGS 0 nestedArchiveVault
  = Ok tt
      {| files := [plainNote "Archive/x.md"];
         entries := ["Archive/x.md"; "Archive"; "Archive/Archive"];
         trace := [RenameFile "Archive/Archive/x.md" "Archive/x.md";
                   Notice (UnarchivedTo "Archive/x.md") 2500] |}
  /\ processFile agreeableHost 5 DEFAULT_SETTINGS 0
       {| files := [plainNote "Archive/x.md"];
          entries := ["Archive/x.md"; "Archive"; "Archive/Archive"];
          trace := [RenameFile "Archive/Archive/x.md" "Archive/x.md";
                    Notice (UnarchivedTo "Archive/x.md") 2500] |}
     = Ok tt
         {| files := [plainNote "x.md"];
            entries := ["x.md"; "Archive"; "Archive/Archive"];
            trace := [RenameFile "Archive/Archive/x.md" "Archive/x.md";
                      Notice (UnarchivedTo "Archive/x.md") 2500;
                      RenameFile "Archive/x.md" "x.md";
                      Notice (UnarchivedTo "x.md") 2500] |}.
Proof. split; reflexivity. Qed.

(** The archive root must not be empty for a second call to rest: under
    the root ["/"], which is empty once its slashes are stripped, the
    target of a marked note is the path it is at, which exists, so every
    call moves it to the next free name. *)
Example processFile_moves_twice_under_empty_root :
  processFile agreeableHost 5 (settingsWithRoot "/") 0
    (vaultOf [archivedNote "a.md"])
  = Ok tt
      {| files := [archivedNote "a (1).md"];
         entries := ["a (1).md"];
         trace := [RenameFile "a.md" "a (1).md";
                   Notice (ArchivedTo "a (1).md") 2500] |}
  /\ processFile agreeableHost 5 (settingsWithRoot "/") 0
       {| files := [archivedNote "a (1).md"];
          entries := ["a (1).md"];
          trace := [RenameFile "a.md" "a (1).md";
                    Notice (ArchivedTo "a (1).md") 2500] |}
     = Ok tt
         {| files := [archivedNote "a (1) (1).md"];
            entries := ["a (1) (1).md"];
            trace := [RenameFile "a.md" "a (1).md";
                      Notice (ArchivedTo "a (1).md") 2500;
                      RenameFile "a (1).md" "a (1) (1).md";
                      Notice (ArchivedTo "a (1) (1).md") 2500] |}.
Proof. split; reflexivity. Qed.

(* ================================================================== *)
(** * The scenarios of the specification *)

Example scenario_archive :
  processFile agreeableHost 5 DEFAULT_SETTINGS 0
    (vaultOf [archivedNote "Task/TASK-1234.md"])
  = Ok tt
      {| files := [archivedNote "Archive/Task/TASK-1234.md"];
         entries := ["Archive/Task/TASK-1234.md"; "Archive/Task"; "Archive"];
         trace := [CreateFolder "Archive"; CreateFolder "Archive/Task";
                   RenameFile "Task/TASK-1234.md" "Archive/Task/TASK-1234.md";
                   Notice (ArchivedTo "Archive/Task/TASK-1234.md") 2500] |}.
Proof. reflexivity. Qed.

Example scenario_unarchive :
  processFile agreeableHost 5 DEFAULT_SETTINGS 0
    {| files := [plainNote "Archive/Task/TASK-1234.md"];
       entries := ["Archive"; "Archive/Task"; "Archive/Task/TASK-1234.md"];
       trace := [] |}
  = Ok tt
      {| files := [plainNote "Task/TASK-1234.md"];
         entries := ["Task/TASK-1234.md"; "Task"; "Archive"; "Archive/Task"];
         trace := [CreateFolder "Task";
                   RenameFile "Archive/Task/TASK-1234.md" "Task/TASK-1234.md";
                   Notice (UnarchivedTo "Task/TASK-1234.md") 2500] |}.
Proof. reflexivity. Qed.

Example scenario_scan :
  scanAll agreeableHost 5 DEFAULT_SETTINGS twoMarkedNotes
  = Ok tt
      {| files := [archivedNote "Archive/a.md"; archivedNote "Archive/b.md"];
         entries := ["Archive/b.md"; "Archive/a.md"; "Archive"];
         trace := [CreateFolder "Archive";
                   RenameFile "a.md" "Archive/a.md";
                   Notice (ArchivedTo "Archive/a.md") 2500;
                   RenameFile "b.md" "Archive/b.md";
                   Notice (ArchivedTo "Archive/b.md") 2500;
                   Notice (ScanSummary false 2 0) 4000] |}.
Proof. reflexivity. Qed.

Example normalizePath_examples :
  normalizePath "Archive//Task/" = "Archive/Task"
  /\ normalizePath "/a.md" = "a.md"
  /\ normalizePath "" = "/"
  /\ archiveRootPath (settingsWithRoot "Archive/") = "Archive"
  /\ archiveRootPath (settingsWithRoot "/") = "".
Proof. repeat split. Qed.

(* ================================================================== *)
(** * Further properties: the collision resolver *)

Section CollisionLoop.

Variable v : Vault.

Lemma probe_fresh (n : nat) (base ext : string) (i : nat) (dest : string)
    (v' : Vault) :
  probe n base ext i v = Ok dest v' ->
  v' = v /\ arrayIncludes (entries v) dest = false.
Proof.
  revert i. induction n as [|n IH]; intros i; [discriminate|].
  cbn [probe]. unfold bind, adapterExists.
  destruct (arrayIncludes (entries v) (normalizePath (candidate base ext i)))
    eqn:E; [apply IH|].
  intros H. injection H as <- <-. now split.
Qed.

(** A loop that gives up has found every candidate taken. *)
Lemma probe_Diverge (n : nat) (base ext : string) (i : nat) :
  probe n base ext i v = Diverge ->
  forall k, (i <= k < i + n)%nat ->
    arrayIncludes (entries v) (normalizePath (candidate base ext k)) = true.
Proof.
  revert i. induction n as [|n IH]; intros i H k Hk; [lia|].
  cbn [probe] in H. unfold bind, adapterExists in H.
  destruct (arrayIncludes (entries v) (normalizePath (candidate base ext i)))
    eqn:E; [|discriminate].
  destruct (Nat.eq_dec k i) as [->|Hne]; [exact E|].
  apply (IH (S i) H). lia.
Qed.

Lemma append_inv_head (a b c : string) : a ++ b = a ++ c -> b = c.
Proof.
  induction a as [|x a IH]; cbn [append]; [auto|].
  intros H. injection H as H. auto.
Qed.

Lemma digits_of_uint (d : Decimal.uint) :
  allChars isDigit (NilEmpty.string_of_uint d) = true.
Proof. induction d; cbn [NilEmpty.string_of_uint allChars]; auto. Qed.

(** Two runs of digits that are closed by the same bracket are equal. *)
Lemma digits_closed (a b rest : string) :
  allChars isDigit a = true -> allChars isDigit b = true ->
  a ++ ")" ++ rest = b ++ ")" ++ rest -> a = b.
Proof.
  revert b. induction a as [|x a IH]; intros [|y b] Ha Hb H;
    cbn [append allChars] in *.
  - reflexivity.
  - injection H as <- _. discriminate.
  - injection H as -> _. discriminate.
  - injection H as -> H.
    apply andb_true_iff in Ha as [_ Ha]. apply andb_true_iff in Hb as [_ Hb].
    f_equal. now apply IH.
Qed.

Lemma showNat_inj (i j : nat) : showNat i = showNat j -> i = j.
Proof.
  unfold showNat. intros H. apply Unsigned.to_uint_inj.
  pose proof (NilEmpty.usu (Nat.to_uint i)) as Hi.
  pose proof (NilEmpty.usu (Nat.to_uint j)) as Hj.
  rewrite H in Hi. rewrite Hi in Hj. now injection Hj.
Qed.

Lemma candidate_inj (base ext : string) (i j : nat) :
  candidate base ext i = candidate base ext j -> i = j.
Proof.
  unfold candidate. intros H.
  apply append_inv_head in H. cbn [append] in H. injection H as H.
  apply showNat_inj.
  apply digits_closed with (rest := ext); [| | exact H];
    apply digits_of_uint.
Qed.

Lemma NoDup_map_injective {A B : Type} (f : A -> B) (l : list A) :
  (forall x y, f x = f y -> x = y) -> NoDup l -> NoDup (map f l).
Proof.
  intros Hinj Hl. induction Hl as [|x l Hx Hl IH]; cbn [map]; constructor.
  - intros Hin. apply in_map_iff in Hin as (y & Hy & Hin).
    apply Hinj in Hy. now subst y.
  - exact IH.
Qed.

End CollisionLoop.

(** X1.  Whatever [resolveCollision] returns is a path that does not
    exist, and the call leaves the vault as it is. *)
Theorem resolveCollision_fresh (fuel : nat) (target dest : string)
    (v v' : Vault) :
  resolveCollision fuel target v = Ok dest v' ->
  v' = v /\ arrayIncludes (entries v) dest = false.
Proof.
  unfold resolveCollision, bind, adapterExists.
  destruct (arrayIncludes (entries v) (normalizePath target)) eqn:E;
    cbn [negb].
  - destruct (splitExt (normalizePath target)) as [base ext].
    apply probe_fresh.
  - intros H. injection H as <- <-. now split.
Qed.

Lemma resolveCollision_fresh_witness :
  arrayIncludes ["Archive/Task/TASK-1.md"; "Archive/Task/TASK-1 (1).md"]
    "Archive/Task/TASK-1 (2).md" = false.
Proof.
  apply (resolveCollision_fresh 5 "Archive/Task/TASK-1.md"
           "Archive/Task/TASK-1 (2).md"
           {| files := [];
              entries := ["Archive/Task/TASK-1.md";
                          "Archive/Task/TASK-1 (1).md"];
              trace := [] |}
           {| files := [];
              entries := ["Archive/Task/TASK-1.md";
                          "Archive/Task/TASK-1 (1).md"];
              trace := [] |}).
  reflexivity.
Defined.

(** X2.  The collision loop ends on a finite store: with more probes
    allowed than there are existing paths, [resolveCollision] returns a
    free path for every target that is not the vault root. *)
Theorem resolveCollision_terminates (fuel : nat) (target : string)
    (v : Vault) :
  normalizePath target <> "/" ->
  (List.length (entries v) < fuel)%nat ->
  exists dest,
    resolveCollision fuel target v = Ok dest v
    /\ arrayIncludes (entries v) dest = false.
Proof.
  intros Hroot Hfuel.
  assert (Hnorm : isNormalized (normalizePath target) = true).
  { destruct (normalizePath_shape target); [contradiction | assumption]. }
  destruct (resolveCollision fuel target v) as [dest v'|e v'|] eqn:Hrun.
  - unfold resolveCollision, bind, adapterExists in Hrun.
    destruct (arrayIncludes (entries v) (normalizePath target)) eqn:E;
      cbn [negb] in Hrun.
    + destruct (splitExt (normalizePath target)) as [base ext].
      apply probe_fresh in Hrun as [-> Hfree]. now exists dest.
    + injection Hrun as <- <-. now exists (normalizePath target).
  - exfalso. unfold resolveCollision, bind, adapterExists in Hrun.
    destruct (negb (arrayIncludes (entries v) (normalizePath target)));
      [discriminate|].
    destruct (splitExt (normalizePath target)) as [base ext].
    revert Hrun. generalize 1%nat. clear. intros i.
    revert i. induction fuel as [|n IH]; intros i; [discriminate|].
    cbn [probe]. unfold bind, adapterExists.
    destruct (arrayIncludes (entries v)
                (normalizePath (candidate base ext i)));
      [apply IH | discriminate].
  - exfalso. unfold resolveCollision, bind, adapterExists in Hrun.
    destruct (negb (arrayIncludes (entries v) (normalizePath target)));
      [discriminate|].
    pose proof (splitExt_parts (normalizePath target)) as Hparts.
    destruct (splitExt (normalizePath target)) as [base ext].
    cbn [fst snd] in Hparts.
    pose proof (probe_Diverge v fuel base ext 1 Hrun) as Htaken.
    assert (Hincl : incl (map (candidate base ext) (seq 1 fuel)) (entries v)).
    { intros x Hx. apply in_map_iff in Hx as (k & <- & Hk).
      apply in_seq in Hk. apply arrayIncludes_In.
      rewrite <- (candidate_normal base ext k) by now rewrite Hparts.
      apply Htaken. lia. }
    assert (Hnodup : NoDup (map (candidate base ext) (seq 1 fuel))).
    { apply NoDup_map_injective; [|apply seq_NoDup].
      intros i j. apply candidate_inj. }
    pose proof (NoDup_incl_length Hnodup Hincl) as Hlen.
    rewrite length_map, length_seq in Hlen. lia.
Qed.

Lemma resolveCollision_terminates_witness :
  exists dest,
    resolveCollision 2 "Task/a.md"
      {| files := []; entries := ["Task/a.md"]; trace := [] |}
    = Ok dest {| files := []; entries := ["Task/a.md"]; trace := [] |}
    /\ arrayIncludes ["Task/a.md"] dest = false.
Proof.
  apply (resolveCollision_terminates 2 "Task/a.md"
           {| files := []; entries := ["Task/a.md"]; trace := [] |}).
  - vm_compute. discriminate.
  - simpl. lia.
Defined.

(* ================================================================== *)
(** * Further properties: [ensureFolderExists] *)

Section FolderCreation.

Lemma splitOn_not_nil (d : ascii -> bool) (s : string) : splitOn d s <> [].
Proof.
  destruct s as [|c s]; cbn [splitOn]; [discriminate|].
  destruct (d c); [discriminate|]. destruct (splitOn d s); discriminate.
Qed.

Lemma joinWith_cons (sep x : string) (l : list string) :
  l <> [] -> joinWith sep (x :: l) = x ++ sep ++ joinWith sep l.
Proof. destruct l; [contradiction | reflexivity]. Qed.

(** Splitting at slashes and joining with slashes gives the string back. *)
Lemma joinWith_splitOn (s : string) :
  joinWith "/" (splitOn isSlash s) = s.
Proof.
  induction s as [|c s IH]; [reflexivity|].
  cbn [splitOn]. destruct (isSlash c) eqn:Hc.
  - rewrite joinWith_cons by apply splitOn_not_nil.
    rewrite IH. apply isSlash_true in Hc. now subst c.
  - pose proof (splitOn_not_nil isSlash s) as Hne.
    destruct (splitOn isSlash s) as [|h t]; [contradiction|].
    destruct t as [|h' t].
    + cbn [joinWith] in *. now rewrite IH.
    + rewrite joinWith_cons in * by discriminate.
      cbn [append] in *. now rewrite IH.
Qed.

Lemma splitOn_app (d : ascii -> bool) (a b : string) (c : ascii) :
  d c = true ->
  splitOn d (a ++ String c b) = (splitOn d a ++ splitOn d b)%list.
Proof.
  intros Hc. induction a as [|x a IH]; cbn [append splitOn].
  - now rewrite Hc.
  - destruct (d x); rewrite IH; [reflexivity|].
    pose proof (splitOn_not_nil d a) as Hne.
    destruct (splitOn d a); [contradiction | reflexivity].
Qed.

(** The segments of a normal form are not empty. *)
Lemma splitOn_normal (n g : bool) (s : string) :
  pathShape false n g s = true ->
  exists h t, splitOn isSlash s = h :: t
              /\ Forall (fun x => nonEmpty x = true) t
              /\ (g = true -> nonEmpty h = true).
Proof.
  revert g. induction s as [|c s IH]; intros g H.
  - exists "", []. repeat split; [constructor|].
    intros ->. discriminate.
  - cbn [pathShape] in H. cbn [splitOn]. destruct (isSlash c).
    + apply andb_true_iff in H as [Hg H].
      destruct (IH _ H) as (h & t & -> & Ht & Hh).
      exists "", (h :: t). repeat split.
      * constructor; auto.
      * intros ->. discriminate.
    + apply andb_true_iff in H as [_ H].
      destruct (IH _ H) as (h & t & -> & Ht & _).
      exists (String c h), t. repeat split. exact Ht.
Qed.

Lemma filter_all {A : Type} (f : A -> bool) (l : list A) :
  Forall (fun x => f x = true) l -> filter f l = l.
Proof.
  induction 1 as [|x l Hx Hl IH]; cbn [filter]; [reflexivity|].
  now rewrite Hx, IH.
Qed.

Lemma fields_normal (s : string) :
  isNormalized s = true -> fields isSlash s = splitOn isSlash s.
Proof.
  intros H. destruct (splitOn_normal _ _ _ H) as (h & t & E & Ht & Hh).
  unfold fields. rewrite E. apply filter_all. constructor; auto.
Qed.

Lemma arrayIncludes_cons (x p : string) (l : list string) :
  arrayIncludes l p = true -> arrayIncludes (x :: l) p = true.
Proof.
  unfold arrayIncludes. cbn [existsb]. intros ->. apply orb_true_r.
Qed.

Lemma arrayIncludes_app (l1 l2 : list string) (p : string) :
  arrayIncludes l2 p = true -> arrayIncludes (l1 ++ l2) p = true.
Proof.
  intros H. induction l1 as [|x l1 IH]; [exact H|].
  cbn [app]. now apply arrayIncludes_cons.
Qed.

Lemma arrayIncludes_app_false (l1 l2 : list string) (p : string) :
  arrayIncludes (l1 ++ l2) p = false -> arrayIncludes l2 p = false.
Proof.
  intros H. destruct (arrayIncludes l2 p) eqn:E; [|reflexivity].
  now rewrite (arrayIncludes_app l1 _ _ E) in H.
Qed.

Variable host : Host.

(** One round of the loop: check, create, forgive "already exists". *)
Lemma ensure_step (p : string) (v v1 : Vault) :
  when (negb (arrayIncludes (entries v) p))
       (catch (createFolder host p)
          (fun e => if includes e "Folder already exists"
                    then ret tt else Throw e)) v = Ok tt v1 ->
  v1 = v
  \/ (arrayIncludes (entries v) p = false
      /\ v1 = {| files := files v; entries := p :: entries v;
                 trace := trace v ++ [CreateFolder p] |}).
Proof.
  unfold when. destruct (arrayIncludes (entries v) p) eqn:E; cbn [negb].
  - intros H. injection H as <-. now left.
  - unfold catch, createFolder.
    destruct (createFolderError host v p) as [e|].
    + destruct (includes e "Folder already exists"); [|discriminate].
      intros H. injection H as <-. now left.
    + intros H. injection H as <-. right. now split.
Qed.

(** The loop only creates folders, each one missing until then. *)
Lemma ensureParts_creates (parts : list string) (acc : string)
    (v v' : Vault) :
  ensureParts host parts acc v = Ok tt v' ->
  exists created,
    files v' = files v
    /\ entries v' = (rev created ++ entries v)%list
    /\ trace v' = (trace v ++ map CreateFolder created)%list
    /\ Forall (fun p => arrayIncludes (entries v) p = false) created.
Proof.
  revert acc v. induction parts as [|part rest IH]; intros acc v Hrun.
  - cbn [ensureParts] in Hrun. injection Hrun as <-.
    exists []. cbn. now rewrite app_nil_r.
  - cbn [ensureParts] in Hrun.
    apply bind_Ok_inv in Hrun as (ex & v0 & Hex & Hrun).
    unfold adapterExists in Hex. injection Hex as <- <-.
    apply bind_Ok_inv in Hrun as ([] & v1 & Hstep & Hrun).
    apply IH in Hrun as (created & Hf & He & Ht & Hnew).
    apply ensure_step in Hstep as [-> | [Hmiss ->]].
    + now exists created.
    + cbn [files entries trace] in *.
      exists (normalizePath
                (if nonEmpty acc then acc ++ "/" ++ part else part)
              :: created).
      repeat split.
      * exact Hf.
      * rewrite He. cbn [rev]. now rewrite <- app_assoc.
      * rewrite Ht. cbn [map]. now rewrite <- app_assoc.
      * constructor; [exact Hmiss|].
        eapply Forall_impl; [|exact Hnew]. cbn beta. intros p Hp.
        apply (arrayIncludes_app_false [_] _ _ Hp).
Qed.

(** With an honest host, every path the loop has assembled exists at the
    end. *)
Lemma ensureParts_reaches (pre post : list string) (acc : string)
    (v v' : Vault) :
  honestHost host ->
  pre <> [] ->
  Forall (fun x => nonEmpty x = true) pre ->
  ensureParts host (pre ++ post) acc v = Ok tt v' ->
  arrayIncludes (entries v')
    (normalizePath (if nonEmpty acc then acc ++ "/" ++ joinWith "/" pre
                    else joinWith "/" pre)) = true.
Proof.
  intros Hhost. revert acc v. induction pre as [|part pre IH];
    intros acc v Hne Hparts Hrun; [contradiction|].
  inversion Hparts as [|? ? Hpart Hpre]; subst.
  cbn [app ensureParts] in Hrun.
  set (acc' := if nonEmpty acc then acc ++ "/" ++ part else part) in *.
  assert (Hacc' : nonEmpty acc' = true).
  { unfold acc'. destruct acc; [exact Hpart | reflexivity]. }
  apply bind_Ok_inv in Hrun as (ex & v0 & Hex & Hrun).
  unfold adapterExists in Hex. injection Hex as <- <-.
  apply bind_Ok_inv in Hrun as ([] & v1 & Hstep & Hrun).
  destruct pre as [|part' pre].
  - (* the path of this round *)
    cbn [joinWith]. fold acc'.
    apply ensureParts_creates in Hrun as (created & _ & He & _).
    rewrite He. apply arrayIncludes_app.
    unfold when in Hstep.
    destruct (arrayIncludes (entries v) (normalizePath acc')) eqn:E;
      cbn [negb] in Hstep.
    + injection Hstep as <-. exact E.
    + unfold catch, createFolder in Hstep.
      destruct (createFolderError host v (normalizePath acc')) as [e|] eqn:Eh.
      * destruct (includes e "Folder already exists") eqn:Ei;
          [|discriminate].
        rewrite (Hhost _ _ _ Eh Ei) in E. discriminate.
      * injection Hstep as <-. cbn [entries].
        unfold arrayIncludes. cbn [existsb]. now rewrite String.eqb_refl.
  - (* a later round *)
    specialize (IH acc' v1 ltac:(discriminate) Hpre Hrun).
    rewrite Hacc' in IH.
    rewrite joinWith_cons by discriminate.
    replace (if nonEmpty acc
             then acc ++ "/" ++ part ++ "/" ++ joinWith "/" (part' :: pre)
             else part ++ "/" ++ joinWith "/" (part' :: pre))
      with (acc' ++ "/" ++ joinWith "/" (part' :: pre)); [exact IH|].
    unfold acc'. destruct (nonEmpty acc); [|reflexivity].
    now rewrite append_assoc.
Qed.

End FolderCreation.

Lemma splitOn_normal_all (s : string) :
  isNormalized s = true ->
  Forall (fun x => nonEmpty x = true) (splitOn isSlash s).
Proof.
  intros H. destruct (splitOn_normal _ _ _ H) as (h & t & -> & Ht & Hh).
  constructor; auto.
Qed.

(** X3.  With a host whose "Folder already exists" is true to the store, a
    completed [ensureFolderExists] leaves the folder existing (unless it is
    the vault root, for which nothing is done); and when the folder was
    missing, all the folders above it exist as well. *)
Theorem ensureFolderExists_establishes (host : Host) (d : string)
    (v v' : Vault) :
  honestHost host ->
  normalizePath d <> "/" ->
  ensureFolderExists host d v = Ok tt v' ->
  arrayIncludes (entries v') (normalizePath d) = true
  /\ (arrayIncludes (entries v) (normalizePath d) = false ->
      forall a b, normalizePath d = a ++ "/" ++ b ->
                  arrayIncludes (entries v') a = true).
Proof.
  intros Hhost Hroot Hrun.
  assert (Hnorm : isNormalized (normalizePath d) = true).
  { destruct (normalizePath_shape d); [contradiction | assumption]. }
  unfold ensureFolderExists, bind, adapterExists in Hrun.
  destruct (arrayIncludes (entries v) (normalizePath d)) eqn:E.
  - injection Hrun as <-. split; [exact E | discriminate].
  - rewrite (fields_normal _ Hnorm) in Hrun. split.
    + rewrite <- (app_nil_r (splitOn isSlash (normalizePath d))) in Hrun.
      apply ensureParts_reaches in Hrun;
        [| exact Hhost | apply splitOn_not_nil
         | now apply splitOn_normal_all].
      cbn [nonEmpty] in Hrun. rewrite joinWith_splitOn in Hrun.
      now rewrite normalizePath_idempotent in Hrun.
    + intros _ a b Hab. rewrite Hab in Hnorm, Hrun.
      rewrite isNormalized_join in Hnorm.
      apply andb_true_iff in Hnorm as [Na Nb].
      change (a ++ "/" ++ b) with (a ++ String slash b) in Hrun.
      rewrite (splitOn_app isSlash a b slash eq_refl) in Hrun.
      apply ensureParts_reaches in Hrun;
        [| exact Hhost | apply splitOn_not_nil
         | now apply splitOn_normal_all].
      cbn [nonEmpty] in Hrun. rewrite joinWith_splitOn in Hrun.
      now rewrite (normalizePath_id _ Na) in Hrun.
Qed.

Lemma agreeableHost_honest : honestHost agreeableHost.
Proof. intros v p e H. discriminate H. Qed.

Lemma ensureFolderExists_establishes_witness :
  arrayIncludes ["Archive/Task"; "Archive"; "Inbox"] "Archive/Task" = true
  /\ arrayIncludes ["Archive/Task"; "Archive"; "Inbox"] "Archive" = true.
Proof.
  destruct (ensureFolderExists_establishes agreeableHost "Archive/Task"
              {| files := []; entries := ["Inbox"]; trace := [] |}
              {| files := []; entries := ["Archive/Task"; "Archive"; "Inbox"];
                 trace := [CreateFolder "Archive";
                           CreateFolder "Archive/Task"] |}
              agreeableHost_honest)
    as [Hself Habove].
  - vm_compute. discriminate.
  - reflexivity.
  - split; [exact Hself|].
    apply (Habove eq_refl "Archive" "Task"). reflexivity.
Defined.

(** X4.  [ensureFolderExists] only ever adds folders: a completed call
    leaves the file objects alone, removes no path, and what it adds are
    the folders it created, each of which was missing before (whatever the
    host answers). *)
Theorem ensureFolderExists_only_creates (host : Host) (d : string)
    (v v' : Vault) :
  ensureFolderExists host d v = Ok tt v' ->
  exists created,
    files v' = files v
    /\ entries v' = (rev created ++ entries v)%list
    /\ trace v' = (trace v ++ map CreateFolder created)%list
    /\ Forall (fun p => arrayIncludes (entries v) p = false) created.
Proof.
  intros Hrun. unfold ensureFolderExists, bind, adapterExists in Hrun.
  destruct (arrayIncludes (entries v) (normalizePath d)).
  - injection Hrun as <-. exists []. cbn. now rewrite app_nil_r.
  - now apply ensureParts_creates in Hrun.
Qed.

Lemma ensureFolderExists_only_creates_witness :
  exists created,
    [] = @nil TFile
    /\ ["Archive/Task"; "Archive"; "Inbox"] = (rev created ++ ["Inbox"])%list
    /\ [CreateFolder "Archive"; CreateFolder "Archive/Task"]
       = ([] ++ map CreateFolder created)%list
    /\ Forall (fun p => arrayIncludes ["Inbox"] p = false) created.
Proof.
  apply (ensureFolderExists_only_creates agreeableHost "Archive/Task"
           {| files := []; entries := ["Inbox"]; trace := [] |}
           {| files := []; entries := ["Archive/Task"; "Archive"; "Inbox"];
              trace := [CreateFolder "Archive";
                        CreateFolder "Archive/Task"] |}).
  reflexivity.
Defined.

(* ================================================================== *)
(** * Further properties: the classifier *)

Section ClassifierExact.

Variable settings : AutoArchiverSettings.

(** What is in the set after a loop of [add]s was put there by one of
    them, or was there before. *)
Lemma fold_setAdd_inv {A : Type} (f : A -> string) (l : list A)
    (acc : list string) (x : string) :
  In x (fold_left (fun acc a => setAdd (f a) acc) l acc) ->
  In x acc \/ exists a, In a l /\ f a = x.
Proof.
  revert acc. induction l as [|a l IH]; intros acc H; [now left|].
  cbn [fold_left] in H. apply IH in H as [H | (b & Hb & E)].
  - apply setAdd_In in H as [-> | H]; [right | now left].
    exists a. split; [now left | reflexivity].
  - right. exists b. split; [now right | exact E].
Qed.

Lemma shouldArchive_by_property (file : TFile) (c : CachedMetadata)
    (fm : list (string * JsValue)) (k : string) :
  cache file = Some c -> frontmatter c = Some fm ->
  In k (map fst fm) ->
  In (norm k) (map norm (propertyNames settings)) ->
  isTruthy settings (getProp fm k) = true ->
  shouldArchive settings file = true.
Proof.
  intros Hc Hfm Hk Hname Htrue. unfold shouldArchive. rewrite Hc, Hfm.
  assert (Hlen : negb (List.length (map norm (propertyNames settings)) =? 0)%nat
                 = true).
  { destruct (map norm (propertyNames settings)); [contradiction|reflexivity]. }
  rewrite Hlen. cbn [andb].
  assert (Hex : existsb
                  (fun k0 => arrayIncludes (map norm (propertyNames settings))
                               (norm k0)
                             && isTruthy settings (getProp fm k0))
                  (map fst fm) = true).
  { apply existsb_exists. exists k. split; [exact Hk|].
    apply andb_true_iff. split; [now apply arrayIncludes_In | exact Htrue]. }
  now rewrite Hex.
Qed.

End ClassifierExact.

(* ================================================================== *)
(** * Further properties: frames of [processFile] *)

Section Frames.

Variable host : Host.
Variable fuel : nat.
Variable settings : AutoArchiverSettings.

Lemma length_updateNth {A : Type} (n : nat) (x : A) (l : list A) :
  List.length (updateNth n x l) = List.length l.
Proof.
  revert n. induction l as [|h l IH]; intros [|n]; cbn; auto.
Qed.

Lemma nth_error_updateNth_other {A : Type} (n g : nat) (x : A) (l : list A) :
  g <> n -> nth_error (updateNth n x l) g = nth_error l g.
Proof.
  revert n g. induction l as [|h l IH]; intros [|n] [|g] H; cbn; auto;
    try contradiction.
Qed.

(** Resolve, move, tell: when it completes, one file object has a new
    path and nothing else about the file objects has changed. *)
Lemma move_Ok_files (mk : string -> NoticeText) (fid : nat) (file : TFile)
    (target : string) (v v1 : Vault) :
  nth_error (files v) fid = Some file ->
  (dest <- resolveCollision fuel target ;;
   renameFile host fid dest ;;;
   when (showNotice settings) (emit (Notice (mk dest) 2500))) v = Ok tt v1 ->
  exists dest,
    files v1 = updateNth fid {| path := dest; extension := extension file;
                                cache := cache file |} (files v).
Proof.
  intros Hf Hrun.
  apply bind_Ok_inv in Hrun as (dest & v0 & Hres & Hrun).
  pose proof (resolveCollision_vault fuel target v) as Hsame.
  rewrite Hres in Hsame. subst v0.
  apply bind_Ok_inv in Hrun as ([] & v2 & Hmove & Hrun).
  unfold renameFile in Hmove. rewrite Hf in Hmove.
  destruct (renameFileError host v file dest); [discriminate|].
  injection Hmove as <-. exists dest.
  unfold when in Hrun. destruct (showNotice settings).
  - unfold emit in Hrun. now injection Hrun as <-.
  - now injection Hrun as <-.
Qed.

Lemma processFile_Ok_files (fid : nat) (file : TFile) (v v' : Vault) :
  nth_error (files v) fid = Some file ->
  processFile host fuel settings fid v = Ok tt v' ->
  files v' = files v
  \/ exists dest,
       files v' = updateNth fid {| path := dest; extension := extension file;
                                   cache := cache file |} (files v).
Proof.
  intros Hf Hrun. unfold processFile in Hrun.
  rewrite (bind_Ok (readFile fid) _ v v file) in Hrun;
    [| unfold readFile; now rewrite Hf].
  destruct (negb (extension file =? "md")%string);
    [injection Hrun as <-; now left|].
  destruct (isExcluded settings (path file));
    [injection Hrun as <-; now left|].
  destruct (shouldArchive settings file && negb (isInArchive settings (path file))).
  - destruct (dryRun settings).
    + left. unfold bind, emit, when, ret in Hrun.
      destruct (showNotice settings); now injection Hrun as <-.
    + apply bind_Ok_inv in Hrun as ([] & va & Hdir & Hrun).
      pose proof (ensureFolderExists_files host
                    (dir (buildArchiveTarget settings file)) v) as Hfiles.
      rewrite Hdir in Hfiles. rewrite <- Hfiles in Hf.
      apply move_Ok_files with (file := file) in Hrun; [|exact Hf].
      right. destruct Hrun as [dest Hrun]. exists dest. now rewrite <- Hfiles.
  - destruct (negb (shouldArchive settings file)
              && isInArchive settings (path file)
              && unarchiveOnMissingAll settings);
      [| injection Hrun as <-; now left].
    destruct (buildUnarchiveTarget settings file) as [t|];
      [| injection Hrun as <-; now left].
    destruct (dryRun settings).
    + left. unfold bind, emit, when, ret in Hrun.
      destruct (showNotice settings); now injection Hrun as <-.
    + apply bind_Ok_inv in Hrun as ([] & va & Hdir & Hrun).
      assert (Hfiles : files va = files v).
      { unfold when in Hdir. destruct (nonEmpty (dir t)).
        - pose proof (ensureFolderExists_files host (dir t) v) as H.
          now rewrite Hdir in H.
        - now injection Hdir as <-. }
      rewrite <- Hfiles in Hf.
      apply move_Ok_files with (file := file) in Hrun; [|exact Hf].
      right. destruct Hrun as [dest Hrun]. exists dest. now rewrite <- Hfiles.
Qed.

End Frames.

(** X6.  [processFile] touches one file object at most: whether it
    completes or rejects, every other file object is as before and no file
    object appears or disappears; the file's own extension and metadata
    are never changed, and a rejected call has changed no file object at
    all. *)
Theorem processFile_touches_one_file (host : Host) (fuel : nat)
    (settings : AutoArchiverSettings) (fid : nat) (file : TFile)
    (v v' : Vault) :
  nth_error (files v) fid = Some file ->
  (processFile host fuel settings fid v = Ok tt v' ->
   List.length (files v') = List.length (files v)
   /\ (forall g, g <> fid -> nth_error (files v') g = nth_error (files v) g)
   /\ exists file',
        nth_error (files v') fid = Some file'
        /\ extension file' = extension file
        /\ cache file' = cache file)
  /\ (forall e, processFile host fuel settings fid v = Throw e v' ->
                files v' = files v).
Proof.
  intros Hf. split.
  - intros Hrun.
    destruct (processFile_Ok_files host fuel settings fid file v v' Hf Hrun)
      as [-> | [dest ->]].
    + repeat split; auto. now exists file.
    + split; [apply length_updateNth|]. split.
      * intros g Hg. now apply nth_error_updateNth_other.
      * eexists. split; [now apply nth_error_updateNth with (x := file)|].
        now split.
  - intros e. apply processFile_Throw_files.
Qed.

Lemma processFile_touches_one_file_witness :
  nth_error [archivedNote "a.md"; archivedNote "Archive/b.md"] 0
  = nth_error [archivedNote "a.md"; archivedNote "b.md"] 0.
Proof.
  apply (proj1 (proj2 (proj1
           (processFile_touches_one_file (hostRefusing "a.md") 5
              DEFAULT_SETTINGS 1 (archivedNote "b.md") twoMarkedNotes
              {| files := [archivedNote "a.md"; archivedNote "Archive/b.md"];
                 entries := ["Archive/b.md"; "Archive"; "a.md"];
                 trace := [CreateFolder "Archive";
                           RenameFile "b.md" "Archive/b.md";
                           Notice (ArchivedTo "Archive/b.md") 2500] |}
              eq_refl) eq_refl))).
  discriminate.
Defined.

(* ================================================================== *)
(** * Further properties: the batch scan and the commands *)

Section ScanFacts.

Variable host : Host.
Variable fuel : nat.
Variable settings : AutoArchiverSettings.

Lemma mdIndices_spec (l : list TFile) (k i : nat) :
  In i (mdIndices k l) ->
  (k <= i)%nat
  /\ exists f, nth_error l (i - k) = Some f /\ extension f = "md".
Proof.
  revert k. induction l as [|f l IH]; intros k H; [contradiction|].
  cbn [mdIndices] in H.
  assert (Hrest : In i (mdIndices (S k) l) ->
                  (k <= i)%nat
                  /\ exists f', nth_error (f :: l) (i - k) = Some f'
                                /\ extension f' = "md").
  { intros H'. apply IH in H' as (Hle & f' & Hn & He).
    split; [lia|]. exists f'. split; [|exact He].
    replace (i - k)%nat with (S (i - S k)) by lia. exact Hn. }
  destruct (String.eqb_spec (extension f) "md") as [E|_]; [|auto].
  destruct H as [<- | H]; [|auto].
  split; [lia|]. exists f. rewrite Nat.sub_diag. now split.
Qed.

Lemma mdIndices_NoDup (l : list TFile) (k : nat) : NoDup (mdIndices k l).
Proof.
  revert k. induction l as [|f l IH]; intros k; [constructor|].
  cbn [mdIndices]. destruct (extension f =? "md")%string; [|apply IH].
  constructor; [|apply IH].
  intros H. apply mdIndices_spec in H as [H _]. lia.
Qed.

Lemma readFile_Ok (fid : nat) (v v' : Vault) (f : TFile) :
  readFile fid v = Ok f v' -> v' = v /\ nth_error (files v) fid = Some f.
Proof.
  unfold readFile. destruct (nth_error (files v) fid); [|discriminate].
  intros H. injection H as <- <-. now split.
Qed.

(** Every round of the loop, taken apart. *)
Lemma scanLoop_cons_inv (f : nat) (rest : list nat) (a u : nat)
    (v v' : Vault) (c : nat * nat) :
  scanLoop host fuel settings (f :: rest) a u v = Ok c v' ->
  exists before after v1,
    nth_error (files v) f = Some before
    /\ processFile host fuel settings f v = Ok tt v1
    /\ nth_error (files v1) f = Some after
    /\ scanLoop host fuel settings rest
         (if negb (isInArchive settings (path before))
             && isInArchive settings (path after) then S a else a)
         (if isInArchive settings (path before)
             && negb (isInArchive settings (path after)) then S u else u)
         v1 = Ok c v'.
Proof.
  cbn [scanLoop]. intros H.
  apply bind_Ok_inv in H as (before & v0 & Hb & H).
  apply readFile_Ok in Hb as [-> Hb].
  apply bind_Ok_inv in H as ([] & v1 & Hp & H).
  apply bind_Ok_inv in H as (after & v2 & Ha & H).
  apply readFile_Ok in Ha as [-> Ha].
  now exists before, after, v1.
Qed.

Lemma processFile_archivedIn (fid g : nat) (v v1 : Vault) :
  g <> fid ->
  processFile host fuel settings fid v = Ok tt v1 ->
  nth_error (files v1) g = nth_error (files v) g.
Proof.
  intros Hg Hrun.
  destruct (nth_error (files v) fid) as [file|] eqn:Hf.
  - destruct (processFile_Ok_files host fuel settings fid file v v1 Hf Hrun)
      as [-> | [dest ->]]; [reflexivity|].
    now apply nth_error_updateNth_other.
  - unfold processFile, bind, readFile in Hrun. rewrite Hf in Hrun.
    discriminate.
Qed.

(** The loop leaves the files it does not visit alone. *)
Lemma scanLoop_frame (fs : list nat) (a u : nat) (v v' : Vault)
    (c : nat * nat) (g : nat) :
  scanLoop host fuel settings fs a u v = Ok c v' ->
  ~ In g fs -> nth_error (files v') g = nth_error (files v) g.
Proof.
  revert a u v. induction fs as [|f rest IH]; intros a u v Hrun Hg.
  - cbn [scanLoop] in Hrun. now injection Hrun as _ <-.
  - apply scanLoop_cons_inv in Hrun
      as (before & after & v1 & _ & Hp & _ & Hrun).
    rewrite (IH _ _ _ Hrun) by (intros H; apply Hg; now right).
    apply processFile_archivedIn with (fid := f); [|exact Hp].
    intros ->. apply Hg. now left.
Qed.

(** The counters grow by the number of visited files that changed sides. *)
Lemma scanLoop_counts (fs : list nat) (a u a' u' : nat) (v v' : Vault) :
  NoDup fs ->
  scanLoop host fuel settings fs a u v = Ok (a', u') v' ->
  a' = (a + List.length
              (filter (fun i => negb (archivedIn settings v i)
                                && archivedIn settings v' i) fs))%nat
  /\ u' = (u + List.length
                (filter (fun i => archivedIn settings v i
                                  && negb (archivedIn settings v' i)) fs))%nat.
Proof.
  revert a u v. induction fs as [|f rest IH]; intros a u v Hnd Hrun.
  - cbn [scanLoop] in Hrun. injection Hrun as <- <- <-. cbn. lia.
  - inversion Hnd as [|? ? Hf Hrest]; subst.
    apply scanLoop_cons_inv in Hrun
      as (before & after & v1 & Hb & Hp & Ha & Hrun).
    pose proof (scanLoop_frame _ _ _ _ _ _ f Hrun Hf) as Hkept.
    destruct (IH _ _ _ Hrest Hrun) as [-> ->].
    assert (Hwas : archivedIn settings v f
                   = isInArchive settings (path before)).
    { unfold archivedIn. now rewrite Hb. }
    assert (Hnow : archivedIn settings v' f
                   = isInArchive settings (path after)).
    { unfold archivedIn. now rewrite Hkept, Ha. }
    assert (Hothers : forall i, In i rest ->
                        archivedIn settings v1 i = archivedIn settings v i).
    { intros i Hi. unfold archivedIn.
      rewrite (processFile_archivedIn f i v v1); [reflexivity | | exact Hp].
      intros ->. contradiction. }
    cbn [filter]. rewrite Hwas, Hnow.
    rewrite (filter_ext_in
               (fun i => negb (archivedIn settings v1 i)
                         && archivedIn settings v' i)
               (fun i => negb (archivedIn settings v i)
                         && archivedIn settings v' i))
      by (intros i Hi; now rewrite Hothers).
    rewrite (filter_ext_in
               (fun i => archivedIn settings v1 i
                         && negb (archivedIn settings v' i))
               (fun i => archivedIn settings v i
                         && negb (archivedIn settings v' i)))
      by (intros i Hi; now rewrite Hothers).
    destruct (isInArchive settings (path before));
      destruct (isInArchive settings (path after)); cbn; lia.
Qed.

(** In a dry run the loop visits every file and counts nothing. *)
Lemma scanLoop_dry_run (fs : list nat) (a u : nat) (v : Vault) :
  dryRun settings = true ->
  (forall i, In i fs -> nth_error (files v) i <> None) ->
  exists v',
    scanLoop host fuel settings fs a u v = Ok (a, u) v'
    /\ files v' = files v
    /\ entries v' = entries v
    /\ filter isMutation (trace v') = filter isMutation (trace v).
Proof.
  intros Hdry. revert v. induction fs as [|f rest IH]; intros v Hvalid.
  - exists v. now repeat split.
  - destruct (nth_error (files v) f) as [file|] eqn:Hf;
      [| exfalso; apply (Hvalid f); [now left | exact Hf]].
    destruct (processFile_dry_run_frame host fuel settings f file v Hf Hdry)
      as (v1 & Hp & Hfiles & Hentries & Htrace).
    destruct (IH v1) as (v' & Hrun & Hf' & He' & Ht').
    { intros i Hi. rewrite Hfiles. apply Hvalid. now right. }
    exists v'. cbn [scanLoop]. unfold bind at 1, readFile. rewrite Hf.
    unfold bind at 1. rewrite Hp.
    unfold bind at 1, readFile. rewrite Hfiles, Hf.
    rewrite andb_negb_l, andb_negb_r.
    repeat split; congruence.
Qed.

(** On settled files the loop does nothing. *)
Lemma scanLoop_settled (fs : list nat) (a u : nat) (v : Vault) :
  (forall i, In i fs ->
     exists f, nth_error (files v) i = Some f
               /\ (isExcluded settings (path f) = true
                   \/ shouldArchive settings f
                      = isInArchive settings (path f))) ->
  scanLoop host fuel settings fs a u v = Ok (a, u) v.
Proof.
  induction fs as [|f rest IH]; intros Hset; [reflexivity|].
  destruct (Hset f (or_introl eq_refl)) as (file & Hf & Hok).
  assert (Hp : processFile host fuel settings f v = Ok tt v).
  { destruct Hok as [Hex | Hsame].
    - apply processFile_skips with (file := file); auto.
    - now apply processFile_settled with (file := file). }
  cbn [scanLoop]. unfold bind at 1, readFile. rewrite Hf.
  unfold bind at 1. rewrite Hp.
  unfold bind at 1, readFile. rewrite Hf.
  rewrite andb_negb_l, andb_negb_r.
  apply IH. intros i Hi. apply Hset. now right.
Qed.

End ScanFacts.

(** X7.  A scan in dry-run mode always completes, changes neither the file
    objects nor the existing paths, creates and moves nothing, and its
    summary, when notices are on, reports 0 archived and 0 unarchived,
    whatever the files would have warranted. *)
Theorem scanAll_dry_run_counts_nothing (host : Host) (fuel : nat)
    (settings : AutoArchiverSettings) (v : Vault) :
  dryRun settings = true ->
  exists v',
    scanAll host fuel settings v = Ok tt v'
    /\ files v' = files v
    /\ entries v' = entries v
    /\ filter isMutation (trace v') = filter isMutation (trace v)
    /\ (showNotice settings = true ->
        exists tr, trace v' = (tr ++ [Notice (ScanSummary true 0 0) 4000])%list).
Proof.
  intros Hdry.
  destruct (scanLoop_dry_run host fuel settings (mdIndices 0 (files v))
              0 0 v Hdry) as (v1 & Hloop & Hf & He & Ht).
  { intros i Hi. apply mdIndices_spec in Hi as (_ & f & Hn & _).
    rewrite Nat.sub_0_r in Hn. congruence. }
  rewrite scanAll_unfold, Hloop, Hdry. cbn [fst snd].
  unfold when. destruct (showNotice settings).
  - eexists. split; [reflexivity|]. cbn [files entries trace].
    split; [exact Hf|]. split; [exact He|]. split.
    + rewrite filter_app. cbn. now rewrite app_nil_r.
    + intros _. now exists (trace v1).
  - exists v1. split; [reflexivity|].
    split; [exact Hf|]. split; [exact He|]. split; [exact Ht|].
    discriminate.
Qed.

Lemma scanAll_dry_run_counts_nothing_witness :
  exists v',
    scanAll agreeableHost 0
      (mkSettings ["Archived"] [] [] "Archive" [] true true true)
      twoMarkedNotes = Ok tt v'
    /\ files v' = files twoMarkedNotes
    /\ entries v' = entries twoMarkedNotes
    /\ filter isMutation (trace v') = filter isMutation (trace twoMarkedNotes)
    /\ (true = true ->
        exists tr, trace v' = (tr ++ [Notice (ScanSummary true 0 0) 4000])%list).
Proof.
  apply (scanAll_dry_run_counts_nothing agreeableHost 0
           (mkSettings ["Archived"] [] [] "Archive" [] true true true)
           twoMarkedNotes).
  reflexivity.
Defined.

(** X8.  A scan of a vault in which every markdown file is excluded or
    already on the side its classification asks for does nothing but show
    the summary 0/0 (when notices are on). *)
Theorem scanAll_settled_is_noop (host : Host) (fuel : nat)
    (settings : AutoArchiverSettings) (v : Vault) :
  (forall i f,
     nth_error (files v) i = Some f -> extension f = "md" ->
     isExcluded settings (path f) = true
     \/ shouldArchive settings f = isInArchive settings (path f)) ->
  scanAll host fuel settings v
  = Ok tt {| files := files v; entries := entries v;
             trace := trace v
                      ++ if showNotice settings
                         then [Notice (ScanSummary (dryRun settings) 0 0) 4000]
                         else [] |}.
Proof.
  intros Hset. rewrite scanAll_unfold, scanLoop_settled.
  - cbn [fst snd]. unfold when, emit, ret.
    destruct (showNotice settings); [reflexivity|].
    rewrite app_nil_r. now destruct v.
  - intros i Hi. apply mdIndices_spec in Hi as (_ & f & Hn & He).
    rewrite Nat.sub_0_r in Hn. exists f. split; [exact Hn|].
    now apply Hset with (i := i).
Qed.

Lemma scanAll_settled_is_noop_witness :
  scanAll agreeableHost 0 DEFAULT_SETTINGS
    (vaultOf [archivedNote "Archive/a.md"; plainNote "b.md"])
  = Ok tt {| files := [archivedNote "Archive/a.md"; plainNote "b.md"];
             entries := ["Archive/a.md"; "b.md"];
             trace := [Notice (ScanSummary false 0 0) 4000] |}.
Proof.
  apply (scanAll_settled_is_noop agreeableHost 0 DEFAULT_SETTINGS
           (vaultOf [archivedNote "Archive/a.md"; plainNote "b.md"])).
  intros [|[|[|i]]] f H Hext; cbn in H; try discriminate;
    injection H as <-; right; reflexivity.
Defined.

(** X9.  The summary of a completed scan is exact: "archived" is the
    number of markdown files that were outside the archive root before the
    scan and are inside it afterwards, "unarchived" the number of those
    that went the other way. *)
Theorem scanAll_summary_is_exact (host : Host) (fuel : nat)
    (settings : AutoArchiverSettings) (v v' : Vault) :
  showNotice settings = true ->
  scanAll host fuel settings v = Ok tt v' ->
  exists tr,
    trace v'
    = (tr ++ [Notice
                (ScanSummary (dryRun settings)
                   (List.length
                      (filter (fun i => negb (archivedIn settings v i)
                                        && archivedIn settings v' i)
                              (mdIndices 0 (files v))))
                   (List.length
                      (filter (fun i => archivedIn settings v i
                                        && negb (archivedIn settings v' i))
                              (mdIndices 0 (files v))))) 4000])%list.
Proof.
  intros Hshow Hrun. rewrite scanAll_unfold in Hrun.
  destruct (scanLoop host fuel settings (mdIndices 0 (files v)) 0 0 v)
    as [[a u] v1| |] eqn:Hloop; try discriminate.
  apply scanLoop_counts in Hloop as [-> ->]; [|apply mdIndices_NoDup].
  rewrite Hshow in Hrun. unfold when, emit in Hrun.
  injection Hrun as <-. cbn [fst snd trace]. exists (trace v1).
  reflexivity.
Qed.

Lemma scanAll_summary_is_exact_witness :
  exists tr,
    [CreateFolder "Archive"; RenameFile "a.md" "Archive/a.md";
     Notice (ArchivedTo "Archive/a.md") 2500;
     RenameFile "b.md" "Archive/b.md";
     Notice (ArchivedTo "Archive/b.md") 2500;
     Notice (ScanSummary false 2 0) 4000]
    = (tr ++ [Notice (ScanSummary false 2 0) 4000])%list.
Proof.
  apply (scanAll_summary_is_exact agreeableHost 5 DEFAULT_SETTINGS
           twoMarkedNotes
           {| files := [archivedNote "Archive/a.md";
                        archivedNote "Archive/b.md"];
              entries := ["Archive/b.md"; "Archive/a.md"; "Archive"];
              trace := [CreateFolder "Archive";
                        RenameFile "a.md" "Archive/a.md";
                        Notice (ArchivedTo "Archive/a.md") 2500;
                        RenameFile "b.md" "Archive/b.md";
                        Notice (ArchivedTo "Archive/b.md") 2500;
                        Notice (ScanSummary false 2 0) 4000] |});
    reflexivity.
Defined.

(** X10.  The two commands and the event handlers never reject: a
    rejection of [processFile] or of [scanAll] is turned into one error
    line on the console and one error notice, with the vault as the
    rejection left it; a call that completes is passed through as it
    is. *)
Theorem commands_never_reject (host : Host) (fuel : nat)
    (settings : AutoArchiverSettings) (fid : nat) (v : Vault) :
  (forall e v', processCommand host fuel settings fid v <> Throw e v')
  /\ (forall e v', scanCommand host fuel settings v <> Throw e v')
  /\ (forall e v1,
        processFile host fuel settings fid v = Throw e v1 ->
        processCommand host fuel settings fid v
        = Ok tt {| files := files v1; entries := entries v1;
                   trace := trace v1 ++ [ConsoleError e;
                                         Notice ErrorSeeConsole 4000] |})
  /\ (forall v1,
        processFile host fuel settings fid v = Ok tt v1 ->
        processCommand host fuel settings fid v = Ok tt v1)
  /\ (forall e v1,
        scanAll host fuel settings v = Throw e v1 ->
        scanCommand host fuel settings v
        = Ok tt {| files := files v1; entries := entries v1;
                   trace := trace v1 ++ [ConsoleError e;
                                         Notice ErrorSeeConsole 4000] |})
  /\ (forall v1,
        scanAll host fuel settings v = Ok tt v1 ->
        scanCommand host fuel settings v = Ok tt v1).
Proof.
  assert (Hreport : forall e w,
            reportError e w
            = Ok tt {| files := files w; entries := entries w;
                       trace := trace w ++ [ConsoleError e;
                                            Notice ErrorSeeConsole 4000] |}).
  { intros e w. unfold reportError, bind, emit. cbn [files entries trace].
    now rewrite <- app_assoc. }
  repeat split.
  - intros e v'. unfold processCommand, catch.
    destruct (processFile host fuel settings fid v) as [a w|e0 w|];
      [discriminate | rewrite Hreport; discriminate | discriminate].
  - intros e v'. unfold scanCommand, catch.
    destruct (scanAll host fuel settings v) as [a w|e0 w|];
      [discriminate | rewrite Hreport; discriminate | discriminate].
  - intros e v1 H. unfold processCommand, catch. rewrite H. apply Hreport.
  - intros v1 H. unfold processCommand, catch. now rewrite H.
  - intros e v1 H. unfold scanCommand, catch. rewrite H. apply Hreport.
  - intros v1 H. unfold scanCommand, catch. now rewrite H.
Qed.

Lemma commands_never_reject_witness :
  processCommand (hostRefusing "a.md") 5 DEFAULT_SETTINGS 0 twoMarkedNotes
  = Ok tt {| files := [archivedNote "a.md"; archivedNote "b.md"];
             entries := ["Archive"; "a.md"; "b.md"];
             trace := [CreateFolder "Archive"; ConsoleError "EBUSY";
                       Notice ErrorSeeConsole 4000] |}.
Proof.
  apply (proj1 (proj2 (proj2
           (commands_never_reject (hostRefusing "a.md") 5 DEFAULT_SETTINGS
              0 twoMarkedNotes)))
           "EBUSY"
           {| files := [archivedNote "a.md"; archivedNote "b.md"];
              entries := ["Archive"; "a.md"; "b.md"];
              trace := [CreateFolder "Archive"] |}).
  reflexivity.
Defined.

(* ================================================================== *)
(** * Further properties: the targets mirror the path *)

Section Mirror.

Variable settings : AutoArchiverSettings.

(** The cut of a normal form at its last slash, with the file name. *)
Lemma split_normal_name (p : string) :
  isNormalized p = true ->
  (lastIndexOf p slash = -1)
  \/ exists a b,
       p = a ++ "/" ++ b
       /\ (lastIndexOf p slash =? -1) = false
       /\ slice p 0 (lastIndexOf p slash) = a
       /\ sliceFrom p (lastIndexOf p slash + 1) = b
       /\ isNormalized a = true /\ isNormalized b = true
       /\ lastIndexOf b slash = -1.
Proof.
  intros Hp.
  destruct (lastIndexOf_split p slash) as [H | (a & b & -> & Hi & Hb)];
    [now left | right].
  change (String slash b) with ("/" ++ b) in *.
  exists a, b. rewrite Hi.
  rewrite isNormalized_join in Hp. apply andb_true_iff in Hp as [Na Nb].
  repeat split; auto.
  - apply Z.eqb_neq. lia.
  - apply slice_prefix.
  - apply sliceFrom_after.
Qed.

Lemma buildArchiveTarget_parent (file : TFile) :
  archiveRootPath settings <> "" ->
  isNormalized (normalizePath (path file)) = true ->
  exists name,
    lastIndexOf name slash = -1
    /\ full (buildArchiveTarget settings file)
       = dir (buildArchiveTarget settings file) ++ "/" ++ name
    /\ (normalizePath (path file) = name
        \/ exists d, normalizePath (path file) = d ++ "/" ++ name)
    /\ isInArchive settings (dir (buildArchiveTarget settings file)) = true.
Proof.
  intros Hroot Hp.
  pose proof (buildArchiveTarget_normal settings file Hroot Hp) as Hfull.
  pose proof (archiveRootPath_normal settings Hroot) as Nroot.
  rewrite Hfull. unfold buildArchiveTarget. cbn [dir].
  destruct (split_normal_name _ Hp)
    as [Hi | (a & b & Hab & Hi & Ha & Hb & Na & Nb & Hname)].
  - rewrite Hi. cbn [Z.eqb nonEmpty Pos.eqb].
    rewrite (normalizePath_id _ Nroot).
    exists (normalizePath (path file)). repeat split; auto.
    apply isInArchive_iff. left. now apply normalizePath_id.
  - rewrite Hi, Ha, (isNormalized_nonEmpty _ Na), Hab.
    rewrite normalizePath_id
      by (rewrite isNormalized_join; now rewrite Nroot, Na).
    exists b. repeat split.
    + exact Hname.
    + now rewrite !append_assoc.
    + right. now exists a.
    + now apply isInArchive_under.
Qed.

End Mirror.

(** X11.  Archiving mirrors the whole path: under an archive root that is
    not empty after normalisation, the target of a file is the root, a
    slash and the normalised path of the file.  It lies inside the archive
    root, directly in the target folder (itself the root or inside it),
    under the file name it had. *)
Theorem archive_target_mirrors_path (settings : AutoArchiverSettings)
    (file : TFile) :
  archiveRootPath settings <> "" ->
  normalizePath (path file) <> "/" ->
  full (buildArchiveTarget settings file)
  = archiveRootPath settings ++ "/" ++ normalizePath (path file)
  /\ isInArchive settings (full (buildArchiveTarget settings file)) = true
  /\ isInArchive settings (dir (buildArchiveTarget settings file)) = true
  /\ exists name,
       lastIndexOf name slash = -1
       /\ full (buildArchiveTarget settings file)
          = dir (buildArchiveTarget settings file) ++ "/" ++ name
       /\ (normalizePath (path file) = name
           \/ exists d, normalizePath (path file) = d ++ "/" ++ name).
Proof.
  intros Hroot Hp.
  assert (Np : isNormalized (normalizePath (path file)) = true).
  { destruct (normalizePath_shape (path file)); [contradiction | assumption]. }
  pose proof (buildArchiveTarget_normal settings file Hroot Np) as Hfull.
  destruct (buildArchiveTarget_parent settings file Hroot Np)
    as (name & Hname & Hdir & Hsame & Hin).
  split; [exact Hfull|]. split.
  - rewrite Hfull. now apply isInArchive_under.
  - split; [exact Hin|]. now exists name.
Qed.

Lemma archive_target_mirrors_path_witness :
  full (buildArchiveTarget DEFAULT_SETTINGS (plainNote "Task//TASK-1234.md"))
  = "Archive/Task/TASK-1234.md".
Proof.
  apply (archive_target_mirrors_path DEFAULT_SETTINGS
           (plainNote "Task//TASK-1234.md")).
  - vm_compute. discriminate.
  - vm_compute. discriminate.
Defined.

(** X12.  Unarchiving strips exactly the root: whenever
    [buildUnarchiveTarget] answers a target (under a root that is not empty
    after normalisation), the normalised path of the file is the root, a
    slash and the target; the target is a normal form, cut at its last
    slash into folder and file name: either it has no slash and the folder
    is empty (the vault root), or it is the folder, a slash and a name
    without slash. *)
Theorem unarchive_target_strips_root (settings : AutoArchiverSettings)
    (file : TFile) (t : Target) :
  archiveRootPath settings <> "" ->
  buildUnarchiveTarget settings file = Some t ->
  normalizePath (path file) = archiveRootPath settings ++ "/" ++ full t
  /\ normalizePath (full t) = full t
  /\ full t <> "/"
  /\ exists name,
       lastIndexOf name slash = -1
       /\ ((dir t = "" /\ full t = name)
           \/ (isNormalized (dir t) = true
               /\ full t = dir t ++ "/" ++ name)).
Proof.
  intros Hroot Ht.
  destruct (buildUnarchiveTarget_inv settings file t Hroot Ht)
    as (rest & Nrest & Hrest).
  assert (Hshape :
    exists d name,
      buildUnarchiveTarget settings file
      = Some {| dir := d; full := rest |}
      /\ lastIndexOf name slash = -1
      /\ ((d = "" /\ rest = name)
          \/ (isNormalized d = true /\ rest = d ++ "/" ++ name))).
  { pose proof (archiveRootPath_normal settings Hroot) as Nroot.
    unfold buildUnarchiveTarget. rewrite Hrest.
    rewrite (isInArchive_under settings _ Hroot Nrest). cbn [negb].
    destruct (String.eqb_spec (archiveRootPath settings ++ "/" ++ rest)
                              (archiveRootPath settings)) as [E|_].
    { exfalso. exact (app_neq_self _ _ _ E). }
    rewrite sliceFrom_after_slash.
    destruct (split_normal_name _ Nrest)
      as [Hi | (a & b & Hab & Hi & Ha & Hb & Na & Nb & Hname)].
    - rewrite Hi. cbn [Z.eqb nonEmpty Pos.eqb].
      rewrite (normalizePath_id _ Nrest).
      exists "", rest. split; [reflexivity|]. split; [exact Hi|]. now left.
    - rewrite Hi, Ha, Hb. rewrite (isNormalized_nonEmpty _ Na).
      rewrite (normalizePath_id _ Na), (isNormalized_nonEmpty _ Na).
      rewrite <- Hab, (normalizePath_id _ Nrest).
      exists a, b. split; [reflexivity|]. split; [exact Hname|].
      right. now split. }
  destruct Hshape as (d & name & Hd & Hname & Hdir).
  rewrite Ht in Hd. injection Hd as ->. cbn [dir full].
  split; [exact Hrest|]. split; [now apply normalizePath_id|].
  split; [intros ->; discriminate Nrest|].
  now exists name.
Qed.

Lemma unarchive_target_strips_root_witness :
  normalizePath (path (plainNote "Archive/Task/TASK-1234.md"))
  = archiveRootPath DEFAULT_SETTINGS ++ "/" ++ "Task/TASK-1234.md".
Proof.
  apply (unarchive_target_strips_root DEFAULT_SETTINGS
           (plainNote "Archive/Task/TASK-1234.md")
           {| dir := "Task"; full := "Task/TASK-1234.md" |}).
  - vm_compute. discriminate.
  - reflexivity.
Defined.

(* ================================================================== *)
(** * Further properties: the settings tab *)

Section SettingsTab.

Lemma allChars_app (p : ascii -> bool) (a b : string) :
  allChars p (a ++ b) = allChars p a && allChars p b.
Proof.
  induction a as [|c a IH]; [reflexivity|].
  cbn [append allChars]. now rewrite IH, andb_assoc.
Qed.

Lemma splitOn_no_delim (d : ascii -> bool) (x : string) :
  allChars (fun c => negb (d c)) x = true -> splitOn d x = [x].
Proof.
  induction x as [|c x IH]; [reflexivity|].
  cbn [allChars splitOn]. intros H. apply andb_true_iff in H as [Hc H].
  apply negb_true_iff in Hc. now rewrite Hc, (IH H).
Qed.

Lemma splitOn_segments (d : ascii -> bool) (s : string) :
  Forall (fun x => allChars (fun c => negb (d c)) x = true) (splitOn d s).
Proof.
  induction s as [|c s IH]; [repeat constructor|].
  cbn [splitOn]. destruct (d c) eqn:Hc.
  - constructor; [reflexivity | exact IH].
  - pose proof (splitOn_not_nil d s) as Hne.
    destruct (splitOn d s) as [|h t]; [contradiction|].
    inversion IH as [|? ? Hh Ht]; subst.
    constructor; [|exact Ht]. cbn [allChars]. now rewrite Hc, Hh.
Qed.

Lemma allChars_dropWhile (p q : ascii -> bool) (s : string) :
  allChars p s = true -> allChars p (dropWhile q s) = true.
Proof.
  induction s as [|c s IH]; [auto|].
  cbn [dropWhile]. destruct (q c); [|auto].
  cbn [allChars]. intros H. apply andb_true_iff in H as [_ H]. auto.
Qed.

Lemma allChars_dropWhileEnd (p q : ascii -> bool) (s : string) :
  allChars p s = true -> allChars p (dropWhileEnd q s) = true.
Proof.
  induction s as [|c s IH]; [auto|].
  cbn [allChars dropWhileEnd]. intros H. apply andb_true_iff in H as [Hc H].
  specialize (IH H). destruct (dropWhileEnd q s).
  - destruct (q c); [reflexivity|]. cbn [allChars]. now rewrite Hc.
  - cbn [allChars] in *. now rewrite Hc, IH.
Qed.

Lemma allChars_trim (p : ascii -> bool) (s : string) :
  allChars p s = true -> allChars p (trim s) = true.
Proof.
  intros H. unfold trim. now apply allChars_dropWhileEnd, allChars_dropWhile.
Qed.

(** ** [trim] is idempotent *)

Lemma headKept_dropWhile (p : ascii -> bool) (s : string) :
  headKept p (dropWhile p s) = true.
Proof.
  induction s as [|c s IH]; [reflexivity|].
  cbn [dropWhile]. destruct (p c) eqn:Hc; [exact IH|].
  cbn [headKept]. now rewrite Hc.
Qed.

Lemma headKept_dropWhileEnd (p : ascii -> bool) (s : string) :
  headKept p s = true -> headKept p (dropWhileEnd p s) = true.
Proof.
  destruct s as [|c s]; [auto|].
  cbn [headKept dropWhileEnd]. intros Hc.
  destruct (dropWhileEnd p s).
  - apply negb_true_iff in Hc. rewrite Hc. cbn [headKept]. now rewrite Hc.
  - exact Hc.
Qed.

Lemma dropWhile_headKept (p : ascii -> bool) (s : string) :
  headKept p s = true -> dropWhile p s = s.
Proof.
  destruct s as [|c s]; [auto|].
  cbn [headKept dropWhile]. intros Hc.
  apply negb_true_iff in Hc. now rewrite Hc.
Qed.

Lemma dropWhileEnd_idempotent (p : ascii -> bool) (s : string) :
  dropWhileEnd p (dropWhileEnd p s) = dropWhileEnd p s.
Proof.
  induction s as [|c s IH]; [reflexivity|].
  cbn [dropWhileEnd]. destruct (dropWhileEnd p s) as [|x t] eqn:E.
  - destruct (p c) eqn:Hc; [reflexivity|].
    cbn [dropWhileEnd]. now rewrite Hc.
  - change (dropWhileEnd p (String c (String x t)))
      with (match dropWhileEnd p (String x t) with
            | EmptyString => if p c then EmptyString else String c EmptyString
            | String y r => String c (String y r)
            end).
    now rewrite IH.
Qed.

Lemma trim_idempotent (s : string) : trim (trim s) = trim s.
Proof.
  unfold trim.
  rewrite (dropWhile_headKept isWhiteSpace
             (dropWhileEnd isWhiteSpace (dropWhile isWhiteSpace s))).
  - apply dropWhileEnd_idempotent.
  - apply headKept_dropWhileEnd, headKept_dropWhile.
Qed.

Lemma trim_after_space (s : string) : trim (String " "%char s) = trim s.
Proof. reflexivity. Qed.

(** ** Splitting what [join(", ")] has joined *)

Lemma joinWith_cons2 (sep x y : string) (l : list string) :
  joinWith sep (x :: y :: l) = x ++ sep ++ joinWith sep (y :: l).
Proof. reflexivity. Qed.

Lemma split_joined (xs : list string) (x p : string) :
  Forall (fun y => allChars (fun c => negb (isComma c)) y = true) (x :: xs) ->
  allChars (fun c => negb (isComma c)) p = true ->
  splitOn isComma (p ++ joinWith ", " (x :: xs))
  = (p ++ x) :: map (fun y => " " ++ y) xs.
Proof.
  revert x p. induction xs as [|y xs IH]; intros x p Hall Hp.
  - cbn [joinWith map]. apply splitOn_no_delim.
    rewrite allChars_app, Hp. inversion Hall; subst. assumption.
  - inversion Hall as [|? ? Hx Hrest]; subst.
    rewrite joinWith_cons2.
    replace (p ++ x ++ ", " ++ joinWith ", " (y :: xs))
      with ((p ++ x) ++ String ","%char (" " ++ joinWith ", " (y :: xs)))
      by (rewrite append_assoc; reflexivity).
    rewrite (splitOn_app isComma _ _ ","%char eq_refl).
    rewrite splitOn_no_delim by (rewrite allChars_app; now rewrite Hp, Hx).
    rewrite (IH y " " Hrest eq_refl). reflexivity.
Qed.

End SettingsTab.

(** X13.  The two lists read by [split(","), trim, filter(Boolean)], the
    frontmatter properties and the extra truthy values, survive being
    shown and read back: for entries that are not empty, carry no comma
    and no white space at their ends, parsing the text [join(", ")] shows
    returns the list itself; and what this parser has stored is such a
    list, so showing and re-reading a list it stored never changes it.
    (The tags and the excluded roots go through other parsers, of which
    this is not claimed.) *)
Theorem parseCommaList_roundtrip (xs : list string) (v : string) :
  (Forall (fun x => nonEmpty x = true /\ trim x = x
                    /\ allChars (fun c => negb (isComma c)) x = true) xs ->
   parseCommaList (joinWith ", " xs) = xs)
  /\ parseCommaList (joinWith ", " (parseCommaList v)) = parseCommaList v.
Proof.
  assert (Hround : forall l,
            Forall (fun x => nonEmpty x = true /\ trim x = x
                             /\ allChars (fun c => negb (isComma c)) x = true)
                   l ->
            parseCommaList (joinWith ", " l) = l).
  { intros [|x l] Hall; [reflexivity|].
    unfold parseCommaList.
    change (joinWith ", " (x :: l)) with ("" ++ joinWith ", " (x :: l)).
    rewrite (split_joined l x "");
      [| eapply Forall_impl; [|exact Hall]; cbn beta; tauto | reflexivity].
    cbn [append map]. inversion Hall as [|? ? (Hn & Ht & _) Hl]; subst.
    rewrite Ht. cbn [filter]. rewrite Hn. f_equal.
    clear Hall Hn Ht. induction Hl as [|y l (Hn & Ht & _) Hl IH];
      [reflexivity|].
    cbn [map filter]. rewrite trim_after_space, Ht, Hn. now rewrite IH. }
  split; [apply Hround|].
  apply Hround. unfold parseCommaList.
  apply Forall_forall. intros x Hx.
  apply filter_In in Hx as [Hx Hn].
  apply in_map_iff in Hx as (seg & <- & Hseg).
  repeat split; [exact Hn | apply trim_idempotent|].
  apply allChars_trim.
  pose proof (splitOn_segments isComma v) as Hall.
  rewrite Forall_forall in Hall. now apply Hall.
Qed.

Lemma parseCommaList_roundtrip_witness :
  parseCommaList (joinWith ", " ["Archived"; "Status"])
  = ["Archived"; "Status"].
Proof.
  apply (parseCommaList_roundtrip ["Archived"; "Status"] "").
  repeat constructor.
Defined.

Section RootsFromTheTab.

(** ** When [normalizePath] answers the vault root *)

Lemma collapseSeps_all (s : string) :
  allChars isSep s = true -> collapseSeps s = "" \/ collapseSeps s = "/".
Proof.
  induction s as [|c s IH]; [now left|].
  cbn [allChars collapseSeps]. intros H. apply andb_true_iff in H as [Hc H].
  rewrite Hc. destruct s as [|c' s']; [now right|].
  cbn [allChars] in H. destruct (isSep c') eqn:Hc'; [|discriminate].
  apply IH. cbn [allChars]. now rewrite Hc'.
Qed.

Lemma allSlash_collapseSeps (s : string) :
  allChars isSlash (collapseSeps s) = true -> allChars isSep s = true.
Proof.
  induction s as [|c s IH]; [auto|].
  cbn [collapseSeps allChars]. destruct (isSep c) eqn:Hc.
  - destruct s as [|c' s']; [auto|].
    destruct (isSep c') eqn:Hc'; [exact IH|].
    cbn [allChars]. intros H. apply andb_true_iff in H as [_ H]. now apply IH.
  - cbn [allChars]. intros H. apply andb_true_iff in H as [H _].
    destruct (isSep_false _ Hc) as [Hs _]. congruence.
Qed.

Lemma allSlash_dropWhile (s : string) :
  allChars isSlash (dropWhile isSlash s) = true -> allChars isSlash s = true.
Proof.
  induction s as [|c s IH]; [auto|].
  cbn [dropWhile]. destruct (isSlash c) eqn:Hc.
  - intros H. cbn [allChars]. now rewrite Hc, IH.
  - auto.
Qed.

Lemma allSlash_dropWhileEnd (s : string) :
  allChars isSlash (dropWhileEnd isSlash s) = true ->
  allChars isSlash s = true.
Proof.
  induction s as [|c s IH]; [auto|].
  cbn [dropWhileEnd]. destruct (dropWhileEnd isSlash s) as [|x t].
  - destruct (isSlash c) eqn:Hc.
    + intros _. cbn [allChars]. now rewrite Hc, IH.
    + cbn [allChars]. now rewrite Hc.
  - cbn [allChars] in *. intros H. apply andb_true_iff in H as [Hc H].
    now rewrite Hc, IH.
Qed.

Lemma allSlash_unNbsp (s : string) :
  allChars isSlash (mapChars unNbsp s) = allChars isSlash s.
Proof.
  induction s as [|c s IH]; [reflexivity|].
  cbn [mapChars allChars]. destruct (unNbsp_facts c) as (-> & _).
  now rewrite IH.
Qed.

Lemma dropWhile_all (p : ascii -> bool) (s : string) :
  allChars p s = true -> dropWhile p s = "".
Proof.
  induction s as [|c s IH]; [auto|].
  cbn [allChars dropWhile]. intros H. apply andb_true_iff in H as [-> H].
  auto.
Qed.

(** [normalizePath] answers the vault root for the paths made of
    separators only, the empty one included, and for no other. *)
Lemma normalizePath_root_iff (p : string) :
  normalizePath p = "/" <-> allChars isSep p = true.
Proof.
  split.
  - intros H. apply allSlash_collapseSeps, allSlash_dropWhile,
      allSlash_dropWhileEnd.
    unfold normalizePath in H.
    destruct (dropWhileEnd isSlash (dropWhile isSlash (collapseSeps p)))
      as [|c t] eqn:E; [reflexivity|].
    rewrite <- allSlash_unNbsp. now rewrite H.
  - intros H. unfold normalizePath.
    destruct (collapseSeps_all _ H) as [-> | ->]; reflexivity.
Qed.

Lemma normalizePath_nonEmpty (p : string) : nonEmpty (normalizePath p) = true.
Proof.
  destruct (normalizePath_shape p) as [-> | H]; [reflexivity|].
  now apply isNormalized_nonEmpty.
Qed.

Lemma whiteSpace_no_comma (c : ascii) :
  isWhiteSpace c = true -> negb (isComma c) = true.
Proof.
  unfold isComma. destruct (Ascii.eqb_spec c ","%char) as [->|_];
    [discriminate | reflexivity].
Qed.

Lemma allChars_impl (p q : ascii -> bool) (s : string) :
  (forall c, p c = true -> q c = true) ->
  allChars p s = true -> allChars q s = true.
Proof.
  intros Hpq. induction s as [|c s IH]; [auto|].
  cbn [allChars]. intros H. apply andb_true_iff in H as [Hc H].
  now rewrite (Hpq _ Hc), IH.
Qed.

(** Under a root that is empty once its slashes are stripped, the
    containment test accepts the vault root and nothing else. *)
Lemma isInArchive_empty_root (settings : AutoArchiverSettings) (p : string) :
  archiveRootPath settings = "" ->
  isInArchive settings p = String.eqb (normalizePath p) "/".
Proof.
  intros Hroot. unfold isInArchive. rewrite Hroot.
  destruct (normalizePath_shape p) as [-> | N]; [reflexivity|].
  destruct (normalizePath p) as [|c t]; [discriminate|].
  unfold isNormalized in N. cbn [pathShape] in N.
  cbn [append startsWith String.eqb]. change (String.eqb (String c t) "")
    with false. cbn [orb].
  destruct (isSlash c) eqn:Hc; [discriminate|].
  unfold isSlash, slash in Hc. rewrite Hc.
  rewrite Ascii.eqb_sym, Hc. reflexivity.
Qed.

End RootsFromTheTab.

(** X14.  The archive root the settings tab stores is never empty: a
    blank input gives ["Archive"], any other input its normal form.  The
    root the plugin then works with is empty exactly when the trimmed
    input is not empty and consists of slashes and backslashes only; with
    such a root the vault root itself is the only path that counts as
    archived. *)
Theorem stored_archive_root (settings : AutoArchiverSettings) (v : string) :
  nonEmpty (parseArchiveRoot v) = true
  /\ (trim v = "" -> parseArchiveRoot v = "Archive")
  /\ (parseArchiveRoot v = "/" \/ isNormalized (parseArchiveRoot v) = true)
  /\ (archiveRootPath (withArchiveRoot settings v) = ""
      <-> nonEmpty (trim v) = true /\ allChars isSep (trim v) = true)
  /\ (archiveRootPath (withArchiveRoot settings v) = "" ->
      forall p, isInArchive (withArchiveRoot settings v) p = true
                <-> normalizePath p = "/").
Proof.
  split; [apply normalizePath_nonEmpty|].
  split; [intros H; unfold parseArchiveRoot; now rewrite H|].
  split; [apply normalizePath_shape|].
  split;
    [| intros Hroot p; rewrite (isInArchive_empty_root _ p Hroot);
       apply String.eqb_eq].
  unfold archiveRootPath, withArchiveRoot, parseArchiveRoot.
  cbn [archiveRoot]. rewrite normalizePath_idempotent.
  set (x := if nonEmpty (trim v) then trim v else "Archive").
  assert (Hx : stripTrailingSlashes (normalizePath x) = ""
               <-> allChars isSep x = true).
  { rewrite <- normalizePath_root_iff.
    destruct (normalizePath_shape x) as [E | N].
    - rewrite E. split; reflexivity.
    - rewrite (stripTrailingSlashes_id _ N). split; intros H.
      + rewrite H in N. discriminate.
      + rewrite H in N. discriminate. }
  rewrite Hx. unfold x. destruct (nonEmpty (trim v)).
  - tauto.
  - split; [discriminate | intros [H _]; discriminate].
Qed.

Lemma stored_archive_root_witness :
  parseArchiveRoot "   " = "Archive".
Proof.
  apply (stored_archive_root DEFAULT_SETTINGS "   "). reflexivity.
Defined.

(** X15.  The excluded roots the settings tab stores are never an empty
    list and hold no empty string: every comma-separated piece is stored,
    as the vault root ["/"] or as a normal form.  A blank input stores the
    single root ["/"], and that root excludes no file. *)
Theorem stored_excluded_roots (settings : AutoArchiverSettings)
    (v p : string) :
  parseExcludedRoots v <> []
  /\ List.length (parseExcludedRoots v) = List.length (splitOn isComma v)
  /\ Forall (fun r => r = "/" \/ isNormalized r = true) (parseExcludedRoots v)
  /\ (allChars isWhiteSpace v = true ->
      parseExcludedRoots v = ["/"]
      /\ (normalizePath p <> "/" ->
          isExcluded (withExcludedRoots settings v) p = false)).
Proof.
  assert (Hall : parseExcludedRoots v
                 = map (fun s => normalizePath (trim s)) (splitOn isComma v)).
  { unfold parseExcludedRoots. apply filter_all.
    apply Forall_forall. intros x Hx.
    apply in_map_iff in Hx as (s & <- & _). apply normalizePath_nonEmpty. }
  split.
  { rewrite Hall. pose proof (splitOn_not_nil isComma v) as Hne.
    destruct (splitOn isComma v); [contradiction | discriminate]. }
  split; [rewrite Hall; apply length_map|].
  split.
  { rewrite Hall. apply Forall_forall. intros x Hx.
    apply in_map_iff in Hx as (s & <- & _). apply normalizePath_shape. }
  intros Hblank.
  assert (Hone : parseExcludedRoots v = ["/"]).
  { rewrite Hall, splitOn_no_delim.
    - cbn [map]. unfold trim. now rewrite (dropWhile_all _ _ Hblank).
    - apply allChars_impl with (p := isWhiteSpace); [|exact Hblank].
      apply whiteSpace_no_comma. }
  split; [exact Hone|]. intros Hp.
  destruct (isExcluded (withExcludedRoots settings v) p) eqn:E;
    [|reflexivity].
  apply isExcluded_iff in E as (prefix & Hin & Hunder).
  cbn [excludedRoots withExcludedRoots] in Hin. rewrite Hone in Hin.
  destruct Hin as [<- | []].
  assert (Np : isNormalized (normalizePath p) = true).
  { destruct (normalizePath_shape p); [contradiction | assumption]. }
  change (stripTrailingSlashes (normalizePath "/")) with "" in Hunder.
  destruct Hunder as [H | [rest H]]; rewrite H in Np; discriminate.
Qed.

Lemma stored_excluded_roots_witness :
  parseExcludedRoots " " = ["/"]
  /\ isExcluded (withExcludedRoots DEFAULT_SETTINGS " ") "Task/a.md" = false.
Proof.
  destruct (proj2 (proj2 (proj2
              (stored_excluded_roots DEFAULT_SETTINGS " " "Task/a.md")))
              eq_refl) as [Hone Hnone].
  split; [exact Hone|]. apply Hnone. vm_compute. discriminate.
Defined.

(* ================================================================== *)
(** * Further properties: what the orchestrator never does *)

Section Safety.

Variable host : Host.
Variable fuel : nat.
Variable settings : AutoArchiverSettings.

(** Resolve, move, tell: the destination was free and now exists. *)
Lemma move_Ok_fresh (mk : string -> NoticeText) (fid : nat) (file : TFile)
    (target : string) (v v1 : Vault) :
  nth_error (files v) fid = Some file ->
  (dest <- resolveCollision fuel target ;;
   renameFile host fid dest ;;;
   when (showNotice settings) (emit (Notice (mk dest) 2500))) v = Ok tt v1 ->
  exists dest,
    arrayIncludes (entries v) dest = false
    /\ files v1 = updateNth fid {| path := dest; extension := extension file;
                                   cache := cache file |} (files v)
    /\ entries v1 = dest :: removeString (path file) (entries v).
Proof.
  intros Hf Hrun.
  apply bind_Ok_inv in Hrun as (dest & v0 & Hres & Hrun).
  assert (Hfresh : v0 = v /\ arrayIncludes (entries v) dest = false).
  { unfold resolveCollision, bind, adapterExists in Hres.
    destruct (arrayIncludes (entries v) (normalizePath target)) eqn:E;
      cbn [negb] in Hres.
    - destruct (splitExt (normalizePath target)) as [base ext].
      now apply probe_fresh in Hres.
    - injection Hres as <- <-. now split. }
  destruct Hfresh as [-> Hfree].
  apply bind_Ok_inv in Hrun as ([] & v2 & Hmove & Hrun).
  unfold renameFile in Hmove. rewrite Hf in Hmove.
  destruct (renameFileError host v file dest); [discriminate|].
  injection Hmove as <-. exists dest. split; [exact Hfree|].
  unfold when in Hrun. destruct (showNotice settings).
  - unfold emit in Hrun. injection Hrun as <-. now split.
  - injection Hrun as <-. now split.
Qed.

Lemma ensureFolderExists_grows (d : string) (v v' : Vault) :
  ensureFolderExists host d v = Ok tt v' ->
  exists created,
    files v' = files v /\ entries v' = (rev created ++ entries v)%list.
Proof.
  intros Hrun. unfold ensureFolderExists, bind, adapterExists in Hrun.
  destruct (arrayIncludes (entries v) (normalizePath d)).
  - injection Hrun as <-. now exists [].
  - apply ensureParts_creates in Hrun as (created & Hf & He & _).
    now exists created.
Qed.

Lemma processFile_Ok_fresh (fid : nat) (file : TFile) (v v' : Vault) :
  nth_error (files v) fid = Some file ->
  processFile host fuel settings fid v = Ok tt v' ->
  files v' = files v
  \/ exists dest,
       arrayIncludes (entries v) dest = false
       /\ arrayIncludes (entries v') dest = true
       /\ files v' = updateNth fid {| path := dest;
                                      extension := extension file;
                                      cache := cache file |} (files v).
Proof.
  intros Hf Hrun. unfold processFile in Hrun.
  rewrite (bind_Ok (readFile fid) _ v v file) in Hrun;
    [| unfold readFile; now rewrite Hf].
  assert (Hhead : forall x l, arrayIncludes (x :: l) x = true).
  { intros x l. unfold arrayIncludes. cbn [existsb].
    now rewrite String.eqb_refl. }
  destruct (negb (extension file =? "md")%string);
    [injection Hrun as <-; now left|].
  destruct (isExcluded settings (path file));
    [injection Hrun as <-; now left|].
  destruct (shouldArchive settings file && negb (isInArchive settings (path file))).
  - destruct (dryRun settings).
    + left. unfold bind, emit, when, ret in Hrun.
      destruct (showNotice settings); now injection Hrun as <-.
    + apply bind_Ok_inv in Hrun as ([] & va & Hdir & Hrun).
      apply ensureFolderExists_grows in Hdir
        as (created & Hfiles & Hentries).
      rewrite <- Hfiles in Hf.
      apply move_Ok_fresh with (file := file) in Hrun; [|exact Hf].
      destruct Hrun as (dest & Hfree & Hnew & Hent).
      right. exists dest. rewrite Hentries in Hfree.
      apply arrayIncludes_app_false in Hfree.
      rewrite Hent, Hnew, Hfiles. auto.
  - destruct (negb (shouldArchive settings file)
              && isInArchive settings (path file)
              && unarchiveOnMissingAll settings);
      [| injection Hrun as <-; now left].
    destruct (buildUnarchiveTarget settings file) as [t|];
      [| injection Hrun as <-; now left].
    destruct (dryRun settings).
    + left. unfold bind, emit, when, ret in Hrun.
      destruct (showNotice settings); now injection Hrun as <-.
    + apply bind_Ok_inv in Hrun as ([] & va & Hdir & Hrun).
      assert (Hva : exists created,
                      files va = files v
                      /\ entries va = (rev created ++ entries v)%list).
      { unfold when in Hdir. destruct (nonEmpty (dir t)).
        - apply ensureFolderExists_grows in Hdir
            as (created & Hfiles & Hentries). now exists created.
        - injection Hdir as <-. now exists []. }
      destruct Hva as (created & Hfiles & Hentries).
      rewrite <- Hfiles in Hf.
      apply move_Ok_fresh with (file := file) in Hrun; [|exact Hf].
      destruct Hrun as (dest & Hfree & Hnew & Hent).
      right. exists dest. rewrite Hentries in Hfree.
      apply arrayIncludes_app_false in Hfree.
      rewrite Hent, Hnew, Hfiles. auto.
Qed.

(** The classifier reads the settings through their normal forms only. *)
Lemma isTruthy_ext (other : AutoArchiverSettings) (v : JsValue) :
  map norm (extraTruthyValues settings) = map norm (extraTruthyValues other) ->
  isTruthy settings v = isTruthy other v.
Proof. intros H. destruct v; cbn [isTruthy]; now rewrite ?H. Qed.

Lemma fold_setAdd_map {A : Type} (f : A -> string) (l : list A)
    (acc : list string) :
  fold_left (fun acc a => setAdd (f a) acc) l acc
  = fold_left (fun acc x => setAdd x acc) (map f l) acc.
Proof.
  revert acc. induction l as [|a l IH]; intros acc; [reflexivity|].
  cbn [map fold_left]. apply IH.
Qed.

Lemma existsb_pointwise {A : Type} (f g : A -> bool) (l : list A) :
  (forall a, f a = g a) -> existsb f l = existsb g l.
Proof.
  intros H. induction l as [|a l IH]; [reflexivity|].
  cbn [existsb]. now rewrite H, IH.
Qed.

End Safety.

(** X16.  A completed [processFile] never overwrites: when it has given
    the file a new path, that path did not exist in the vault before the
    call, and it exists afterwards. *)
Theorem processFile_never_overwrites (host : Host) (fuel : nat)
    (settings : AutoArchiverSettings) (fid : nat) (file file' : TFile)
    (v v' : Vault) :
  nth_error (files v) fid = Some file ->
  processFile host fuel settings fid v = Ok tt v' ->
  nth_error (files v') fid = Some file' ->
  path file' <> path file ->
  arrayIncludes (entries v) (path file') = false
  /\ arrayIncludes (entries v') (path file') = true.
Proof.
  intros Hf Hrun Hf' Hmoved.
  destruct (processFile_Ok_fresh host fuel settings fid file v v' Hf Hrun)
    as [Hsame | (dest & Hfree & Hnew & Hfiles)].
  - rewrite Hsame, Hf in Hf'. injection Hf' as <-. contradiction.
  - rewrite Hfiles in Hf'.
    rewrite (nth_error_updateNth _ _ file _ Hf) in Hf'.
    injection Hf' as <-. now split.
Qed.

Lemma processFile_never_overwrites_witness :
  arrayIncludes (entries twoMarkedNotes) "Archive/b.md" = false
  /\ arrayIncludes ["Archive/b.md"; "Archive"; "a.md"] "Archive/b.md" = true.
Proof.
  apply (processFile_never_overwrites agreeableHost 5 DEFAULT_SETTINGS 1
           (archivedNote "b.md") (archivedNote "Archive/b.md")
           twoMarkedNotes
           {| files := [archivedNote "a.md"; archivedNote "Archive/b.md"];
              entries := ["Archive/b.md"; "Archive"; "a.md"];
              trace := [CreateFolder "Archive";
                        RenameFile "b.md" "Archive/b.md";
                        Notice (ArchivedTo "Archive/b.md") 2500] |});
    try reflexivity.
  discriminate.
Defined.

(** X17.  [processFile] leaves a markdown file alone whenever its
    classification agrees with the side of the archive root it is on, and
    also whenever it is inside the archive root while "unarchive when
    conditions no longer match" is off: archived notes are then never
    moved out. *)
Theorem processFile_respects_state (host : Host) (fuel : nat)
    (settings : AutoArchiverSettings) (fid : nat) (file : TFile) (v : Vault) :
  nth_error (files v) fid = Some file ->
  (shouldArchive settings file = isInArchive settings (path file)
   \/ (isInArchive settings (path file) = true
       /\ unarchiveOnMissingAll settings = false)) ->
  processFile host fuel settings fid v = Ok tt v.
Proof.
  intros Hf [Hsame | [Hin Hoff]].
  - now apply processFile_settled with (file := file).
  - unfold processFile.
    rewrite (bind_Ok (readFile fid) _ v v file);
      [| unfold readFile; now rewrite Hf].
    destruct (negb (extension file =? "md")%string); [reflexivity|].
    destruct (isExcluded settings (path file)); [reflexivity|].
    rewrite Hin, Hoff, andb_false_r, andb_false_r. reflexivity.
Qed.

Lemma processFile_respects_state_witness :
  processFile agreeableHost 0
    (mkSettings ["Archived"] [] ["archived"] "Archive" [] false true false)
    0 (vaultOf [plainNote "Archive/old.md"])
  = Ok tt (vaultOf [plainNote "Archive/old.md"]).
Proof.
  apply (processFile_respects_state agreeableHost 0
           (mkSettings ["Archived"] [] ["archived"] "Archive" [] false true
              false)
           0 (plainNote "Archive/old.md")).
  - reflexivity.
  - right. split; reflexivity.
Defined.

(** X18.  The classifier reads its configuration up to case, surrounding
    white space and a leading [#] of the tags only: two settings whose
    property names, extra truthy values and tags agree after that
    normalisation classify every file alike. *)
Theorem shouldArchive_reads_normal_forms (s1 s2 : AutoArchiverSettings)
    (file : TFile) :
  map norm (propertyNames s1) = map norm (propertyNames s2) ->
  map norm (extraTruthyValues s1) = map norm (extraTruthyValues s2) ->
  map (fun x => norm (stripHash x)) (tags s1)
  = map (fun x => norm (stripHash x)) (tags s2) ->
  shouldArchive s1 file = shouldArchive s2 file.
Proof.
  intros Hprops Hextra Htags. unfold shouldArchive.
  rewrite Hprops.
  rewrite (fold_setAdd_map (fun x => norm (stripHash x)) (tags s1)).
  rewrite (fold_setAdd_map (fun x => norm (stripHash x)) (tags s2)).
  rewrite Htags.
  assert (Hlen : List.length (tags s1) = List.length (tags s2)).
  { rewrite <- (length_map (fun x => norm (stripHash x)) (tags s1)).
    rewrite Htags. apply length_map. }
  rewrite Hlen.
  destruct (cache file) as [c|]; [|reflexivity].
  destruct (frontmatter c) as [fm|]; [|reflexivity].
  rewrite (existsb_pointwise
             (fun k => arrayIncludes (map norm (propertyNames s2)) (norm k)
                       && isTruthy s1 (getProp fm k))
             (fun k => arrayIncludes (map norm (propertyNames s2)) (norm k)
                       && isTruthy s2 (getProp fm k))).
  - reflexivity.
  - intros k. now rewrite (isTruthy_ext s1 s2 _ Hextra).
Qed.

Lemma shouldArchive_reads_normal_forms_witness :
  shouldArchive
    (mkSettings [" ARCHIVED "] ["Yes"] ["#Archived"] "Archive" [] false true
       true)
    (archivedNote "Task/a.md")
  = shouldArchive
      (mkSettings ["archived"] ["yes"] ["archived"] "Vault/Old" ["Daily"]
         true false false)
      (archivedNote "Task/a.md").
Proof.
  apply (shouldArchive_reads_normal_forms
           (mkSettings [" ARCHIVED "] ["Yes"] ["#Archived"] "Archive" []
              false true true)
           (mkSettings ["archived"] ["yes"] ["archived"] "Vault/Old"
              ["Daily"] true false false)
           (archivedNote "Task/a.md")); reflexivity.
Defined.

(* ================================================================== *)
(** * Further properties: the tags of a file *)

Section TagsOfAFile.

(** The pieces of a split, each with what surrounds it. *)
Lemma splitOn_tokens (d : ascii -> bool) (s : string) :
  exists h t,
    splitOn d s = h :: t
    /\ (exists post,
          s = h ++ post
          /\ (post = "" \/ exists c q, post = String c q /\ d c = true))
    /\ Forall (fun tok =>
                 exists pre post,
                   s = pre ++ tok ++ post
                   /\ (exists p c, pre = p ++ String c "" /\ d c = true)
                   /\ (post = "" \/ exists c q, post = String c q /\ d c = true))
              t.
Proof.
  induction s as [|c s IH].
  - exists "", []. split; [reflexivity|]. split; [|constructor].
    exists "". split; [reflexivity | now left].
  - destruct IH as (h & t & Hsplit & (post & Hs & Hpost) & Hall).
    assert (Htail : Forall (fun tok =>
                 exists pre post0,
                   String c s = pre ++ tok ++ post0
                   /\ (exists p c0, pre = p ++ String c0 "" /\ d c0 = true)
                   /\ (post0 = ""
                       \/ exists c0 q, post0 = String c0 q /\ d c0 = true))
              t).
    { eapply Forall_impl; [|exact Hall]. cbn beta.
      intros tok (pre & post0 & Htok & (p0 & c0 & Hpre & Hc0) & Hpost0).
      exists (String c pre), post0. split; [cbn [append]; now rewrite <- Htok|].
      split; [|exact Hpost0].
      exists (String c p0), c0. split; [now rewrite Hpre | exact Hc0]. }
    cbn [splitOn]. rewrite Hsplit. destruct (d c) eqn:Hc.
    + exists "", (h :: t). split; [reflexivity|]. split.
      * exists (String c s). split; [reflexivity|]. right. now exists c, s.
      * constructor; [|exact Htail].
        exists (String c ""), post. split; [cbn [append]; now rewrite <- Hs|].
        split; [|exact Hpost]. now exists "", c.
    + exists (String c h), t. split; [reflexivity|]. split; [|exact Htail].
      exists post. split; [cbn [append]; now rewrite <- Hs | exact Hpost].
Qed.

Lemma fields_tokens (d : ascii -> bool) (s tok : string) :
  In tok (fields d s) <-> isToken d s tok.
Proof.
  unfold fields, isToken. rewrite filter_In. split.
  - intros [Hin Hne]. split; [exact Hne|]. split.
    { pose proof (splitOn_segments d s) as Hseg.
      rewrite Forall_forall in Hseg. now apply Hseg. }
    destruct (splitOn_tokens d s)
      as (h & t & Hsplit & (post & Hs & Hpost) & Hall).
    rewrite Hsplit in Hin. destruct Hin as [<- | Hin].
    + exists "", post. split; [exact Hs|]. split; [now left | exact Hpost].
    + rewrite Forall_forall in Hall.
      destruct (Hall _ Hin) as (pre & post0 & Htok & Hpre & Hpost0).
      exists pre, post0. split; [exact Htok|]. split; [now right | exact Hpost0].
  - intros (Hne & Hclean & pre & post & Hs & Hpre & Hpost).
    split; [|exact Hne].
    assert (Hhead : exists rest, splitOn d (tok ++ post) = tok :: rest).
    { destruct Hpost as [-> | (c & q & -> & Hc)].
      - rewrite append_empty_r, (splitOn_no_delim d tok Hclean). now exists [].
      - rewrite (splitOn_app d tok q c Hc), (splitOn_no_delim d tok Hclean).
        now exists (splitOn d q). }
    destruct Hhead as (rest & Hhead).
    destruct Hpre as [-> | (p0 & c & -> & Hc)].
    + rewrite Hs. cbn [append]. rewrite Hhead. now left.
    + rewrite Hs, append_assoc. cbn [append].
      rewrite (splitOn_app d p0 (tok ++ post) c Hc), Hhead.
      apply in_or_app. right. now left.
Qed.

(** What is in the set after a loop was put there by one of its steps,
    or was there before. *)
Lemma fold_left_inv {A : Type} (step : list string -> A -> list string)
    (puts : A -> string -> Prop) :
  (forall acc a x, In x (step acc a) -> In x acc \/ puts a x) ->
  forall l acc x,
    In x (fold_left step l acc) -> In x acc \/ exists a, In a l /\ puts a x.
Proof.
  intros Hstep l. induction l as [|a l IH]; intros acc x H; [now left|].
  cbn [fold_left] in H. apply IH in H as [H | (b & Hb & Hput)].
  - apply Hstep in H as [H | H]; [now left | right].
    exists a. split; [now left | exact H].
  - right. exists b. split; [now right | exact Hput].
Qed.

(** An inline entry puts into the set what it stands for, normalised. *)
Lemma inline_step_inv (acc : list string) (t : JsValue) (x : string) :
  In x match nullish match t with
                     | JObj o => getProp o "tag"
                     | _ => JUndefined
                     end (JStr "") with
       | JStr raw => setAdd (norm (stripHash raw)) acc
       | _ => acc
       end ->
  In x acc \/ exists raw, inlineRaw t raw /\ norm (stripHash raw) = x.
Proof.
  assert (Hempty : (forall o, t = JObj o ->
                      getProp o "tag" = JUndefined \/ getProp o "tag" = JNull) ->
                   In x (setAdd (norm (stripHash "")) acc) ->
                   In x acc
                   \/ exists raw, inlineRaw t raw /\ norm (stripHash raw) = x).
  { intros Hno H. apply setAdd_In in H as [-> | H]; [right | now left].
    exists "". split; [right; now split | reflexivity]. }
  destruct t as [| |b|n|s|items|o]; cbn [nullish];
    try (apply Hempty; intros o' E; discriminate E).
  destruct (getProp o "tag") as [| |b|n|s|items|o'] eqn:Etag; cbn [nullish];
    try (intros H; now left).
  - apply Hempty. intros o' E. injection E as <-. now left.
  - apply Hempty. intros o' E. injection E as <-. now right.
  - intros H. apply setAdd_In in H as [-> | H]; [right | now left].
    exists s. split; [left; now exists o | reflexivity].
Qed.

Lemma inline_step_adds (acc : list string) (t : JsValue) (raw : string) :
  inlineRaw t raw ->
  In (norm (stripHash raw))
     match nullish match t with
                   | JObj o => getProp o "tag"
                   | _ => JUndefined
                   end (JStr "") with
     | JStr raw' => setAdd (norm (stripHash raw')) acc
     | _ => acc
     end.
Proof.
  intros [(o & -> & Htag) | (-> & Hno)].
  - rewrite Htag. cbn [nullish]. apply setAdd_In. now left.
  - destruct t as [| |b|n|s|items|o]; cbn [nullish];
      try (apply setAdd_In; now left).
    destruct (Hno o eq_refl) as [-> | ->]; cbn [nullish];
      apply setAdd_In; now left.
Qed.

(** The tags [shouldArchive] collects are the raw tags of the file, each
    without its leading [#], trimmed and lower-cased. *)
Lemma fileTagSet_exact (file : TFile) (x : string) :
  In x (fileTagSet file)
  <-> exists raw, hasRawTag file raw /\ norm (stripHash raw) = x.
Proof.
  unfold fileTagSet, hasRawTag.
  destruct (cache file) as [c|];
    [| split; [intros [] | intros (raw & (c & E & _) & _); discriminate E]].
  split.
  - intros H. unfold tagSetOf in H.
    apply (fold_left_inv _
             (fun t y => exists raw, inlineRaw t raw
                                     /\ norm (stripHash raw) = y)
             (fun acc t y => inline_step_inv acc t y)) in H.
    destruct H as [H | (t & Ht & raw & Hraw & <-)].
    + destruct (frontmatter c) as [fm|] eqn:Efm; [|contradiction H].
      destruct (getProp fm "tags") as [| |b|n|s|items|o] eqn:Etags;
        try contradiction H.
      * apply fold_setAdd_inv in H as [[] | (tok & Htok & <-)].
        exists tok. split; [|reflexivity].
        exists c. split; [reflexivity|]. left.
        exists fm, s. split; [auto|]. split; [auto|].
        now apply fields_tokens.
      * apply (fold_left_inv _
                 (fun t y => exists raw, t = JStr raw
                                         /\ norm (stripHash raw) = y)) in H.
        -- destruct H as [[] | (t & Ht & raw & -> & <-)].
           exists raw. split; [|reflexivity].
           exists c. split; [reflexivity|]. right. left.
           now exists fm, items.
        -- intros acc t y Hy. destruct t; try (now left).
           apply setAdd_In in Hy as [-> | Hy]; [right | now left].
           eauto.
    + destruct (tagCache c) as [inline|] eqn:Einline; [|contradiction Ht].
      exists raw. split; [|reflexivity].
      exists c. split; [reflexivity|]. right. right.
      now exists inline, t.
  - intros (raw & (c' & E & Hraw) & <-). injection E as <-.
    destruct Hraw as [(fm & s & Hfm & Htags & Htok)
                     | [(fm & items & Hfm & Htags & Hin)
                       | (inline & t & Hinline & Hin & Hraw)]].
    + rewrite Hfm. apply tagSetOf_string with (s := s); [exact Htags|].
      now apply fields_tokens.
    + rewrite Hfm. now apply tagSetOf_array with (items := items).
    + rewrite Hinline. unfold tagSetOf.
      apply fold_left_adds with (a := t); [| exact Hin |].
      * intros acc a y Hy.
        destruct (nullish match a with JObj o' => getProp o' "tag"
                                  | _ => JUndefined end (JStr ""));
          try exact Hy.
        apply setAdd_In. now right.
      * intros acc'. now apply inline_step_adds.
Qed.

End TagsOfAFile.

(** X5.  [shouldArchive] is true exactly when some frontmatter key whose
    trimmed, lower-cased name is that of a configured property has a truthy
    value, or some configured tag equals a raw tag of the file once both
    have lost a leading [#] and are trimmed and lower-cased.  The raw tags
    of a file are the non-empty pieces of a frontmatter [tags] string
    between commas and white space, the strings among the items of a
    frontmatter [tags] array (other items are passed over), and the [tag]
    of every inline entry, an entry without [tag] counting as the empty
    tag.  A file without cached metadata is never to be archived, and
    neither is any file when no property and no tag is configured. *)
Theorem shouldArchive_exact (settings : AutoArchiverSettings) (file : TFile) :
  (shouldArchive settings file = true
   <-> (exists c fm k,
          cache file = Some c /\ frontmatter c = Some fm
          /\ In k (map fst fm)
          /\ In (norm k) (map norm (propertyNames settings))
          /\ isTruthy settings (getProp fm k) = true)
       \/ (exists trigger raw,
             In trigger (tags settings)
             /\ hasRawTag file raw
             /\ norm (stripHash raw) = norm (stripHash trigger)))
  /\ (cache file = None -> shouldArchive settings file = false)
  /\ (propertyNames settings = [] -> tags settings = [] ->
      shouldArchive settings file = false).
Proof.
  assert (Hiff :
    shouldArchive settings file = true
    <-> (exists c fm k,
           cache file = Some c /\ frontmatter c = Some fm
           /\ In k (map fst fm)
           /\ In (norm k) (map norm (propertyNames settings))
           /\ isTruthy settings (getProp fm k) = true)
        \/ (exists trigger raw,
              In trigger (tags settings)
              /\ hasRawTag file raw
              /\ norm (stripHash raw) = norm (stripHash trigger))).
  { split.
    - unfold shouldArchive.
      match goal with
      | |- (if ?b then _ else _) = _ -> _ => destruct b eqn:Eprop
      end.
      + intros _. left.
        destruct (cache file) as [c|]; [|discriminate].
        destruct (frontmatter c) as [fm|] eqn:Efm; [|discriminate].
        apply andb_true_iff in Eprop as [_ Eprop].
        apply existsb_exists in Eprop as (k & Hk & Hhit).
        apply andb_true_iff in Hhit as [Hname Htrue].
        apply arrayIncludes_In in Hname.
        exists c, fm, k. repeat split; auto.
      + destruct (negb (List.length (tags settings) =? 0)%nat);
          [|discriminate].
        intros H. right.
        apply existsb_exists in H as (tg & Htg & Hhit).
        apply arrayIncludes_In in Hhit.
        apply fold_setAdd_inv in Hhit as [[] | (trigger & Htrig & <-)].
        apply (fileTagSet_exact file) in Htg as (raw & Hraw & E).
        now exists trigger, raw.
    - intros [(c & fm & k & Hc & Hfm & Hk & Hname & Htrue)
             | (trigger & raw & Htrig & Hraw & E)].
      + now apply shouldArchive_by_property with (c := c) (fm := fm) (k := k).
      + apply shouldArchive_by_tag
          with (x := norm (stripHash trigger)) (trigger := trigger);
          [exact Htrig | reflexivity|].
        apply (fileTagSet_exact file). now exists raw. }
  split; [exact Hiff|]. split.
  - intros Hnone.
    destruct (shouldArchive settings file) eqn:E; [|reflexivity].
    destruct (proj1 Hiff eq_refl)
      as [(c & fm & k & Hc & _) | (trigger & raw & _ & (c & Hc & _) & _)];
      congruence.
  - intros Hprops Htags.
    destruct (shouldArchive settings file) eqn:E; [|reflexivity].
    destruct (proj1 Hiff eq_refl)
      as [(c & fm & k & _ & _ & _ & Hname & _) | (trigger & raw & Htrig & _)].
    + rewrite Hprops in Hname. contradiction Hname.
    + rewrite Htags in Htrig. contradiction Htrig.
Qed.

Lemma shouldArchive_exact_witness :
  shouldArchive DEFAULT_SETTINGS (plainNote "Task/a.md") = false
  /\ shouldArchive (mkSettings [] [] [] "Archive" [] false true true)
       (archivedNote "Task/a.md") = false.
Proof.
  split.
  - apply (proj1 (proj2 (shouldArchive_exact DEFAULT_SETTINGS
                           (plainNote "Task/a.md")))).
    reflexivity.
  - apply (proj2 (proj2 (shouldArchive_exact
                           (mkSettings [] [] [] "Archive" [] false true true)
                           (archivedNote "Task/a.md")))); reflexivity.
Defined.

(* ================================================================== *)
(** * Twice in succession *)

Section PathSuffixes.

(** ** What [normalizePath] leaves of the end of a path *)

Lemma collapseSeps_inert (t : string) : inert t = true -> collapseSeps t = t.
Proof.
  induction t as [|c t IH]; [reflexivity|].
  cbn [inert collapseSeps]. intros H. apply andb_true_iff in H as [Hc H].
  unfold inertChar in Hc. apply andb_true_iff in Hc as [Hc _].
  apply andb_true_iff in Hc as [Hs Hb]. apply negb_true_iff in Hs, Hb.
  unfold isSep. unfold isSlash in Hs. rewrite Hs, Hb. cbn [orb].
  now rewrite IH.
Qed.

Lemma inert_head (c : ascii) (t : string) :
  inert (String c t) = true -> isSep c = false /\ isSlash c = false.
Proof.
  cbn [inert]. intros H. apply andb_true_iff in H as [Hc _].
  unfold inertChar in Hc. apply andb_true_iff in Hc as [Hc _].
  apply andb_true_iff in Hc as [Hs Hb]. apply negb_true_iff in Hs, Hb.
  split; [|exact Hs]. unfold isSep. unfold isSlash in Hs. now rewrite Hs, Hb.
Qed.

Lemma collapseSeps_suffix (s t : string) :
  inert t = true -> nonEmpty t = true ->
  collapseSeps (s ++ t) = collapseSeps s ++ t.
Proof.
  intros Ht Hne. destruct t as [|c t]; [discriminate|].
  destruct (inert_head c t Ht) as [Hc _].
  induction s as [|x s IH]; [now apply collapseSeps_inert|].
  cbn [append collapseSeps]. destruct (isSep x).
  - destruct s as [|y s].
    + cbn [append]. rewrite Hc. cbn [append] in IH. now rewrite IH.
    + cbn [append] in *. destruct (isSep y); [exact IH|].
      cbn [append]. now rewrite IH.
  - cbn [append]. now rewrite IH.
Qed.

Lemma dropWhile_suffix (s t : string) :
  inert t = true -> nonEmpty t = true ->
  dropWhile isSlash (s ++ t) = dropWhile isSlash s ++ t.
Proof.
  intros Ht Hne. destruct t as [|c t]; [discriminate|].
  destruct (inert_head c t Ht) as [_ Hc].
  induction s as [|x s IH]; cbn [append dropWhile].
  - now rewrite Hc.
  - destruct (isSlash x); [exact IH | reflexivity].
Qed.

Lemma dropWhileEnd_inert (t : string) :
  inert t = true -> dropWhileEnd isSlash t = t.
Proof.
  induction t as [|c t IH]; [reflexivity|].
  intros Ht. destruct (inert_head c t Ht) as [_ Hc].
  cbn [inert] in Ht. apply andb_true_iff in Ht as [_ Ht].
  cbn [dropWhileEnd]. rewrite (IH Ht), Hc. now destruct t.
Qed.

Lemma dropWhileEnd_suffix (s t : string) :
  inert t = true -> nonEmpty t = true ->
  dropWhileEnd isSlash (s ++ t) = s ++ t.
Proof.
  intros Ht Hne. induction s as [|x s IH];
    [now apply dropWhileEnd_inert|].
  cbn [append dropWhileEnd]. rewrite IH.
  destruct (s ++ t) eqn:E; [|reflexivity].
  destruct s; [cbn [append] in E; subst t; discriminate | discriminate].
Qed.

Lemma unNbsp_suffix (s t : string) :
  inert t = true -> mapChars unNbsp (s ++ t) = mapChars unNbsp s ++ t.
Proof.
  intros Ht. induction s as [|x s IH]; cbn [append mapChars].
  - induction t as [|c t IHt]; [reflexivity|].
    cbn [inert] in Ht. apply andb_true_iff in Ht as [Hc Ht].
    unfold inertChar in Hc. apply andb_true_iff in Hc as [_ Hn].
    apply negb_true_iff in Hn. cbn [mapChars]. unfold unNbsp at 1.
    now rewrite Hn, IHt.
  - now rewrite IH.
Qed.

(** An end of a path that holds no separator and no no-break space is
    the end of its normal form. *)
Lemma normalizePath_suffix (s t : string) :
  inert t = true -> nonEmpty t = true ->
  normalizePath (s ++ t)
  = mapChars unNbsp (dropWhile isSlash (collapseSeps s)) ++ t.
Proof.
  intros Ht Hne. unfold normalizePath.
  rewrite (collapseSeps_suffix s t Ht Hne).
  rewrite (dropWhile_suffix _ t Ht Hne).
  rewrite (dropWhileEnd_suffix _ t Ht Hne).
  rewrite <- (unNbsp_suffix _ t Ht).
  destruct (dropWhile isSlash (collapseSeps s) ++ t) eqn:E; [|reflexivity].
  destruct (dropWhile isSlash (collapseSeps s));
    [cbn [append] in E; subst t; discriminate | discriminate].
Qed.

(** ** The cut at the last dot *)

Lemma lastIndexOf_hit (a b : string) (c : ascii) :
  0 <= lastIndexOf (a ++ String c b) c.
Proof.
  induction a as [|x a IH]; cbn [append lastIndexOf].
  - pose proof (lastIndexOf_range b c).
    destruct (0 <=? lastIndexOf b c) eqn:E; [lia|].
    now rewrite Ascii.eqb_refl.
  - destruct (0 <=? lastIndexOf (a ++ String c b) c) eqn:E; lia.
Qed.

Lemma last_cut_unique (a a' b b' : string) (c : ascii) :
  a ++ String c b = a' ++ String c b' ->
  lastIndexOf b c = -1 -> lastIndexOf b' c = -1 ->
  a = a' /\ b = b'.
Proof.
  revert a'. induction a as [|x a IH]; intros [|x' a'] H Hb Hb';
    cbn [append] in H.
  - injection H as ->. now split.
  - injection H as _ H. pose proof (lastIndexOf_hit a' b' c) as Hhit.
    rewrite <- H in Hhit. lia.
  - injection H as _ H. pose proof (lastIndexOf_hit a b c) as Hhit.
    rewrite H in Hhit. lia.
  - injection H as -> H. destruct (IH a' H Hb Hb') as [-> ->]. now split.
Qed.

(** A path that ends in a dot and a dot-free extension is cut there. *)
Lemma splitExt_of_name (a e : string) :
  endsWithChar (a ++ "." ++ e) slash = false ->
  lastIndexOf e "."%char = -1 ->
  splitExt (a ++ "." ++ e) = (a, "." ++ e).
Proof.
  intros Hend He.
  destruct (splitExt_cut (a ++ "." ++ e)) as [_ Hsome].
  destruct Hsome as (stem & rest & Heq & Hrest & Hsplit); [|exact Hend|].
  - pose proof (lastIndexOf_hit a e "."%char) as Hhit.
    cbn [append] in *. lia.
  - cbn [append] in Heq.
    destruct (last_cut_unique _ _ _ _ _ Heq He Hrest) as [<- <-].
    exact Hsplit.
Qed.

Lemma candidate_shape (a b : string) (i : nat) :
  isNormalized (a ++ b) = true -> isNormalized (candidate a b i) = true.
Proof.
  intros H. unfold candidate, isNormalized.
  replace (a ++ " (" ++ showNat i ++ ")" ++ b)
    with (a ++ (" (" ++ showNat i ++ ")") ++ b).
  - apply pathShape_insert; [apply inert_suffix | reflexivity | exact H].
  - cbn [append]. now rewrite append_assoc.
Qed.

(** ** Counting the segments of a path *)

Lemma segments_app (d : ascii -> bool) (a b : string) :
  (List.length (splitOn d (a ++ b)) + 1
   = List.length (splitOn d a) + List.length (splitOn d b))%nat.
Proof.
  induction a as [|c a IH]; cbn [append splitOn].
  - cbn [List.length]. lia.
  - destruct (d c); [cbn [List.length]; lia|].
    pose proof (splitOn_not_nil d (a ++ b)).
    pose proof (splitOn_not_nil d a).
    destruct (splitOn d (a ++ b)), (splitOn d a); try contradiction.
    cbn [List.length] in *. lia.
Qed.

Lemma segments_inert (m : string) :
  inert m = true -> List.length (splitOn isSlash m) = 1%nat.
Proof.
  intros H. rewrite splitOn_no_delim; [reflexivity|].
  induction m as [|c m IH]; [reflexivity|].
  destruct (inert_head c m H) as [_ Hc].
  cbn [inert] in H. apply andb_true_iff in H as [_ H].
  cbn [allChars]. now rewrite Hc, IH.
Qed.

Lemma segments_candidate (a b : string) (k : nat) :
  List.length (splitOn isSlash (candidate a b k))
  = List.length (splitOn isSlash (a ++ b)).
Proof.
  unfold candidate.
  replace (a ++ " (" ++ showNat k ++ ")" ++ b)
    with (a ++ (" (" ++ showNat k ++ ")") ++ b)
    by (cbn [append]; now rewrite append_assoc).
  pose proof (segments_app isSlash a ((" (" ++ showNat k ++ ")") ++ b)).
  pose proof (segments_app isSlash (" (" ++ showNat k ++ ")") b).
  pose proof (segments_inert _ (inert_suffix k)).
  pose proof (segments_app isSlash a b).
  lia.
Qed.

Lemma segments_below (r rest : string) :
  (List.length (splitOn isSlash rest)
   < List.length (splitOn isSlash (r ++ "/" ++ rest)))%nat.
Proof.
  change (r ++ "/" ++ rest) with (r ++ String slash rest).
  rewrite (splitOn_app isSlash r rest slash eq_refl), List.length_app.
  pose proof (splitOn_not_nil isSlash r).
  destruct (splitOn isSlash r); [contradiction | cbn [List.length]; lia].
Qed.

End PathSuffixes.

Section TwiceInSuccession.

Variable host : Host.
Variable fuel : nat.
Variable settings : AutoArchiverSettings.

(** What [resolveCollision] answers is the target or one of its
    candidates, in normal form. *)
Lemma probe_result (n : nat) (base ext : string) (i : nat) (v v' : Vault)
    (dest : string) :
  probe n base ext i v = Ok dest v' ->
  exists k, dest = normalizePath (candidate base ext k).
Proof.
  revert i. induction n as [|n IH]; intros i; [discriminate|].
  cbn [probe]. unfold bind, adapterExists.
  destruct (arrayIncludes (entries v) (normalizePath (candidate base ext i))).
  - apply IH.
  - intros H. injection H as <- _. now exists i.
Qed.

Lemma resolveCollision_result (target dest : string) (v v' : Vault) :
  resolveCollision fuel target v = Ok dest v' ->
  dest = normalizePath target
  \/ exists k,
       dest = normalizePath
                (candidate (fst (splitExt (normalizePath target)))
                           (snd (splitExt (normalizePath target))) k).
Proof.
  unfold resolveCollision, bind, adapterExists.
  destruct (arrayIncludes (entries v) (normalizePath target)); cbn [negb].
  - destruct (splitExt (normalizePath target)) as [base ext]. cbn [fst snd].
    intros H. right. exact (probe_result _ _ _ _ _ _ _ H).
  - intros H. injection H as <- _. now left.
Qed.

(** Resolve, move, tell: the file object ends up at the resolved path. *)
Lemma move_Ok_dest (mk : string -> NoticeText) (fid : nat) (file : TFile)
    (target : string) (v v1 : Vault) :
  nth_error (files v) fid = Some file ->
  (dest <- resolveCollision fuel target ;;
   renameFile host fid dest ;;;
   when (showNotice settings) (emit (Notice (mk dest) 2500))) v = Ok tt v1 ->
  exists dest v0,
    resolveCollision fuel target v = Ok dest v0
    /\ nth_error (files v1) fid
       = Some {| path := dest; extension := extension file;
                 cache := cache file |}.
Proof.
  intros Hf Hrun.
  apply bind_Ok_inv in Hrun as (dest & v0 & Hres & Hrun).
  exists dest, v0. split; [exact Hres|].
  pose proof (resolveCollision_vault fuel target v) as Hsame.
  rewrite Hres in Hsame. subst v0.
  apply bind_Ok_inv in Hrun as ([] & v2 & Hmove & Hrun).
  unfold renameFile in Hmove. rewrite Hf in Hmove.
  destruct (renameFileError host v file dest); [discriminate|].
  injection Hmove as <-.
  assert (Hfiles : files v1
                   = updateNth fid {| path := dest;
                                      extension := extension file;
                                      cache := cache file |} (files v)).
  { unfold when in Hrun. destruct (showNotice settings).
    - unfold emit in Hrun. now injection Hrun as <-.
    - now injection Hrun as <-. }
  rewrite Hfiles. now apply nth_error_updateNth with (x := file).
Qed.

(** Archiving a markdown file ends inside the archive root, also when the
    target was taken: the counter goes into the file name. *)
Lemma archive_dest_inside (file : TFile) (stem dest : string) (v v' : Vault) :
  archiveRootPath settings <> "" ->
  path file = stem ++ ".md" ->
  resolveCollision fuel (full (buildArchiveTarget settings file)) v
  = Ok dest v' ->
  isInArchive settings dest = true.
Proof.
  intros Hroot Hpath Hres.
  pose proof (normalizePath_suffix stem ".md" eq_refl eq_refl) as Hnp.
  rewrite <- Hpath in Hnp.
  set (stem' := mapChars unNbsp (dropWhile isSlash (collapseSeps stem))) in *.
  assert (Np : isNormalized (normalizePath (path file)) = true).
  { destruct (normalizePath_shape (path file)) as [E | N]; [|exact N].
    rewrite E in Hnp. apply (f_equal String.length) in Hnp.
    rewrite length_app in Hnp. cbn [String.length] in Hnp. lia. }
  pose proof (archiveRootPath_normal settings Hroot) as Nroot.
  pose proof (buildArchiveTarget_normal settings file Hroot Np) as Hfull.
  assert (Nfull : isNormalized (full (buildArchiveTarget settings file))
                  = true).
  { rewrite Hfull, isNormalized_join. now rewrite Nroot, Np. }
  apply resolveCollision_result in Hres.
  rewrite (normalizePath_id _ Nfull) in Hres.
  destruct Hres as [-> | (k & ->)].
  - rewrite Hfull. now apply isInArchive_under.
  - assert (Hcut : splitExt (full (buildArchiveTarget settings file))
                   = (archiveRootPath settings ++ "/" ++ stem', ".md")).
    { rewrite Hfull, Hnp.
      replace (archiveRootPath settings ++ "/" ++ stem' ++ ".md")
        with ((archiveRootPath settings ++ "/" ++ stem') ++ "." ++ "md")
        by now rewrite !append_assoc.
      apply splitExt_of_name; [|reflexivity].
      apply normal_form_end with (n := false) (g := true).
      replace ((archiveRootPath settings ++ "/" ++ stem') ++ "." ++ "md")
        with (archiveRootPath settings ++ "/" ++ stem' ++ ".md")
        by now rewrite !append_assoc.
      rewrite <- Hnp, <- Hfull. exact Nfull. }
    rewrite Hcut. cbn [fst snd].
    rewrite candidate_normal.
    + unfold candidate. rewrite !append_assoc.
      apply (isInArchive_under settings _ Hroot).
      apply (candidate_shape stem' ".md" k). now rewrite <- Hnp.
    + replace ((archiveRootPath settings ++ "/" ++ stem') ++ ".md")
        with (archiveRootPath settings ++ "/" ++ stem' ++ ".md")
        by now rewrite !append_assoc.
      rewrite <- Hnp, <- Hfull. exact Nfull.
Qed.

(** Unarchiving never answers the path the file is at: what it answers
    has fewer segments. *)
Lemma unarchive_dest_differs (file : TFile) (t : Target) (dest : string)
    (v v' : Vault) :
  archiveRootPath settings <> "" ->
  buildUnarchiveTarget settings file = Some t ->
  resolveCollision fuel (full t) v = Ok dest v' ->
  dest <> path file.
Proof.
  intros Hroot Ht Hres Heq.
  destruct (buildUnarchiveTarget_inv settings file t Hroot Ht)
    as (rest & Nrest & Hrest).
  destruct (buildUnarchiveTarget_under settings file rest Hroot Nrest Hrest)
    as (d & Ht' & _).
  rewrite Ht in Ht'. injection Ht' as ->. cbn [full] in Hres.
  apply resolveCollision_result in Hres.
  rewrite (normalizePath_id _ Nrest) in Hres.
  pose proof (segments_below (archiveRootPath settings) rest) as Hlt.
  rewrite <- Hrest, <- Heq in Hlt.
  destruct Hres as [-> | (k & ->)].
  - rewrite (normalizePath_id _ Nrest) in Hlt. lia.
  - pose proof (splitExt_parts rest) as Hparts.
    rewrite normalizePath_idempotent in Hlt.
    rewrite candidate_normal in Hlt by now rewrite Hparts.
    rewrite segments_candidate, Hparts in Hlt. lia.
Qed.

(** After a completed call without dry run, a second call does nothing,
    unless the first one restored the file to a place inside the archive
    root. *)
Lemma processFile_twice (fid : nat) (file : TFile) (v v1 : Vault) :
  archiveRootPath settings <> "" ->
  dryRun settings = false ->
  nth_error (files v) fid = Some file ->
  nameCarriesExtension file ->
  processFile host fuel settings fid v = Ok tt v1 ->
  (forall file1,
     nth_error (files v1) fid = Some file1 ->
     path file1 <> path file ->
     shouldArchive settings file = false ->
     isInArchive settings (path file1) = false) ->
  processFile host fuel settings fid v1 = Ok tt v1.
Proof.
  intros Hroot Hdry Hf (stem & Hname) Hrun Hout.
  pose proof Hrun as Hrun0.
  unfold processFile in Hrun.
  rewrite (bind_Ok (readFile fid) _ v v file) in Hrun;
    [| unfold readFile; now rewrite Hf].
  rewrite Hdry in Hrun.
  destruct (String.eqb_spec (extension file) "md") as [Eext|_];
    cbn [negb] in Hrun; [| injection Hrun as <-; exact Hrun0].
  rewrite Eext in Hname.
  destruct (isExcluded settings (path file));
    [injection Hrun as <-; exact Hrun0|].
  destruct (shouldArchive settings file) eqn:Ewant;
    destruct (isInArchive settings (path file)) eqn:Ein;
    cbn [negb andb] in Hrun.
  - injection Hrun as <-; exact Hrun0.
  - (* archived by the first call *)
    apply bind_Ok_inv in Hrun as ([] & va & Hdir & Hrun).
    pose proof (ensureFolderExists_files host
                  (dir (buildArchiveTarget settings file)) v) as Hfiles.
    rewrite Hdir in Hfiles. rewrite <- Hfiles in Hf.
    destruct (move_Ok_dest _ fid file _ va v1 Hf Hrun)
      as (dest & v0 & Hres & Hf1).
    apply processFile_settled with (file := _) (1 := Hf1).
    cbn [path].
    rewrite (archive_dest_inside file stem dest va v0 Hroot Hname Hres).
    rewrite <- Ewant. now apply shouldArchive_cache.
  - (* unarchived by the first call *)
    destruct (unarchiveOnMissingAll settings);
      [| injection Hrun as <-; exact Hrun0].
    destruct (buildUnarchiveTarget settings file) as [t|] eqn:Et;
      [| injection Hrun as <-; exact Hrun0].
    apply bind_Ok_inv in Hrun as ([] & va & Hdir & Hrun).
    assert (Hfiles : files va = files v).
    { unfold when in Hdir. destruct (nonEmpty (dir t)).
      - pose proof (ensureFolderExists_files host (dir t) v) as H.
        now rewrite Hdir in H.
      - now injection Hdir as <-. }
    rewrite <- Hfiles in Hf.
    destruct (move_Ok_dest _ fid file _ va v1 Hf Hrun)
      as (dest & v0 & Hres & Hf1).
    assert (Hd : isInArchive settings dest = false).
    { apply (Hout _ Hf1); [|reflexivity]. cbn [path].
      exact (unarchive_dest_differs file t dest va v0 Hroot Et Hres). }
    apply processFile_settled with (file := _) (1 := Hf1).
    cbn [path]. rewrite Hd, <- Ewant. now apply shouldArchive_cache.
  - injection Hrun as <-; exact Hrun0.
Qed.

End TwiceInSuccession.

(** C4 (amended).  Idempotence: let a first [processFile] complete on a
    document (a file object whose extension is the end of its name), under
    an archive root that is not empty after normalisation, and let the
    path to which it has restored an unmarked document, if it did, lie
    outside the archive root.  Then a second call with the same metadata
    moves nothing and creates nothing; without dry run it has no effect at
    all (with dry run it only repeats its report).  Whether the first call
    moved the document, and whether it had to resolve a collision, makes
    no difference. *)
Theorem processFile_idempotent (host : Host) (fuel : nat)
    (settings : AutoArchiverSettings) (fid : nat) (file : TFile)
    (v v1 : Vault) :
  archiveRootPath settings <> "" ->
  nth_error (files v) fid = Some file ->
  nameCarriesExtension file ->
  processFile host fuel settings fid v = Ok tt v1 ->
  (forall file1,
     nth_error (files v1) fid = Some file1 ->
     path file1 <> path file ->
     shouldArchive settings file = false ->
     isInArchive settings (path file1) = false) ->
  exists v2,
    processFile host fuel settings fid v1 = Ok tt v2
    /\ files v2 = files v1
    /\ entries v2 = entries v1
    /\ filter isMutation (trace v2) = filter isMutation (trace v1)
    /\ (dryRun settings = false -> v2 = v1).
Proof.
  intros Hroot Hf Hname Hrun Hout.
  destruct (dryRun settings) eqn:Hdry.
  - destruct (processFile_dry_run_frame host fuel settings fid file v
                Hf Hdry) as (v' & Hrun' & Hfiles & _).
    rewrite Hrun in Hrun'. injection Hrun' as <-.
    rewrite <- Hfiles in Hf.
    destruct (processFile_dry_run_frame host fuel settings fid file v1
                Hf Hdry) as (v2 & Hrun2 & Hfiles2 & Hentries2 & Htrace2).
    exists v2. repeat split; auto. discriminate.
  - exists v1. repeat split; auto.
    now apply processFile_twice with (file := file) (v := v).
Qed.

Lemma processFile_idempotent_witness :
  processFile agreeableHost 5 DEFAULT_SETTINGS 0
    {| files := [plainNote "Task/a (1).md"];
       entries := ["Task/a (1).md"; "Archive/Task"; "Archive"; "Task";
                   "Task/a.md"];
       trace := [RenameFile "Archive/Task/a.md" "Task/a (1).md";
                 Notice (UnarchivedTo "Task/a (1).md") 2500] |}
  = Ok tt
      {| files := [plainNote "Task/a (1).md"];
         entries := ["Task/a (1).md"; "Archive/Task"; "Archive"; "Task";
                     "Task/a.md"];
         trace := [RenameFile "Archive/Task/a.md" "Task/a (1).md";
                   Notice (UnarchivedTo "Task/a (1).md") 2500] |}.
Proof.
  destruct (processFile_idempotent agreeableHost 5 DEFAULT_SETTINGS 0
              (plainNote "Archive/Task/a.md")
              {| files := [plainNote "Archive/Task/a.md"];
                 entries := ["Archive/Task/a.md"; "Archive/Task"; "Archive";
                             "Task"; "Task/a.md"];
                 trace := [] |}
              {| files := [plainNote "Task/a (1).md"];
                 entries := ["Task/a (1).md"; "Archive/Task"; "Archive";
                             "Task"; "Task/a.md"];
                 trace := [RenameFile "Archive/Task/a.md" "Task/a (1).md";
                           Notice (UnarchivedTo "Task/a (1).md") 2500] |})
    as (v2 & Hrun & _ & _ & _ & Hsame).
  - vm_compute. discriminate.
  - reflexivity.
  - exists "Archive/Task/a". reflexivity.
  - reflexivity.
  - intros file1 H1 _ _. cbn [files nth_error] in H1.
    injection H1 as <-. reflexivity.
  - rewrite Hrun, (Hsame eq_refl). reflexivity.
Defined.

(* ================================================================== *)
(** * Further properties: the cut of [resolveCollision] and the
      specification's *)

Section CutOfTheSpecification.

Lemma lastIndexOf_at (a b : string) (c : ascii) :
  lastIndexOf b c = -1 ->
  lastIndexOf (a ++ String c b) c = Z.of_nat (String.length a).
Proof.
  intros Hb.
  destruct (lastIndexOf_split (a ++ String c b) c)
    as [H | (a' & b' & Heq & Hi & Hb')].
  - pose proof (lastIndexOf_hit a b c). lia.
  - destruct (last_cut_unique _ _ _ _ _ Heq Hb Hb') as [-> _]. exact Hi.
Qed.

Lemma lastIndexOf_none_app (a b : string) (c : ascii) :
  lastIndexOf a c = -1 -> lastIndexOf b c = -1 ->
  lastIndexOf (a ++ b) c = -1.
Proof.
  intros Ha Hb. induction a as [|x a IH]; [exact Hb|].
  cbn [append lastIndexOf] in *.
  pose proof (lastIndexOf_range a c).
  destruct (0 <=? lastIndexOf a c) eqn:E; [lia|].
  rewrite IH; [exact Ha|]. apply Z.leb_gt in E. lia.
Qed.

Lemma lastIndexOf_none_suffix (a b : string) (c : ascii) :
  lastIndexOf (a ++ b) c = -1 -> lastIndexOf b c = -1.
Proof.
  induction a as [|x a IH]; [auto|].
  cbn [append lastIndexOf]. intros H.
  pose proof (lastIndexOf_range (a ++ b) c).
  destruct (0 <=? lastIndexOf (a ++ b) c) eqn:E; [lia|].
  apply IH. apply Z.leb_gt in E. lia.
Qed.

Lemma sliceFrom_start (s : string) : sliceFrom s 0 = s.
Proof. exact (sliceFrom_suffix "" s). Qed.

(** The specification's cut of a path whose file name ends in a dot and a
    dot-free extension, and of a path without any dot. *)
Lemma specSplitExt_of_name (a e : string) :
  endsWithChar (a ++ "." ++ e) slash = false ->
  lastIndexOf e "."%char = -1 -> lastIndexOf e slash = -1 ->
  specSplitExt (a ++ "." ++ e) = (a, "." ++ e).
Proof.
  intros Hend He Hs. change ("." ++ e) with (String "." e) in *.
  assert (Hext : lastIndexOf (String "." e) slash = -1).
  { cbn [lastIndexOf]. now rewrite Hs. }
  destruct (lastIndexOf_split a slash) as [Ha | (d & n & -> & _ & Hn)].
  - unfold specSplitExt.
    rewrite (lastIndexOf_none_app a _ slash Ha Hext), Hend.
    change (-1 + 1) with 0. rewrite sliceFrom_start.
    rewrite (lastIndexOf_at a e "."%char He), Z.add_0_l.
    destruct (Z.eqb_spec (Z.of_nat (String.length a)) (-1)) as [E|_]; [lia|].
    cbn [orb]. now rewrite slice_prefix, sliceFrom_suffix.
  - assert (Hi : lastIndexOf ((d ++ String slash n) ++ String "." e) slash
                 = Z.of_nat (String.length d)).
    { rewrite append_assoc. cbn [append]. apply lastIndexOf_at.
      now apply lastIndexOf_none_app. }
    assert (Hname : sliceFrom ((d ++ String slash n) ++ String "." e)
                      (Z.of_nat (String.length d) + 1)
                    = n ++ String "." e).
    { rewrite append_assoc. cbn [append]. apply sliceFrom_after. }
    unfold specSplitExt.
    rewrite Hi, Hname, (lastIndexOf_at n e "."%char He), Hend.
    destruct (Z.eqb_spec (Z.of_nat (String.length n)) (-1)) as [E|_]; [lia|].
    cbn [orb].
    replace (Z.of_nat (String.length d) + 1 + Z.of_nat (String.length n))
      with (Z.of_nat (String.length (d ++ String slash n)))
      by (rewrite length_app; cbn [String.length]; lia).
    now rewrite slice_prefix, sliceFrom_suffix.
Qed.

Lemma specSplitExt_no_dot (p : string) :
  lastIndexOf p "."%char = -1 -> specSplitExt p = (p, "").
Proof.
  intros Hp. unfold specSplitExt.
  assert (Hname : lastIndexOf (sliceFrom p (lastIndexOf p slash + 1))
                    "."%char = -1).
  { destruct (lastIndexOf_split p slash) as [H | (a & b & -> & Hi & _)].
    - rewrite H. change (-1 + 1) with 0. now rewrite sliceFrom_start.
    - rewrite Hi, sliceFrom_after.
      apply lastIndexOf_none_suffix in Hp.
      now apply (lastIndexOf_none_suffix (String slash "") b) in Hp. }
  now rewrite Hname.
Qed.

End CutOfTheSpecification.

(** X19.  On a normalised target, [resolveCollision] cuts where the
    specification cuts whenever the path ends in a dot and an extension
    without dot or slash (as every target of a markdown file does), namely
    at that dot, and whenever the path has no dot at all, where both
    leave the extension empty.  A target that does not exist is returned
    unchanged; for one that exists the candidates base + " (1)" + ext,
    base + " (2)" + ext, ... are probed in increasing order and the first
    that does not exist is returned, with the vault untouched. *)
Theorem resolveCollision_agrees_with_spec (fuel : nat) (target : string)
    (v : Vault) (n : nat) :
  isNormalized target = true ->
  (forall a e,
     target = a ++ "." ++ e ->
     lastIndexOf e "."%char = -1 -> lastIndexOf e slash = -1 ->
     splitExt target = (a, "." ++ e) /\ specSplitExt target = (a, "." ++ e))
  /\ (lastIndexOf target "."%char = -1 ->
      splitExt target = (target, "") /\ specSplitExt target = (target, ""))
  /\ (arrayIncludes (entries v) target = false ->
      resolveCollision fuel target v = Ok target v)
  /\ (arrayIncludes (entries v) target = true ->
      (1 <= n <= fuel)%nat ->
      (forall k, (1 <= k < n)%nat ->
         arrayIncludes (entries v)
           (candidate (fst (splitExt target)) (snd (splitExt target)) k)
         = true) ->
      arrayIncludes (entries v)
        (candidate (fst (splitExt target)) (snd (splitExt target)) n)
      = false ->
      resolveCollision fuel target v
      = Ok (candidate (fst (splitExt target)) (snd (splitExt target)) n) v).
Proof.
  intros Hnorm.
  pose proof (normal_form_end _ _ _ Hnorm) as Hend.
  split.
  { intros a e -> He Hs. split.
    - now apply splitExt_of_name.
    - now apply specSplitExt_of_name. }
  split.
  { intros Hdot. split.
    - apply (proj1 (splitExt_cut target)). now left.
    - now apply specSplitExt_no_dot. }
  unfold resolveCollision, bind, adapterExists.
  rewrite (normalizePath_id _ Hnorm).
  split.
  - now intros ->.
  - intros -> Hn Htaken Hfree. cbn [negb].
    pose proof (splitExt_parts target) as Hparts.
    destruct (splitExt target) as [base ext]. cbn [fst snd] in *.
    assert (Hcand : forall i, normalizePath (candidate base ext i)
                              = candidate base ext i).
    { intros i. apply candidate_normal. now rewrite Hparts. }
    rewrite <- (Hcand n). apply probe_first_free; try lia.
    + intros k Hk. rewrite Hcand. apply Htaken. lia.
    + now rewrite Hcand.
Qed.

Lemma resolveCollision_agrees_with_spec_witness :
  resolveCollision 5 "Archive/notes.v2/TASK-1.md"
    {| files := [];
       entries := ["Archive/notes.v2/TASK-1.md";
                   "Archive/notes.v2/TASK-1 (1).md"];
       trace := [] |}
  = Ok "Archive/notes.v2/TASK-1 (2).md"
      {| files := [];
         entries := ["Archive/notes.v2/TASK-1.md";
                     "Archive/notes.v2/TASK-1 (1).md"];
         trace := [] |}.
Proof.
  apply (proj2 (proj2 (proj2
           (resolveCollision_agrees_with_spec 5 "Archive/notes.v2/TASK-1.md"
              {| files := [];
                 entries := ["Archive/notes.v2/TASK-1.md";
                             "Archive/notes.v2/TASK-1 (1).md"];
                 trace := [] |} 2 eq_refl)))).
  - reflexivity.
  - lia.
  - intros k Hk. assert (k = 1%nat) as -> by lia. reflexivity.
  - reflexivity.
Defined.
